(** * SEDkit.synphot: synthetic photometry, verified against its specification

    A shallow embedding of [SEDkit/synphot.py]: the [Bandpass] class with its
    [wave_units] property, [mag2flux] and [mag_table], together with the
    small part of the Python runtime, numpy, itertools, astropy and
    pysynphot that these functions rely on.

    Python floats are IEEE 754 binary64 values, modelled by the standard
    library's [spec_float] at precision 53 and maximal exponent 1024.
    Exceptions are values of [exn] carried by [result]; printing and file
    writing are recorded in an explicit [world]. *)

From Stdlib Require Import ZArith List String Ascii Bool Lia.
From Stdlib Require Import Floats.SpecFloat.
Import ListNotations.

Local Open Scope string_scope.
Local Open Scope Z_scope.

(** ** Exceptions and results *)

Inductive exn : Type :=
| TypeError
| ValueError
| IndexError
| NameError
| OverflowError
| ZeroDivisionError
| UnitConversionError
| OtherError (msg : string).

Inductive result (A : Type) : Type :=
| Ok (a : A)
| Raise (e : exn).

Arguments Ok {A} a.
Arguments Raise {A} e.

Definition rbind {A B : Type} (r : result A) (k : A -> result B) : result B :=
  match r with
  | Ok a => k a
  | Raise e => Raise e
  end.

Declare Scope result_scope.
Delimit Scope result_scope with res.
Notation "x <- r ;; k" := (rbind r (fun x => k))
  (at level 61, r at next level, right associativity) : result_scope.

Definition is_raise {A : Type} (r : result A) : bool :=
  match r with
  | Ok _ => false
  | Raise _ => true
  end.

Fixpoint mapM {A B : Type} (f : A -> result B) (l : list A) : result (list B) :=
  match l with
  | [] => Ok []
  | a :: l' =>
      (b <- f a ;;
       bs <- mapM f l' ;;
       Ok (b :: bs))%res
  end.

(** ** Binary64 floats *)

Module F64.

Definition float : Type := spec_float.

Definition prec : Z := 53.
Definition emax : Z := 1024.

Definition nan : float := S754_nan.
Definition inf : float := S754_infinity false.
Definition zero : float := S754_zero false.

(** [of_Z2 m e] is the float nearest to [m * 2^e]. *)
Definition of_Z2 (m e : Z) : float := binary_normalize prec emax m e false.
Definition of_Z (m : Z) : float := of_Z2 m 0.

Definition one : float := of_Z 1.

Definition mul : float -> float -> float := SFmul prec emax.
Definition div : float -> float -> float := SFdiv prec emax.
Definition add : float -> float -> float := SFadd prec emax.
Definition sub : float -> float -> float := SFsub prec emax.

Definition ltb : float -> float -> bool := SFltb.
Definition leb : float -> float -> bool := SFleb.
Definition eqb : float -> float -> bool := SFeqb.

(** A double in the form the hardware keeps it in. *)
Definition valid (x : float) : bool := valid_binary prec emax x.

Definition is_nan (x : float) : bool :=
  match x with
  | S754_nan => true
  | _ => false
  end.

Definition is_inf (x : float) : bool :=
  match x with
  | S754_infinity _ => true
  | _ => false
  end.

Definition is_finite (x : float) : bool :=
  match x with
  | S754_zero _ | S754_finite _ _ _ => true
  | _ => false
  end.

Definition is_zero (x : float) : bool :=
  match x with
  | S754_zero _ => true
  | _ => false
  end.

Definition signbit (x : float) : bool :=
  match x with
  | S754_zero s | S754_infinity s | S754_finite s _ _ => s
  | S754_nan => false
  end.

(** Ceiling of a float as an integer; [None] on NaN and the infinities. *)
Definition ceil (x : float) : option Z :=
  match x with
  | S754_zero _ => Some 0
  | S754_finite s m e =>
      let v := if s then Z.neg m else Z.pos m in
      if 0 <=? e then Some (v * 2 ^ e)
      else Some (- ((- v) / 2 ^ (- e)))
  | _ => None
  end.

(** The literals of the source. *)
Definition c2_5 : float := of_Z2 5 (-1).
Definition cm2_5 : float := of_Z2 (-5) (-1).
Definition c10000 : float := of_Z 10000.

(** [np.log(10)]: the double nearest to ln 10, 0x1.26bb1bbb55516p+1 =
    2.302585092994046 (a numpy build may return the double next to it). *)
Definition ln10 : float := S754_finite false 5184960683398422 (-51).

End F64.

(** ** Python values *)

(** Class of an astropy unit object: [q.m] and [q.s] are instances of
    [IrreducibleUnit], [q.AA] of [Unit], [q.um] of [PrefixUnit] and
    [q.erg/q.s] of [CompositeUnit]. *)
Inductive unit_class : Type :=
| C_IrreducibleUnit
| C_Unit
| C_PrefixUnit
| C_CompositeUnit.

(** A unit object: its class and its string form, [str(unit)]. *)
Record unit_t : Type := mkUnit {
  u_class : unit_class;
  u_str : string
}.

(** Numbers that occur as grid values and table cells. *)
Inductive pynum : Type :=
| NInt (z : Z)
| NFloat (x : F64.float).

#[local] Set Warnings "-register-all".

(** The objects a caller can pass where the source inspects the argument's
    type at run time. *)
Inductive pyobj : Type :=
| PNone
| PInt (z : Z)
| PFloat (x : F64.float)
| PStr (s : string)
| PTuple (items : list pyobj)
| PList (items : list pyobj)
| PUnit (u : unit_t)
| PObject (repr : string).

Definition unit_class_eqb (a b : unit_class) : bool :=
  match a, b with
  | C_IrreducibleUnit, C_IrreducibleUnit
  | C_Unit, C_Unit
  | C_PrefixUnit, C_PrefixUnit
  | C_CompositeUnit, C_CompositeUnit => true
  | _, _ => false
  end.

Definition unit_eqb (u v : unit_t) : bool :=
  unit_class_eqb (u_class u) (u_class v) && String.eqb (u_str u) (u_str v).

(** [l[i]] for a non-negative index. *)
Definition list_getitem {A : Type} (l : list A) (i : nat) : result A :=
  match nth_error l i with
  | Some a => Ok a
  | None => Raise IndexError
  end.

(** [l[-k]] for [k >= 1]. *)
Definition list_getitem_neg {A : Type} (l : list A) (k : nat) : result A :=
  if (Nat.leb 1 k && Nat.leb k (List.length l))%bool
  then list_getitem l (List.length l - k)%nat
  else Raise IndexError.

(** [obj[i]]: sequences are indexed, numbers and [None] are not
    subscriptable. *)
Definition getitem (obj : pyobj) (i : nat) : result pyobj :=
  match obj with
  | PTuple items | PList items => list_getitem items i
  | PStr s =>
      match String.get i s with
      | Some c => Ok (PStr (String c EmptyString))
      | None => Raise IndexError
      end
  | _ => Raise TypeError
  end.

(** Conversion of an operand to a float in float arithmetic; an integer too
    large for a double raises [OverflowError]. *)
Definition as_float (obj : pyobj) : result F64.float :=
  match obj with
  | PFloat x => Ok x
  | PInt z =>
      let x := F64.of_Z z in
      if F64.is_inf x then Raise OverflowError else Ok x
  | _ => Raise TypeError
  end.

(** [a, b = obj]: unpacking into exactly two targets. *)
Definition unpack2 (obj : pyobj) : result (pyobj * pyobj) :=
  match obj with
  | PTuple [a; b] | PList [a; b] => Ok (a, b)
  | PTuple _ | PList _ => Raise ValueError
  | PStr (String a (String b EmptyString)) =>
      Ok (PStr (String a EmptyString), PStr (String b EmptyString))
  | PStr _ => Raise ValueError
  | _ => Raise TypeError
  end.

(** ** Strings and paths *)

Module Str.

Definition dot : ascii := "."%char.
Definition slash : ascii := "/"%char.
Definition underscore : ascii := "_"%char.

Fixpoint contains_char (c : ascii) (s : string) : bool :=
  match s with
  | EmptyString => false
  | String d s' => Ascii.eqb c d || contains_char c s'
  end.

(** [s.split(c)]: always at least one piece. *)
Fixpoint split (c : ascii) (s : string) : list string :=
  match s with
  | EmptyString => [EmptyString]
  | String d s' =>
      if Ascii.eqb c d then EmptyString :: split c s'
      else
        match split c s' with
        | [] => [String d EmptyString]
        | piece :: rest => String d piece :: rest
        end
  end.

Fixpoint rev_aux (s acc : string) : string :=
  match s with
  | EmptyString => acc
  | String d s' => rev_aux s' (String d acc)
  end.

Definition rev (s : string) : string := rev_aux s EmptyString.

(** [s.endswith(suffix)]. *)
Definition endswith (s suffix : string) : bool :=
  String.prefix (rev suffix) (rev s).

(** [s.lstrip(c)]. *)
Fixpoint lstrip (c : ascii) (s : string) : string :=
  match s with
  | EmptyString => EmptyString
  | String d s' => if Ascii.eqb c d then lstrip c s' else s
  end.

(** [s.rstrip(c)]. *)
Definition rstrip (c : ascii) (s : string) : string := rev (lstrip c (rev s)).

Fixpoint all_char (c : ascii) (s : string) : bool :=
  match s with
  | EmptyString => true
  | String d s' => Ascii.eqb c d && all_char c s'
  end.

(** [s[:i]] where [i = s.rfind(c) + 1]: everything up to and including
    the last occurrence of [c], empty when there is none. *)
Fixpoint upto_last (c : ascii) (s : string) : string :=
  match s with
  | EmptyString => EmptyString
  | String d s' =>
      if contains_char c s' then String d (upto_last c s')
      else if Ascii.eqb c d then String d EmptyString
      else EmptyString
  end.

End Str.

Module OsPath.

(** [posixpath.dirname]. *)
Definition dirname (p : string) : string :=
  let head := Str.upto_last Str.slash p in
  if negb (String.eqb head EmptyString) && negb (Str.all_char Str.slash head)
  then Str.rstrip Str.slash head
  else head.

(** [posixpath.join(a, b)] for a relative [b]. *)
Definition join (a b : string) : string :=
  if String.eqb a EmptyString || Str.endswith a "/" then a ++ b
  else a ++ "/" ++ b.

End OsPath.

(** ** numpy and itertools *)

Module Np.

(** [np.arange(start, stop, step)] on Python ints: the length is
    [ceil((stop - start) / step)], the values are [start + i * step]. *)
Definition arange_int (start stop step : Z) : result (list Z) :=
  if step =? 0 then Raise ZeroDivisionError
  else
    let len := - ((- (stop - start)) / step) in
    Ok (map (fun i => start + Z.of_nat i * step) (seq 0 (Z.to_nat len))).

(** [np.arange(start, stop, step)] on floats: the length is the ceiling of
    the float quotient; the first two entries are [start] and
    [start + step], the others are filled in as [start + i * delta] with
    [delta] the difference of the first two. *)
Definition arange_float (start stop step : F64.float)
  : result (list F64.float) :=
  match F64.ceil (F64.div (F64.sub stop start) step) with
  | None =>
      if F64.is_nan (F64.div (F64.sub stop start) step) then Raise ValueError
      else Raise OverflowError
  | Some len =>
      let next := F64.add start step in
      let delta := F64.sub next start in
      Ok (map (fun i =>
                 match i with
                 | O => start
                 | S O => next
                 | _ => F64.add start (F64.mul (F64.of_Z (Z.of_nat i)) delta)
                 end)
              (seq 0 (Z.to_nat len)))
  end.

End Np.

Module Itertools.

(** [itertools.product(xs, ys, zs)]: the rightmost argument advances
    fastest. *)
Definition product3 {A B C : Type} (xs : list A) (ys : list B) (zs : list C)
  : list (A * B * C) :=
  flat_map (fun x => flat_map (fun y => map (fun z => (x, y, z)) zs) ys) xs.

End Itertools.

(** ** astropy tables *)

Module Table.

(** A cell holds a number, or is masked. *)
Definition cell : Type := option pynum.

(** A table is its columns in order, each with its name. *)
Record t : Type := mk { columns : list (string * list cell) }.

Definition colnames (tb : t) : list string := map fst (columns tb).

Definition nrows (tb : t) : nat :=
  match columns tb with
  | [] => O
  | (_, col) :: _ => List.length col
  end.

Fixpoint lookup (name : string) (cols : list (string * list cell))
  : option (list cell) :=
  match cols with
  | [] => None
  | (n, col) :: rest => if String.eqb n name then Some col else lookup name rest
  end.

Fixpoint replace (name : string) (col : list cell)
         (cols : list (string * list cell)) : list (string * list cell) :=
  match cols with
  | [] => []
  | (n, c) :: rest =>
      if String.eqb n name then (n, col) :: rest
      else (n, c) :: replace name col rest
  end.

(** [table[name] = col]: a new column is appended, an existing one is
    overwritten in place. *)
Definition setitem (tb : t) (name : string) (col : list cell) : t :=
  match lookup name (columns tb) with
  | Some _ => mk (replace name col (columns tb))
  | None => mk (columns tb ++ [(name, col)])
  end.

Fixpoint dedup (seen : list string) (names : list string) : list string :=
  match names with
  | [] => []
  | n :: rest =>
      if existsb (String.eqb n) seen then dedup seen rest
      else n :: dedup (n :: seen) rest
  end.

Definition is_float_cell (c : cell) : bool :=
  match c with
  | Some (NFloat _) => true
  | _ => false
  end.

(** A column has one element type: when integers and floats meet in it,
    the integers are converted to floats. *)
Definition promote (col : list cell) : list cell :=
  if existsb is_float_cell col
  then map (fun c =>
              match c with
              | Some (NInt z) => Some (NFloat (F64.of_Z z))
              | _ => c
              end) col
  else col.

(** The column [name] of the stack: each table contributes its column, or
    as many masked cells as it has rows; the entries are brought to one
    element type. *)
Definition stacked_column (name : string) (tables : list t) : list cell :=
  promote
    (flat_map (fun tb =>
                 match lookup name (columns tb) with
                 | Some col => col
                 | None => repeat None (nrows tb)
                 end) tables).

(** [astropy.table.vstack(tables)] with the default outer join: an empty
    sequence is refused with a [ValueError] ([no values provided to
    stack.]), a single table is returned as it is, several tables are
    stacked over the union of their columns. *)
Definition vstack (tables : list t) : result t :=
  match tables with
  | [] => Raise ValueError
  | [tb] => Ok tb
  | _ =>
      let names := dedup [] (flat_map colnames tables) in
      Ok (mk (map (fun n => (n, stacked_column n tables)) names))
  end.

End Table.

(** ** The collaborators *)

(** A quantity: a float value with its unit. *)
Record Quantity : Type := mkQuantity {
  q_value : F64.float;
  q_unit : unit_t
}.

(** The element type of a numpy array of floats. *)
Inductive float_dtype : Type :=
| dt_float32
| dt_float64.

(** A binary32 float as the binary64 float of the same value. *)
Definition widen (x : spec_float) : F64.float :=
  match x with
  | S754_finite s m e =>
      binary_normalize F64.prec F64.emax (if s then Z.neg m else Z.pos m) e s
  | _ => x
  end.

(** The product of two entries, rounded in the element type of the array. *)
Definition dtype_mul (d : float_dtype) (x y : F64.float) : F64.float :=
  match d with
  | dt_float32 => widen (SFmul 24 128 x y)
  | dt_float64 => F64.mul x y
  end.

(** What [svo.Filter(name)] provides: the array [rsr] with its element
    type, its row of wavelengths and its row of throughputs, and the zero
    point. *)
Record SvoFilter : Type := mkSvoFilter {
  rsr_dtype : float_dtype;
  rsr_wave : list F64.float;
  rsr_thru : list F64.float;
  ZeroPoint : F64.float;
  ZeroPointUnit : string
}.

(** A pysynphot spectrum: wavelengths and fluxes. *)
Record Spectrum : Type := mkSpectrum {
  sp_wave : list F64.float;
  sp_flux : list F64.float
}.

Definition triple : Type := (pynum * pynum * pynum)%type.

(** A [Bandpass] instance: the state inherited from
    [pysynphot.ArrayBandpass] ([name], [wave], [throughput], [waveunits])
    and the attributes the class adds ([_wave_units], [eff], [svo]). *)
Record Bandpass : Type := mkBandpass {
  bp_name : string;
  wave : list F64.float;
  throughput : list F64.float;
  waveunits : string;
  _wave_units : unit_t;
  eff : Quantity;
  svo : SvoFilter
}.

(** Everything the module obtains from outside: the filter registry, the
    model grid, the unit library, the C library's [pow], the file system. *)
Record Env : Type := mkEnv {
  (** C [pow(10, x)] at a finite non-zero [x]. *)
  libm_pow10 : F64.float -> F64.float;
  (** Scale factor between two different units, when they are convertible. *)
  unit_scale : unit_t -> unit_t -> option F64.float;
  (** [q.Unit(string)]. *)
  parse_unit : string -> result unit_t;
  (** [svo.Filter(name)]. *)
  svo_Filter : string -> result SvoFilter;
  (** [ArrayBandpass.pivot()] of a wavelength and throughput table. *)
  pivot : list F64.float -> list F64.float -> F64.float;
  (** [ArrayBandpass.convert(target)]: the wavelength table in the new
      unit. *)
  convert_wave : list F64.float -> string -> string -> result (list F64.float);
  (** [ps.ObsBandpass(name)]. *)
  ObsBandpass : string -> result Spectrum;
  (** [ps.Icat(models, teff, feh, logg)]. *)
  Icat : string -> triple -> result Spectrum;
  (** [spectrum.renorm(mag, 'vegamag', band)]. *)
  renorm : Spectrum -> pynum -> Spectrum -> result Spectrum;
  (** [os.path.exists]. *)
  path_exists : string -> bool;
  (** [glob.glob]. *)
  glob : string -> list string;
  (** The exception that writing a table to the path raises, if any (the
      path names a directory, the directory is not writable, ...). *)
  write_error : string -> option exn
}.

(** [synthetic_magnitude] is called by [mag_table], but the module neither
    defines nor imports the name: evaluating it raises [NameError]. *)
Definition synthetic_magnitude (spectrum : Spectrum) (bp : Bandpass)
  : result pynum :=
  Raise NameError.

Definition AA : unit_t := mkUnit C_Unit "Angstrom".
Definition um : unit_t := mkUnit C_PrefixUnit "um".

(** [unit.to(other)]: the scale factor, 1 for the unit itself. *)
Definition unit_to (env : Env) (u v : unit_t) : result F64.float :=
  if unit_eqb u v then Ok F64.one
  else
    match unit_scale env u v with
    | Some k => Ok k
    | None => Raise UnitConversionError
    end.

(** [quantity.to(unit)]: a quantity already in [unit] keeps its value (the
    scale 1.0 leaves a double as it is). *)
Definition quantity_to (env : Env) (x : Quantity) (u : unit_t)
  : result Quantity :=
  if unit_eqb (q_unit x) u then Ok (mkQuantity (q_value x) u)
  else
    match unit_scale env (q_unit x) u with
    | Some k => Ok (mkQuantity (F64.mul (q_value x) k) u)
    | None => Raise UnitConversionError
    end.

(** [quantity * x] and [quantity / x] for a float [x]. *)
Definition q_mul (x : Quantity) (y : F64.float) : Quantity :=
  mkQuantity (F64.mul (q_value x) y) (q_unit x).

Definition q_div (x : Quantity) (y : F64.float) : Quantity :=
  mkQuantity (F64.div (q_value x) y) (q_unit x).

(** ** class Bandpass *)

(** [Bandpass.__init__(self, name)].  [wave *= 10000] multiplies the
    wavelength row of the filter's own array in place, in the element type
    of that array: the filter kept in [svo] holds the rescaled wavelengths
    too. *)
Definition Bandpass_init (env : Env) (name : pyobj) : result Bandpass :=
  match name with
  | PStr n =>
      (filt <- svo_Filter env n ;;
       let wave := map (fun w => dtype_mul (rsr_dtype filt) w F64.c10000)
                       (rsr_wave filt) in
       let thru := rsr_thru filt in
       Ok {| bp_name := n;
             wave := wave;
             throughput := thru;
             waveunits := "Angstrom";
             _wave_units := AA;
             eff := mkQuantity (pivot env wave thru) AA;
             svo := {| rsr_dtype := rsr_dtype filt;
                       rsr_wave := wave;
                       rsr_thru := thru;
                       ZeroPoint := ZeroPoint filt;
                       ZeroPointUnit := ZeroPointUnit filt |} |})%res
  | _ => Raise TypeError
  end.

(** The call [Bandpass(args...)]: [__init__] takes exactly one argument
    besides [self]. *)
Definition Bandpass_call (env : Env) (args : list pyobj) : result Bandpass :=
  match args with
  | [name] => Bandpass_init env name
  | _ => Raise TypeError
  end.

(** The getter of [wave_units]. *)
Definition get_wave_units (self : Bandpass) : unit_t := _wave_units self.

(** [isinstance(x, (q.core.PrefixUnit, q.core.Unit, q.core.CompositeUnit))]:
    [PrefixUnit] is a subclass of [Unit]; an irreducible unit is neither. *)
Definition accepted_unit_class (c : unit_class) : bool :=
  match c with
  | C_PrefixUnit | C_Unit | C_CompositeUnit => true
  | C_IrreducibleUnit => false
  end.

(** [self.convert(target)], inherited from pysynphot. *)
Definition convert (env : Env) (self : Bandpass) (target : string)
  : result Bandpass :=
  (w <- convert_wave env (wave self) (waveunits self) target ;;
   Ok {| bp_name := bp_name self;
         wave := w;
         throughput := throughput self;
         waveunits := target;
         _wave_units := _wave_units self;
         eff := eff self;
         svo := svo self |})%res.

(** The setter of [wave_units]: the instance after the assignment, and
    whether the assignment raised. *)
Definition set_wave_units (env : Env) (self : Bandpass) (wave_units : pyobj)
  : Bandpass * result unit :=
  match wave_units with
  | PUnit u =>
      if accepted_unit_class (u_class u) then
        match unit_to env u um with
        | Raise _ => (self, Raise TypeError)
        | Ok _ =>
            match convert env self (u_str u) with
            | Raise e => (self, Raise e)
            | Ok self1 =>
                match quantity_to env (eff self1) u with
                | Raise e => (self1, Raise e)
                | Ok eff' =>
                    ({| bp_name := bp_name self1;
                        wave := wave self1;
                        throughput := throughput self1;
                        waveunits := waveunits self1;
                        _wave_units := u;
                        eff := eff';
                        svo := svo self1 |}, Ok tt)
                end
            end
        end
      else (self, Raise TypeError)
  | _ => (self, Raise TypeError)
  end.

(** ** mag2flux *)

(** Python's [10 ** x] on a float [x]: the special cases are decided before
    the C library is asked; an overflowing result raises, an underflowing
    one is zero. *)
Definition py_pow10 (env : Env) (x : F64.float) : result F64.float :=
  match x with
  | S754_zero _ => Ok F64.one
  | S754_nan => Ok F64.nan
  | S754_infinity false => Ok F64.inf
  | S754_infinity true => Ok F64.zero
  | S754_finite _ _ _ =>
      let r := libm_pow10 env x in
      if F64.is_inf r then Raise OverflowError else Ok r
  end.

(** The arithmetic that the flux expression is evaluated in. *)
Record Arith : Type := mkArith {
  num : Type;
  a_mul : num -> num -> num;
  a_div : num -> num -> num;
  a_pow10 : num -> result num;
  a_m2_5 : num
}.

(** Binary64, as the interpreter computes. *)
Definition Float64 (env : Env) : Arith :=
  mkArith F64.float F64.mul F64.div (py_pow10 env) F64.cm2_5.

(** The value of [zp*10**(m/-2.5)]. *)
Definition flux_value (A : Arith) (zp m : num A) : result (num A) :=
  (p <- a_pow10 A (a_div A m (a_m2_5 A)) ;;
   Ok (a_mul A zp p))%res.

Definition mag2flux (env : Env) (mag : pyobj) (bandpass : Bandpass)
           (units : unit_t) : result (Quantity * Quantity) :=
  let mag :=
    match mag with
    | PFloat _ => PTuple [mag; PFloat F64.nan]
    | _ => mag
    end in
  (zu <- parse_unit env (ZeroPointUnit (svo bandpass)) ;;
   zp <- quantity_to env (mkQuantity (ZeroPoint (svo bandpass)) zu) units ;;
   m0 <- getitem mag 0 ;;
   m0 <- as_float m0 ;;
   fv <- flux_value (Float64 env) (q_value zp) m0 ;;
   f <- quantity_to env (mkQuantity fv (q_unit zp)) units ;;
   m1 <- getitem mag 1 ;;
   m1 <- as_float m1 ;;
   sig_f <- quantity_to env
              (q_div (q_mul (q_mul f m1) F64.ln10) F64.c2_5) units ;;
   Ok (f, sig_f))%res.

(** ** mag_table *)

(** What the function prints. *)
Inductive output : Type :=
| OutPleaseProvide
| OutCalculating
| OutParams (t : triple)
| OutError (t : triple).

(** The observable surroundings: the lines printed and the files written. *)
Record world : Type := mkWorld {
  stdout : list output;
  files : list (string * Table.t)
}.

Definition M (A : Type) : Type := world -> world * result A.

Definition ret {A : Type} (a : A) : M A := fun w => (w, Ok a).

Definition bind {A B : Type} (m : M A) (k : A -> M B) : M B :=
  fun w =>
    match m w with
    | (w', Ok a) => k a w'
    | (w', Raise e) => (w', Raise e)
    end.

Definition lift {A : Type} (r : result A) : M A := fun w => (w, r).

Declare Scope M_scope.
Delimit Scope M_scope with M.
Notation "x <- m ;; k" := (bind m (fun x => k))
  (at level 61, m at next level, right associativity) : M_scope.
Notation "m ;;; k" := (bind m (fun _ => k))
  (at level 61, right associativity) : M_scope.

Definition print (o : output) : M unit :=
  fun w => (mkWorld (stdout w ++ [o]) (files w), Ok tt).

(** [table.write(path, format='ascii.csv', overwrite=True)]: the file is
    written, replacing a file of that name, unless the write raises. *)
Definition write_file (env : Env) (path : string) (tb : Table.t) : M unit :=
  fun w =>
    match write_error env path with
    | Some e => (w, Raise e)
    | None =>
        (mkWorld (stdout w)
                 ((path, tb)
                    :: filter (fun f => negb (String.eqb (fst f) path))
                              (files w)),
         Ok tt)
    end.

(** The grid used when [spectra] is [None]. *)
Definition default_spectra : result (list triple) :=
  (teff_range <- Np.arange_int 2000 2550 50 ;;
   feh_range <- Np.arange_float (F64.of_Z2 (-1) (-1)) F64.one (F64.of_Z2 1 (-1)) ;;
   logg_range <- Np.arange_float (F64.of_Z2 9 (-1)) (F64.of_Z2 11 (-1))
                                 (F64.of_Z2 1 (-1)) ;;
   Ok (Itertools.product3 (map NInt teff_range) (map NFloat feh_range)
                          (map NFloat logg_range)))%res.

Definition resolve_spectra (spectra : option (list triple))
  : result (list triple) :=
  match spectra with
  | None => default_spectra
  | Some l => Ok l
  end.

(** A directory of filter files is turned into (filter, instrument)
    tuples. *)
Definition discover (env : Env) (bandpasses : pyobj) : result pyobj :=
  match bandpasses with
  | PStr dir =>
      if path_exists env dir then
        (tuples <-
           mapM (fun i =>
                   let pieces := Str.split Str.dot i in
                   a <- list_getitem_neg pieces 3 ;;
                   b <- list_getitem_neg pieces 4 ;;
                   c <- list_getitem_neg (Str.split Str.underscore b) 1 ;;
                   Ok (PTuple [PStr a; PStr c]))
                (glob env (OsPath.join dir "*")) ;;
         Ok (PList tuples))%res
      else Ok bandpasses
  | _ => Ok bandpasses
  end.

(** [[Bandpass(filt, inst) for filt, inst in bandpasses]]. *)
Definition make_bandpasses (env : Env) (items : list pyobj)
  : result (list Bandpass) :=
  mapM (fun item =>
          (fi <- unpack2 item ;;
           Bandpass_call env [fst fi; snd fi])%res) items.

(** The inner loop: one magnitude column per bandpass. *)
Fixpoint bandpass_loop (spectrum : Spectrum) (bps : list Bandpass)
         (table : Table.t) : result Table.t :=
  match bps with
  | [] => Ok table
  | bp :: rest =>
      (mag <- synthetic_magnitude spectrum bp ;;
       bandpass_loop spectrum rest
                     (Table.setitem table (bp_name bp) [Some mag]))%res
  end.

(** The table made for one set of parameters, before its magnitudes. *)
Definition params_table (t : triple) : Table.t :=
  let '(teff, feh, logg) := t in
  Table.mk [("teff", [Some teff]); ("feh", [Some feh]); ("logg", [Some logg])].

(** The outer loop over the sets of parameters. *)
Fixpoint spectra_loop (env : Env) (models : string) (jmag : pynum)
         (jband : Spectrum) (bps : list Bandpass) (spectra : list triple)
         (tables : list Table.t) : M (list Table.t) :=
  match spectra with
  | [] => ret tables
  | t :: rest =>
      (spectrum <- lift (Icat env models t) ;;
       match renorm env spectrum jmag jband with
       | Ok spectrum' =>
           print (OutParams t) ;;;
           table <- lift (bandpass_loop spectrum' bps (params_table t)) ;;
           spectra_loop env models jmag jband bps rest (tables ++ [table])
       | Raise _ =>
           print (OutError t) ;;;
           spectra_loop env models jmag jband bps rest tables
       end)%M
  end.

(** The last statement: save to file, or return. *)
Definition save_or_return (env : Env) (save : option string)
           (mag_table : Table.t) : M (option Table.t) :=
  match save with
  | None => lift (Raise TypeError)
  | Some path =>
      if path_exists env (OsPath.dirname path) && Str.contains_char Str.dot path
      then
        let path' :=
          if Str.endswith path ".csv" then path
          else hd EmptyString (Str.split Str.dot path) ++ ".csv" in
        (write_file env path' mag_table ;;; ret None)%M
      else ret (Some mag_table)
  end.

Definition mag_table (env : Env) (spectra : option (list triple))
           (bandpasses : pyobj) (models : string) (jmag : pynum)
           (save : option string) : M (option Table.t) :=
  (jband <- lift (ObsBandpass env "j") ;;
   spectra <- lift (resolve_spectra spectra) ;;
   bandpasses <- lift (discover env bandpasses) ;;
   match bandpasses with
   | PList items | PTuple items =>
       bps <- lift (make_bandpasses env items) ;;
       print OutCalculating ;;;
       tables <- spectra_loop env models jmag jband bps spectra [] ;;
       table <- lift (Table.vstack tables) ;;
       save_or_return env save table
   | _ =>
       print OutPleaseProvide ;;;
       ret None
   end)%M.

(** Does the grid point [t] reach the renormalization and fail there? *)
Definition renorm_fails (env : Env) (models : string) (jmag : pynum)
           (jband : Spectrum) (t : triple) : bool :=
  match Icat env models t with
  | Ok sp => is_raise (renorm env sp jmag jband)
  | Raise _ => false
  end.

(** Does a call hand a table back to its caller? *)
Definition returns_table (r : result (option Table.t)) : bool :=
  match r with
  | Ok (Some _) => true
  | _ => false
  end.

Definition is_sequence (obj : pyobj) : bool :=
  match obj with
  | PList _ | PTuple _ => true
  | _ => false
  end.

(** The flux value of a result of [mag2flux]. *)
Definition flux_of (r : result (Quantity * Quantity)) : option F64.float :=
  match r with
  | Ok (f, _) => Some (q_value f)
  | Raise _ => None
  end.

(** The three ranges of the default grid. *)

Definition teff_values : list Z :=
  [2000; 2050; 2100; 2150; 2200; 2250; 2300; 2350; 2400; 2450; 2500].

(** -0.5, 0.0, 0.5 *)
Definition feh_values : list F64.float :=
  [F64.of_Z2 (-1) (-1); F64.zero; F64.of_Z2 1 (-1)].

(** 4.5, 5.0 *)
Definition logg_values : list F64.float :=
  [F64.of_Z2 9 (-1); F64.of_Z 5].

(** ** A small concrete environment

    Used to run the functions on concrete inputs. *)

Module Demo.

Definition flam : unit_t := mkUnit C_CompositeUnit "erg / (Angstrom cm2 s)".
Definition Jy : unit_t := mkUnit C_Unit "Jy".
Definition nm : unit_t := mkUnit C_PrefixUnit "nm".
Definition meter : unit_t := mkUnit C_IrreducibleUnit "m".
Definition second : unit_t := mkUnit C_IrreducibleUnit "s".

(** Powers of ten: [10^k] rounded to the nearest double. *)
Definition pow10_Z (k : Z) : F64.float :=
  if 0 <=? k then F64.of_Z (10 ^ k)
  else F64.div F64.one (F64.of_Z (10 ^ (- k))).

(** A coarse stand-in for the C library: the exponent is rounded up to an
    integer first, so that the value is right at integer exponents. *)
Definition pow10 (x : F64.float) : F64.float :=
  match F64.ceil x with
  | Some k =>
      if 309 <=? k then F64.inf
      else if k <=? -324 then F64.zero
      else pow10_Z k
  | None => F64.nan
  end.

(** Lengths are powers of ten of a meter. *)
Definition length_exponent (u : unit_t) : option Z :=
  if String.eqb (u_str u) "Angstrom" then Some (-10)
  else if String.eqb (u_str u) "nm" then Some (-9)
  else if String.eqb (u_str u) "um" then Some (-6)
  else if String.eqb (u_str u) "m" then Some 0
  else None.

Definition scale (u v : unit_t) : option F64.float :=
  match length_exponent u, length_exponent v with
  | Some a, Some b => Some (pow10_Z (a - b))
  | _, _ => None
  end.

Definition parse (s : string) : result unit_t :=
  if String.eqb s "erg / (Angstrom cm2 s)" then Ok flam
  else if String.eqb s "Jy" then Ok Jy
  else Raise ValueError.

(** One filter, with a response at three wavelengths (in micrometers) and
    a zero point of 3.129e-10 erg/s/cm2/A. *)
Definition filter_J : SvoFilter :=
  {| rsr_dtype := dt_float32;
     rsr_wave := [F64.of_Z2 9 (-3); F64.of_Z2 5 (-2); F64.of_Z2 11 (-3)];
     rsr_thru := [F64.zero; F64.one; F64.zero];
     ZeroPoint := F64.div (F64.of_Z 3129) (F64.of_Z (10 ^ 13));
     ZeroPointUnit := "erg / (Angstrom cm2 s)" |}.

Definition Filter (name : string) : result SvoFilter :=
  if String.eqb name "J" then Ok filter_J
  else Raise (OtherError "no such filter").

Definition pivot_mid (w thru : list F64.float) : F64.float :=
  nth (Nat.div2 (List.length w)) w F64.nan.

Definition unit_named (s : string) : option unit_t :=
  if String.eqb s "Angstrom" then Some AA
  else if String.eqb s "nm" then Some nm
  else if String.eqb s "um" then Some um
  else None.

Definition convert_table (w : list F64.float) (from to : string)
  : result (list F64.float) :=
  match unit_named from, unit_named to with
  | Some u, Some v =>
      match scale u v with
      | Some k => Ok (map (fun x => F64.mul x k) w)
      | None => Raise ValueError
      end
  | _, _ => Raise ValueError
  end.

Definition jband : Spectrum :=
  mkSpectrum [F64.of_Z 11000; F64.of_Z 12500; F64.of_Z 14000]
             [F64.zero; F64.one; F64.zero].

Definition band (name : string) : result Spectrum := Ok jband.

(** The model grid starts at 2000 K: below, the spectrum is all zero. *)
Definition catalog (models : string) (t : triple) : result Spectrum :=
  if String.eqb models "phoenix" then
    match t with
    | (NInt teff, _, _) =>
        let level := if 2000 <=? teff then F64.one else F64.zero in
        Ok (mkSpectrum [F64.of_Z 11000; F64.of_Z 12500; F64.of_Z 14000]
                       [level; level; level])
    | _ => Raise (OtherError "parameter out of bounds")
    end
  else Raise (OtherError "no such catalog").

(** A spectrum without flux cannot be renormalized. *)
Definition renorm_nonzero (sp : Spectrum) (mag : pynum) (band : Spectrum)
  : result Spectrum :=
  if forallb F64.is_zero (sp_flux sp)
  then Raise ValueError
  else Ok sp.

Definition exists_ (p : string) : bool :=
  String.eqb p "/tmp" || String.eqb p "out".

Definition env : Env :=
  {| libm_pow10 := pow10;
     unit_scale := scale;
     parse_unit := parse;
     svo_Filter := Filter;
     pivot := pivot_mid;
     convert_wave := convert_table;
     ObsBandpass := band;
     Icat := catalog;
     renorm := renorm_nonzero;
     path_exists := exists_;
     glob := fun _ => [];
     write_error := fun _ => None |}.

Definition w0 : world := mkWorld [] [].

(** The wavelengths of the filter in angstroms. *)
Definition wave_J : list F64.float :=
  map (fun w => dtype_mul (rsr_dtype filter_J) w F64.c10000) (rsr_wave filter_J).

(** The J bandpass, as [Bandpass('J')] builds it. *)
Definition bandpass_J : Bandpass :=
  {| bp_name := "J";
     wave := wave_J;
     throughput := rsr_thru filter_J;
     waveunits := "Angstrom";
     _wave_units := AA;
     eff := mkQuantity (pivot_mid wave_J (rsr_thru filter_J)) AA;
     svo := {| rsr_dtype := rsr_dtype filter_J;
               rsr_wave := wave_J;
               rsr_thru := rsr_thru filter_J;
               ZeroPoint := ZeroPoint filter_J;
               ZeroPointUnit := ZeroPointUnit filter_J |} |}.

Definition point_2000 : triple :=
  (NInt 2000, NFloat F64.zero, NFloat (F64.of_Z 5)).
Definition point_1000 : triple :=
  (NInt 1000, NFloat F64.zero, NFloat (F64.of_Z 5)).

(** The smallest positive double, 5e-324. *)
Definition tiny : F64.float := S754_finite false 1 (-1074).

End Demo.

(** ** Vocabulary for the properties of the grid loop *)

(** The table with one row per grid point of [ts], in the order of [ts];
    in a column that holds a float, the integers are converted to floats. *)
Definition grid_table (ts : list triple) : Table.t :=
  Table.mk
    [("teff", Table.promote (map (fun t : triple => Some (fst (fst t))) ts));
     ("feh", Table.promote (map (fun t : triple => Some (snd (fst t))) ts));
     ("logg", Table.promote (map (fun t : triple => Some (snd t)) ts))].

(** The line printed for a grid point. *)
Definition grid_line (env : Env) (models : string) (jmag : pynum)
           (jband : Spectrum) (t : triple) : output :=
  if renorm_fails env models jmag jband t then OutError t else OutParams t.

(** The grid points that are kept. *)
Definition kept_points (env : Env) (models : string) (jmag : pynum)
           (jband : Spectrum) (grid : list triple) : list triple :=
  filter (fun t => negb (renorm_fails env models jmag jband t)) grid.

(** Every column holds exactly one cell. *)
Definition single_row (tb : Table.t) : Prop :=
  Forall (fun c : string * list Table.cell => List.length (snd c) = 1%nat)
         (Table.columns tb).

(** The effective wavelength is expressed in the current wavelength unit. *)
Definition eff_in_current_unit (bp : Bandpass) : Prop :=
  q_unit (eff bp) = _wave_units bp.

(** A file name that follows the convention of the filter directory:
    [<prefix>_<instrument>.<filter>.<a>.<b>]. *)
Record filter_file : Type := mkFilterFile {
  ff_prefix : string;
  ff_instrument : string;
  ff_filter : string;
  ff_a : string;
  ff_b : string
}.

Definition filter_file_path (f : filter_file) : string :=
  ff_prefix f ++ String Str.underscore
     (ff_instrument f ++ String Str.dot
        (ff_filter f ++ String Str.dot
           (ff_a f ++ String Str.dot (ff_b f)))).

Definition filter_file_ok (f : filter_file) : bool :=
  negb (Str.contains_char Str.dot (ff_instrument f))
  && negb (Str.contains_char Str.underscore (ff_instrument f))
  && negb (Str.contains_char Str.dot (ff_filter f))
  && negb (Str.contains_char Str.dot (ff_a f))
  && negb (Str.contains_char Str.dot (ff_b f)).

(** ** color_color_plot *)

(** What [color_color_plot] obtains from outside: the file system, the
    table reader, and numpy's elementwise subtraction, comparison and
    [np.unique] on the entries of numeric columns. *)
Record PlotEnv : Type := mkPlotEnv {
  (** [os.path.isfile] on a string. *)
  path_isfile : string -> bool;
  (** [asc.read(path)]. *)
  asc_read : string -> result Table.t;
  (** One entry of [column1 - column2]. *)
  cell_sub : Table.cell -> Table.cell -> Table.cell;
  (** One entry of [column == value]. *)
  cell_eq : Table.cell -> pyobj -> bool;
  (** [np.unique(column)]. *)
  np_unique : list Table.cell -> list Table.cell
}.

(** The [table] argument: a path, or a table object. *)
Inductive table_arg : Type :=
| TPath (path : string)
| TTable (tb : Table.t).

(** [KeyError], for a column that the table does not have. *)
Definition KeyError : exn := OtherError "KeyError".

(** [table[name]]. *)
Definition table_getitem (tb : Table.t) (name : string)
  : result (list Table.cell) :=
  match Table.lookup name (Table.columns tb) with
  | Some col => Ok col
  | None => Raise KeyError
  end.

(** [a, b = color.split('-')]. *)
Definition split_color (color : string) : result (string * string) :=
  match Str.split "-"%char color with
  | [a; b] => Ok (a, b)
  | _ => Raise ValueError
  end.

Fixpoint zip_with {A B C : Type} (f : A -> B -> C) (l : list A) (l' : list B)
  : list C :=
  match l, l' with
  | a :: r, b :: r' => f a b :: zip_with f r r'
  | _, _ => []
  end.

(** The entries of [l] where the mask holds. *)
Fixpoint select {A : Type} (mask : list bool) (l : list A) : list A :=
  match mask, l with
  | m :: mask', a :: l' => if m then a :: select mask' l' else select mask' l'
  | _, _ => []
  end.

(** [table[mask]]: the rows where the mask holds. *)
Definition select_rows (mask : list bool) (tb : Table.t) : Table.t :=
  Table.mk (map (fun c : string * list Table.cell =>
                   (fst c, select mask (snd c)))
                (Table.columns tb)).

(** [kwargs.get(param)]. *)
Fixpoint kwargs_get (kwargs : list (string * pyobj)) (param : string)
  : option pyobj :=
  match kwargs with
  | [] => None
  | (k, v) :: rest => if String.eqb k param then Some v else kwargs_get rest param
  end.

(** One round of the loop over ['teff', 'logg', 'feh']. *)
Definition filter_param (penv : PlotEnv) (kwargs : list (string * pyobj))
           (param : string) (tb : Table.t) : result Table.t :=
  match kwargs_get kwargs param with
  | Some (PInt z) =>
      (col <- table_getitem tb param ;;
       Ok (select_rows (map (fun c => cell_eq penv c (PInt z)) col) tb))%res
  | Some (PFloat x) =>
      (col <- table_getitem tb param ;;
       Ok (select_rows (map (fun c => cell_eq penv c (PFloat x)) col) tb))%res
  | _ => Ok tb
  end.

(** The loop over the values of log g: the first statement that draws
    looks up [plt], a name that the module neither defines nor imports. *)
Definition plot_groups (penv : PlotEnv) (tb : Table.t)
           (groups : list Table.cell) : result unit :=
  match groups with
  | [] => Ok tt
  | g :: _ =>
      (logg <- table_getitem tb "logg" ;;
       let tab := select_rows
                    (map (fun c =>
                            match g with
                            | Some (NInt z) => cell_eq penv c (PInt z)
                            | Some (NFloat x) => cell_eq penv c (PFloat x)
                            | None => false
                            end) logg) tb in
       Raise NameError)%res
  end.

Definition color_color_plot (penv : PlotEnv) (colorx colory : string)
           (table : table_arg) (kwargs : list (string * pyobj))
  : result unit :=
  (table <- match table with
            | TTable _ => Raise TypeError
            | TPath path =>
                if path_isfile penv path
                then (tb <- asc_read penv path ;; Ok (Some tb))
                else Ok None
            end ;;
   bx <- split_color colorx ;;
   by_ <- split_color colory ;;
   match table with
   | None => Raise TypeError
   | Some tb =>
       x1 <- table_getitem tb (fst bx) ;;
       x2 <- table_getitem tb (snd bx) ;;
       let tb := Table.setitem tb colorx (zip_with (cell_sub penv) x1 x2) in
       y1 <- table_getitem tb (fst by_) ;;
       y2 <- table_getitem tb (snd by_) ;;
       let tb := Table.setitem tb colory (zip_with (cell_sub penv) y1 y2) in
       tb <- filter_param penv kwargs "teff" tb ;;
       tb <- filter_param penv kwargs "logg" tb ;;
       tb <- filter_param penv kwargs "feh" tb ;;
       logg <- table_getitem tb "logg" ;;
       _ <- plot_groups penv tb (np_unique penv logg) ;;
       Raise NameError
   end)%res.

(** ** More concrete inputs *)

Module Demo2.

(** A directory with one filter file. *)
Definition file_J : filter_file :=
  mkFilterFile "filters/2MASS" "2MASS" "J" "dat" "txt".

Definition env_dir : Env :=
  {| libm_pow10 := libm_pow10 Demo.env;
     unit_scale := unit_scale Demo.env;
     parse_unit := parse_unit Demo.env;
     svo_Filter := svo_Filter Demo.env;
     pivot := pivot Demo.env;
     convert_wave := convert_wave Demo.env;
     ObsBandpass := ObsBandpass Demo.env;
     Icat := Icat Demo.env;
     renorm := renorm Demo.env;
     path_exists := fun p => String.eqb p "filters" || String.eqb p "/tmp";
     glob := fun pat =>
               if String.eqb pat "filters/*" then [filter_file_path file_J]
               else [];
     write_error := write_error Demo.env |}.

(** What [open] raises on a path that names a directory. *)
Definition IsADirectoryError : exn := OtherError "IsADirectoryError".

(** A file system with the directories [/tmp/v1.2] and [/tmp/x.csv]. *)
Definition env_tmp : Env :=
  {| libm_pow10 := libm_pow10 Demo.env;
     unit_scale := unit_scale Demo.env;
     parse_unit := parse_unit Demo.env;
     svo_Filter := svo_Filter Demo.env;
     pivot := pivot Demo.env;
     convert_wave := convert_wave Demo.env;
     ObsBandpass := ObsBandpass Demo.env;
     Icat := Icat Demo.env;
     renorm := renorm Demo.env;
     path_exists := fun p => String.eqb p "/tmp/v1.2"
                             || String.eqb p "/tmp/x.csv";
     glob := glob Demo.env;
     write_error := fun p => if String.eqb p "/tmp/x.csv"
                             then Some IsADirectoryError
                             else None |}.

(** A directory that holds one file whose name has too few pieces. *)
Definition env_short : Env :=
  {| libm_pow10 := libm_pow10 Demo.env;
     unit_scale := unit_scale Demo.env;
     parse_unit := parse_unit Demo.env;
     svo_Filter := svo_Filter Demo.env;
     pivot := pivot Demo.env;
     convert_wave := convert_wave Demo.env;
     ObsBandpass := ObsBandpass Demo.env;
     Icat := Icat Demo.env;
     renorm := renorm Demo.env;
     path_exists := path_exists env_dir;
     glob := fun _ => ["filters/2MASS_J.txt"];
     write_error := write_error Demo.env |}.

(** A point outside the catalog: the lookup itself raises. *)
Definition point_float : triple :=
  (NFloat (F64.of_Z 2000), NFloat F64.zero, NFloat (F64.of_Z 5)).

Definition magnitudes : Table.t :=
  Table.mk [("teff", [Some (NInt 2000); Some (NInt 2500)]);
            ("feh", [Some (NFloat F64.zero); Some (NFloat F64.zero)]);
            ("logg", [Some (NFloat (F64.of_Z 5)); Some (NFloat (F64.of_Z 5))]);
            ("J", [Some (NFloat (F64.of_Z 10)); Some (NFloat (F64.of_Z 10))]);
            ("H", [Some (NFloat (F64.of_Z 9)); Some (NFloat (F64.of_Z 8))])].

Definition sub (a b : Table.cell) : Table.cell :=
  match a, b with
  | Some (NFloat x), Some (NFloat y) => Some (NFloat (F64.sub x y))
  | Some (NInt x), Some (NInt y) => Some (NInt (x - y))
  | Some (NInt x), Some (NFloat y) => Some (NFloat (F64.sub (F64.of_Z x) y))
  | Some (NFloat x), Some (NInt y) => Some (NFloat (F64.sub x (F64.of_Z y)))
  | _, _ => None
  end.

Definition equal (a : Table.cell) (v : pyobj) : bool :=
  match a, v with
  | Some (NInt x), PInt y => x =? y
  | Some (NFloat x), PFloat y => F64.eqb x y
  | Some (NInt x), PFloat y => F64.eqb (F64.of_Z x) y
  | Some (NFloat x), PInt y => F64.eqb x (F64.of_Z y)
  | _, _ => false
  end.

Definition penv : PlotEnv :=
  {| path_isfile := fun p => String.eqb p "mags.csv";
     asc_read := fun p =>
                   if String.eqb p "mags.csv" then Ok magnitudes
                   else Raise (OtherError "no such file");
     cell_sub := sub;
     cell_eq := equal;
     np_unique := fun col => firstn 1 col |}.

End Demo2.

Module Demo3.

(** The size of a length unit in meters, as a double.  The angstrom is
    defined as 0.1 nm, the other units as powers of ten of a meter. *)
Definition si (u : unit_t) : option F64.float :=
  if String.eqb (u_str u) "Angstrom"
  then Some (F64.mul (Demo.pow10_Z (-1)) (Demo.pow10_Z (-9)))
  else
    match Demo.length_exponent u with
    | Some k => Some (Demo.pow10_Z k)
    | None => None
    end.

(** The scale factor between two units as the quotient of their sizes,
    rounded: 0.1 from angstroms to nanometers and 9.999999999999998 back. *)
Definition scale (u v : unit_t) : option F64.float :=
  match si u, si v with
  | Some a, Some b => Some (F64.div a b)
  | _, _ => None
  end.

Definition env : Env :=
  {| libm_pow10 := libm_pow10 Demo.env;
     unit_scale := scale;
     parse_unit := parse_unit Demo.env;
     svo_Filter := svo_Filter Demo.env;
     pivot := pivot Demo.env;
     convert_wave := convert_wave Demo.env;
     ObsBandpass := ObsBandpass Demo.env;
     Icat := Icat Demo.env;
     renorm := renorm Demo.env;
     path_exists := path_exists Demo.env;
     glob := glob Demo.env;
     write_error := write_error Demo.env |}.




End Demo3.

(** ** The order of the doubles and rounding *)

(** The quotient [N / D] rounded to the nearest integer, ties to even. *)
Definition rne (N D : Z) : Z :=
  match (2 * (N mod D)) ?= D with
  | Lt => N / D
  | Eq => if Z.even (N / D) then N / D else N / D + 1
  | Gt => N / D + 1
  end.

(** A shift record stands for the quotient [N / D]: its mantissa and round
    bit are the integer part of [2 N / D], its sticky bit says whether
    anything is left. *)
Definition Represents (mrs : shr_record) (N D : Z) : Prop :=
  0 < D /\ 0 <= N
  /\ 2 * shr_m mrs + Z.b2z (shr_r mrs) = (2 * N) / D
  /\ shr_s mrs = negb ((2 * N) mod D =? 0).

(** The mantissa and exponent of a finite double: an exponent in range, at
    most 53 bits, and exactly 53 bits unless the exponent is the smallest
    one. *)
Definition canon (m : positive) (e : Z) : Prop :=
  -1074 <= e <= 971 /\ Zpos m < 2 ^ 53 /\ (e = -1074 \/ 2 ^ 52 <= Zpos m).

(** A double that is not NaN and, when finite, is in canonical form. *)
Definition regular (x : spec_float) : Prop :=
  match x with
  | S754_finite _ m e => canon m e
  | S754_nan => False
  | _ => True
  end.

(** The magnitude of a double in units of [2^-1074], the smallest positive
    double; the infinities come after every finite double. *)
Definition rank_inf : Z := 2 ^ 2098.

Definition rank (x : spec_float) : Z :=
  match x with
  | S754_zero _ => 0
  | S754_finite _ m e => Zpos m * 2 ^ (e + 1074)
  | S754_infinity _ => rank_inf
  | S754_nan => 0
  end.

(** The magnitude with its sign: the order of the doubles. *)
Definition srank (x : spec_float) : Z :=
  if F64.signbit x then - rank x else rank x.

(** The positive number [N / D * 2^E] rounds to [M * 2^e1]: [e1] is the
    exponent that the format gives to a number of this size and [M] the
    nearest integer to the number in units of [2^e1]. *)
Definition RoundsTo (N D E M e1 : Z) : Prop :=
  0 < D /\ 0 <= N /\ -1074 <= e1 /\ E <= e1
  /\ M = rne N (D * 2 ^ (e1 - E))
  /\ N < D * 2 ^ (53 + e1 - E)
  /\ (e1 = -1074 \/ D * 2 ^ (53 + e1 - E - 1) <= N).

(** The last step of [binary_round_aux]: the rounded mantissa is shifted
    once more if it has grown to 54 bits, and an exponent out of range
    gives an infinity. *)
Definition encode (sx : bool) (M e : Z) : spec_float :=
  let '(mrs, e') := shr_fexp 53 1024 M e loc_Exact in
  match shr_m mrs with
  | Z0 => S754_zero sx
  | Zpos m =>
      if e' <=? 1024 - 53 then S754_finite sx m e' else S754_infinity sx
  | Zneg _ => S754_nan
  end.

(** The mantissa of 2.5 as a double: [5 * 2^50]. *)
Definition mant_2_5 : positive := 5629499534213120.

(** * Properties *)

(** ** Equations of the monads *)

Lemma bind_lift_ok {A B : Type} (a : A) (k : A -> M B) (w : world) :
  bind (lift (Ok a)) k w = k a w.
Proof. reflexivity. Qed.

Lemma bind_lift_raise {A B : Type} (e : exn) (k : A -> M B) (w : world) :
  bind (lift (@Raise A e)) k w = (w, Raise e).
Proof. reflexivity. Qed.

Lemma bind_print {B : Type} (o : output) (k : unit -> M B) (w : world) :
  bind (print o) k w = k tt (mkWorld (stdout w ++ [o]) (files w)).
Proof. reflexivity. Qed.

Lemma unit_class_eqb_refl (c : unit_class) : unit_class_eqb c c = true.
Proof. destruct c; reflexivity. Qed.

Lemma unit_eqb_refl (u : unit_t) : unit_eqb u u = true.
Proof.
  unfold unit_eqb.
  rewrite unit_class_eqb_refl, String.eqb_refl.
  reflexivity.
Qed.

Lemma quantity_to_same (env : Env) (x : F64.float) (u : unit_t) :
  quantity_to env (mkQuantity x u) u = Ok (mkQuantity x u).
Proof.
  unfold quantity_to; simpl.
  rewrite unit_eqb_refl.
  reflexivity.
Qed.

Lemma quantity_to_unit (env : Env) (x y : Quantity) (u : unit_t) :
  quantity_to env x u = Ok y -> q_unit y = u.
Proof.
  unfold quantity_to.
  destruct (unit_eqb (q_unit x) u).
  - intros H; inversion H; reflexivity.
  - destruct (unit_scale env (q_unit x) u); intros H; inversion H; reflexivity.
Qed.

(** ** The runtime model on small inputs *)

Example dirname_examples :
  OsPath.dirname "/tmp/mags.txt" = "/tmp"
  /\ OsPath.dirname "mags.txt" = ""
  /\ OsPath.dirname "/mags.txt" = "/"
  /\ OsPath.dirname "out/grid/" = "out/grid".
Proof. repeat split; reflexivity. Qed.

Example split_examples :
  Str.split Str.dot "out/mags.txt" = ["out/mags"; "txt"]
  /\ Str.split Str.dot "mags" = ["mags"]
  /\ Str.split Str.dot "./mags.txt" = [""; "/mags"; "txt"]
  /\ Str.endswith "mags.csv" ".csv" = true
  /\ Str.endswith "csv" ".csv" = false.
Proof. repeat split; reflexivity. Qed.

Example unpack2_examples :
  unpack2 (PTuple [PStr "J"; PStr "2MASS"]) = Ok (PStr "J", PStr "2MASS")
  /\ unpack2 (PStr "Ks") = Ok (PStr "K", PStr "s")
  /\ unpack2 (PStr "J") = Raise ValueError
  /\ unpack2 PNone = Raise TypeError.
Proof. repeat split; reflexivity. Qed.

Example float_examples :
  F64.mul F64.c2_5 (F64.of_Z 4) = F64.of_Z 10
  /\ F64.div (F64.of_Z 10) F64.cm2_5 = F64.of_Z (-4)
  /\ F64.div Demo.tiny F64.cm2_5 = S754_zero true
  /\ F64.mul F64.inf F64.zero = F64.nan
  /\ F64.ceil (F64.of_Z2 5 (-1)) = Some 3
  /\ F64.ceil (F64.of_Z2 (-5) (-1)) = Some (-2).
Proof. repeat split; vm_compute; reflexivity. Qed.

Example arange_examples :
  Np.arange_int 2000 2550 50 = Ok teff_values
  /\ Np.arange_float (F64.of_Z2 (-1) (-1)) F64.one (F64.of_Z2 1 (-1))
     = Ok feh_values
  /\ Np.arange_float (F64.of_Z2 9 (-1)) (F64.of_Z2 11 (-1)) (F64.of_Z2 1 (-1))
     = Ok logg_values
  /\ Np.arange_int 0 10 0 = Raise ZeroDivisionError
  /\ Np.arange_int 5 0 1 = Ok [].
Proof. repeat split; vm_compute; reflexivity. Qed.

Example pow10_examples :
  py_pow10 Demo.env (S754_zero true) = Ok F64.one
  /\ py_pow10 Demo.env F64.nan = Ok F64.nan
  /\ py_pow10 Demo.env (S754_infinity true) = Ok F64.zero
  /\ py_pow10 Demo.env (F64.of_Z 400) = Raise OverflowError
  /\ py_pow10 Demo.env (F64.of_Z (-400)) = Ok F64.zero.
Proof. repeat split; vm_compute; reflexivity. Qed.

Example vstack_examples :
  Table.vstack [] = Raise ValueError
  /\ Table.vstack [params_table Demo.point_1000; params_table Demo.point_2000]
     = Ok (Table.mk
             [("teff", [Some (NInt 1000); Some (NInt 2000)]);
              ("feh", [Some (NFloat F64.zero); Some (NFloat F64.zero)]);
              ("logg", [Some (NFloat (F64.of_Z 5)); Some (NFloat (F64.of_Z 5))])]).
Proof. split; vm_compute; reflexivity. Qed.

(** A full run: one point skipped, one kept, the table saved as CSV. *)
Example mag_table_saved :
  mag_table Demo.env (Some [Demo.point_1000; Demo.point_2000]) (PList [])
            "phoenix" (NInt 10) (Some "/tmp/mags.txt") Demo.w0
  = (mkWorld [OutCalculating; OutError Demo.point_1000;
              OutParams Demo.point_2000]
             [("/tmp/mags.csv", params_table Demo.point_2000)],
     Ok None).
Proof. reflexivity. Qed.

(** The same run with a path that has no directory part: the table is
    returned. *)
Example mag_table_returned :
  mag_table Demo.env (Some [Demo.point_1000; Demo.point_2000]) (PList [])
            "phoenix" (NInt 10) (Some "mags.txt") Demo.w0
  = (mkWorld [OutCalculating; OutError Demo.point_1000;
              OutParams Demo.point_2000] [],
     Ok (Some (params_table Demo.point_2000))).
Proof. reflexivity. Qed.

(** The default bandpasses are the table of filters, neither a list nor a
    tuple nor a directory name. *)
Example mag_table_default_bandpasses :
  mag_table Demo.env None (PObject "FILTERS") "phoenix" (NInt 10) None Demo.w0
  = (mkWorld [OutPleaseProvide] [], Ok None).
Proof. reflexivity. Qed.

(** ** The default grid *)

(** C6. When [spectra] is not given, the grid is the product of Teff in
    2000, 2050, ..., 2500, of [Fe/H] in -0.5, 0.0, 0.5 and of log g in
    4.5, 5.0, enumerated with Teff outermost, then [Fe/H], then log g. *)
Theorem default_grid_is_product :
  resolve_spectra None =
  Ok (flat_map
        (fun teff =>
           flat_map
             (fun feh =>
                map (fun logg => (NInt teff, NFloat feh, NFloat logg))
                    logg_values)
             feh_values)
        teff_values)
  /\ teff_values = map (fun k => 2000 + 50 * Z.of_nat k) (seq 0 11).
Proof.
  split; vm_compute; reflexivity.
Qed.

(** ** The [wave_units] setter *)

(** C7. Assigning a unit that does not convert to a length raises
    [TypeError] and leaves the bandpass as it was: the same wavelength
    array, effective wavelength and current unit. *)
Theorem set_wave_units_rejects_non_length
        (env : Env) (self : Bandpass) (u : unit_t)
        (Hnot : is_raise (unit_to env u um) = true) :
  set_wave_units env self (PUnit u) = (self, Raise TypeError).
Proof.
  unfold set_wave_units.
  destruct (accepted_unit_class (u_class u)); [ | reflexivity ].
  destruct (unit_to env u um); [ discriminate Hnot | reflexivity ].
Qed.

Lemma set_wave_units_rejects_non_length_witness :
  is_raise (unit_to Demo.env Demo.Jy um) = true
  /\ set_wave_units Demo.env Demo.bandpass_J (PUnit Demo.Jy)
     = (Demo.bandpass_J, Raise TypeError).
Proof.
  split.
  - reflexivity.
  - apply (set_wave_units_rejects_non_length Demo.env Demo.bandpass_J Demo.Jy).
    reflexivity.
Defined.

(** Anything that is not a unit object is refused in the same way. *)
Lemma set_wave_units_rejects_non_unit (env : Env) (self : Bandpass) (v : pyobj) :
  (forall u, v <> PUnit u) ->
  set_wave_units env self v = (self, Raise TypeError).
Proof.
  intros Hv.
  destruct v; try reflexivity.
  exfalso; apply (Hv u); reflexivity.
Qed.

(** An irreducible unit such as the meter fails the class test although it
    is a length. *)
Lemma set_wave_units_meter :
  unit_to Demo.env Demo.meter um = Ok (Demo.pow10_Z 6)
  /\ set_wave_units Demo.env Demo.bandpass_J (PUnit Demo.meter)
     = (Demo.bandpass_J, Raise TypeError).
Proof. split; reflexivity. Qed.

(** ** Changing the unit and changing it back *)





(** ** The loop over the grid *)

(** C9. The loop over a grid whose catalog lookups succeed runs to its
    end, as [mag_table] starts it (with a list of bandpasses that can only
    be empty).  It prints exactly one line per grid point, in the order of
    the grid: [Error: (teff, feh, logg)] for a point whose renormalization
    fails, the triple itself for any other point.  It adds to the tables it
    started with exactly the one-row tables of the points that did not
    fail, in the order of the grid, and writes no file.  So a point whose
    renormalization fails gets its diagnostic and no table, and the points
    after it are processed like the points before it. *)
Theorem spectra_loop_skips_failed
        (env : Env) (models : string) (jmag : pynum) (jband : Spectrum)
        (spectra : list triple) (tables : list Table.t) (w : world)
        (Hlookup : forallb (fun t => negb (is_raise (Icat env models t)))
                           spectra = true) :
  spectra_loop env models jmag jband [] spectra tables w
  = (mkWorld (stdout w ++ map (grid_line env models jmag jband) spectra)
             (files w),
     Ok (tables ++ map params_table
                       (kept_points env models jmag jband spectra)))%list
  /\ forall (t : triple) (sp : Spectrum) (e : exn),
      In t spectra ->
      Icat env models t = Ok sp ->
      renorm env sp jmag jband = Raise e ->
      grid_line env models jmag jband t = OutError t
      /\ In (OutError t) (map (grid_line env models jmag jband) spectra)
      /\ ~ In t (kept_points env models jmag jband spectra).
Proof.
  split.
  - revert tables w Hlookup.
    induction spectra as [ | t rest IH ]; intros tables w Hlookup.
    + simpl. rewrite !app_nil_r. destruct w; reflexivity.
    + simpl in Hlookup. apply andb_prop in Hlookup.
      destruct Hlookup as [ Ht Hrest ].
      unfold kept_points, grid_line in *. simpl filter. simpl map.
      unfold renorm_fails at 1 3.
      simpl spectra_loop.
      destruct (Icat env models t) as [ sp | e ] eqn:HIcat;
        [ | discriminate Ht ].
      rewrite bind_lift_ok.
      destruct (renorm env sp jmag jband) as [ sp' | e ] eqn:Hrenorm.
      * rewrite bind_print. simpl bandpass_loop.
        rewrite bind_lift_ok, (IH _ _ Hrest). simpl.
        rewrite <- !app_assoc. reflexivity.
      * rewrite bind_print, (IH _ _ Hrest). simpl.
        rewrite <- !app_assoc. reflexivity.
  - intros t sp e Hin HIcat Hrenorm.
    assert (Hfails : renorm_fails env models jmag jband t = true).
    { unfold renorm_fails. rewrite HIcat, Hrenorm. reflexivity. }
    assert (Hline : grid_line env models jmag jband t = OutError t).
    { unfold grid_line. rewrite Hfails. reflexivity. }
    split; [ exact Hline | split ].
    + rewrite <- Hline. apply in_map. exact Hin.
    + unfold kept_points. intros Hkept.
      apply filter_In in Hkept. destruct Hkept as [ _ Hkept ].
      rewrite Hfails in Hkept. discriminate Hkept.
Qed.

Lemma spectra_loop_skips_failed_witness :
  spectra_loop Demo.env "phoenix" (NInt 10) Demo.jband []
               [Demo.point_1000; Demo.point_2000; Demo.point_1000] []
               Demo.w0
  = (mkWorld (stdout Demo.w0
                ++ map (grid_line Demo.env "phoenix" (NInt 10) Demo.jband)
                       [Demo.point_1000; Demo.point_2000; Demo.point_1000])
             (files Demo.w0),
     Ok ([] ++ map params_table
                   (kept_points Demo.env "phoenix" (NInt 10) Demo.jband
                                [Demo.point_1000; Demo.point_2000;
                                 Demo.point_1000])))%list
  /\ forall (t : triple) (sp : Spectrum) (e : exn),
      In t [Demo.point_1000; Demo.point_2000; Demo.point_1000] ->
      Icat Demo.env "phoenix" t = Ok sp ->
      renorm Demo.env sp (NInt 10) Demo.jband = Raise e ->
      grid_line Demo.env "phoenix" (NInt 10) Demo.jband t = OutError t
      /\ In (OutError t)
            (map (grid_line Demo.env "phoenix" (NInt 10) Demo.jband)
                 [Demo.point_1000; Demo.point_2000; Demo.point_1000])
      /\ ~ In t (kept_points Demo.env "phoenix" (NInt 10) Demo.jband
                             [Demo.point_1000; Demo.point_2000;
                              Demo.point_1000]).
Proof.
  apply (spectra_loop_skips_failed
           Demo.env "phoenix" (NInt 10) Demo.jband
           [Demo.point_1000; Demo.point_2000; Demo.point_1000] [] Demo.w0).
  reflexivity.
Defined.

(** On the grid of the witness the renormalization fails for the first and
    the last point: two diagnostics are printed, around the line of the
    point in the middle, and the only table is that of the point in the
    middle. *)
Example spectra_loop_skips_failed_example :
  spectra_loop Demo.env "phoenix" (NInt 10) Demo.jband []
               [Demo.point_1000; Demo.point_2000; Demo.point_1000] []
               Demo.w0
  = (mkWorld [OutError Demo.point_1000; OutParams Demo.point_2000;
              OutError Demo.point_1000] [],
     Ok [params_table Demo.point_2000]).
Proof. reflexivity. Qed.

(** A successful point adds exactly its own table. *)
Lemma spectra_loop_keeps_succeeded
      (env : Env) (models : string) (jmag : pynum) (jband : Spectrum)
      (bps : list Bandpass) (t : triple) (rest : list triple)
      (tables : list Table.t) (sp sp' : Spectrum) (row : Table.t) (w : world) :
  Icat env models t = Ok sp ->
  renorm env sp jmag jband = Ok sp' ->
  bandpass_loop sp' bps (params_table t) = Ok row ->
  spectra_loop env models jmag jband bps (t :: rest) tables w =
  spectra_loop env models jmag jband bps rest (tables ++ [row])
               (mkWorld (stdout w ++ [OutParams t]) (files w)).
Proof.
  intros HIcat Hrenorm Hrow.
  simpl.
  rewrite HIcat, bind_lift_ok, Hrenorm, bind_print, Hrow, bind_lift_ok.
  reflexivity.
Qed.

(** The loop never touches the files. *)
Lemma spectra_loop_files
      (env : Env) (models : string) (jmag : pynum) (jband : Spectrum)
      (bps : list Bandpass) (spectra : list triple) :
  forall tables w,
    files (fst (spectra_loop env models jmag jband bps spectra tables w))
    = files w.
Proof.
  induction spectra as [ | t rest IH ]; intros tables w.
  - reflexivity.
  - simpl. unfold bind at 1, lift at 1.
    destruct (Icat env models t) as [ sp | e ]; [ | reflexivity ].
    destruct (renorm env sp jmag jband) as [ sp' | e ].
    + rewrite bind_print.
      destruct (bandpass_loop sp' bps (params_table t)) as [ row | e ].
      * rewrite bind_lift_ok, IH. reflexivity.
      * reflexivity.
    + rewrite bind_print, IH. reflexivity.
Qed.

(** When every point fails normalization, the loop prints one diagnostic
    per point and ends with the tables it started with. *)
Lemma spectra_loop_all_failed
      (env : Env) (models : string) (jmag : pynum) (jband : Spectrum)
      (bps : list Bandpass) (spectra : list triple) :
  forallb (renorm_fails env models jmag jband) spectra = true ->
  forall tables w,
    spectra_loop env models jmag jband bps spectra tables w
    = (mkWorld (stdout w ++ map OutError spectra) (files w), Ok tables).
Proof.
  induction spectra as [ | t rest IH ]; intros Hall tables w.
  - simpl. rewrite app_nil_r. destruct w; reflexivity.
  - simpl in Hall. apply andb_prop in Hall. destruct Hall as [ Ht Hrest ].
    unfold renorm_fails in Ht.
    destruct (Icat env models t) as [ sp | e ] eqn:HIcat; [ | discriminate Ht ].
    destruct (renorm env sp jmag jband) as [ sp' | e ] eqn:Hrenorm;
      [ discriminate Ht | ].
    simpl spectra_loop.
    rewrite HIcat, bind_lift_ok, Hrenorm, bind_print, (IH Hrest).
    simpl. rewrite <- app_assoc. reflexivity.
Qed.

(** When the loop completes, it has added one table per point that did not
    fail normalization, and none for the others. *)
Lemma spectra_loop_row_count
      (env : Env) (models : string) (jmag : pynum) (jband : Spectrum)
      (bps : list Bandpass) (spectra : list triple) :
  forall tables w w' out,
    spectra_loop env models jmag jband bps spectra tables w = (w', Ok out) ->
    List.length out
    = (List.length tables
       + List.length
           (filter (fun t => negb (renorm_fails env models jmag jband t))
                   spectra))%nat.
Proof.
  induction spectra as [ | t rest IH ]; intros tables w w' out Hrun.
  - simpl in Hrun. inversion Hrun; subst. simpl. lia.
  - simpl in Hrun. unfold bind at 1, lift at 1 in Hrun.
    simpl filter. unfold renorm_fails at 1.
    destruct (Icat env models t) as [ sp | e ]; [ | discriminate Hrun ].
    destruct (renorm env sp jmag jband) as [ sp' | e ].
    + rewrite bind_print in Hrun.
      destruct (bandpass_loop sp' bps (params_table t)) as [ row | e ].
      * rewrite bind_lift_ok in Hrun.
        apply IH in Hrun. rewrite Hrun, length_app. simpl. lia.
      * discriminate Hrun.
    + rewrite bind_print in Hrun.
      apply IH in Hrun. rewrite Hrun. simpl. lia.
Qed.

(** ** mag2flux *)

(** C10. Only a float is wrapped into a (value, NaN) pair.  An integer is
    left as it is, so that once the zero point is converted the subscript
    [mag[0]] raises [TypeError]: no flux is returned for a plain integer. *)
Theorem mag2flux_wraps_floats_only
        (env : Env) (bp : Bandpass) (units : unit_t) :
  (forall x : F64.float,
      mag2flux env (PFloat x) bp units
      = mag2flux env (PTuple [PFloat x; PFloat F64.nan]) bp units)
  /\ (forall n : Z,
         mag2flux env (PInt n) bp units
         = (zu <- parse_unit env (ZeroPointUnit (svo bp)) ;;
            zp <- quantity_to env (mkQuantity (ZeroPoint (svo bp)) zu) units ;;
            Raise TypeError)%res)
  /\ (forall n : Z, flux_of (mag2flux env (PInt n) bp units) = None).
Proof.
  repeat split; intros; try reflexivity.
  unfold mag2flux.
  destruct (parse_unit env (ZeroPointUnit (svo bp))) as [ zu | e ];
    [ | reflexivity ].
  simpl.
  destruct (quantity_to env _ units); reflexivity.
Qed.

Lemma mul_nan_r (x : F64.float) : F64.mul x F64.nan = F64.nan.
Proof. destruct x; reflexivity. Qed.

Lemma mul_zero_r (x : F64.float) (s : bool) :
  F64.mul x (S754_zero s)
  = if F64.is_finite x then S754_zero (xorb (F64.signbit x) s) else F64.nan.
Proof. destruct x; reflexivity. Qed.

(** C4, as the code has it.  Whenever the zero point converts and the
    power does not overflow, a bare float magnitude gives a flux with
    uncertainty NaN; a pair whose uncertainty is a zero gives uncertainty
    zero when the flux is finite, and NaN when the flux is infinite or
    NaN. *)
Theorem mag2flux_uncertainty
        (env : Env) (bp : Bandpass) (units : unit_t) (m : F64.float)
        (zu : unit_t) (zp : Quantity) (fv : F64.float)
        (Hparse : parse_unit env (ZeroPointUnit (svo bp)) = Ok zu)
        (Hzp : quantity_to env (mkQuantity (ZeroPoint (svo bp)) zu) units
               = Ok zp)
        (Hflux : flux_value (Float64 env) (q_value zp) m = Ok fv) :
  mag2flux env (PFloat m) bp units
  = Ok (mkQuantity fv units, mkQuantity F64.nan units)
  /\ (forall s : bool,
         mag2flux env (PTuple [PFloat m; PFloat (S754_zero s)]) bp units
         = Ok (mkQuantity fv units,
               mkQuantity (if F64.is_finite fv
                           then S754_zero (xorb (F64.signbit fv) s)
                           else F64.nan) units)).
Proof.
  pose proof (quantity_to_unit _ _ _ _ Hzp) as Hunit.
  split; [ | intros s ];
    unfold mag2flux; rewrite Hparse; simpl; rewrite Hzp; simpl;
    rewrite Hflux; simpl; rewrite Hunit, quantity_to_same; simpl;
    unfold q_div, q_mul; simpl; rewrite quantity_to_same.
  - rewrite mul_nan_r. reflexivity.
  - rewrite mul_zero_r.
    destruct (F64.is_finite fv); [ | reflexivity ].
    simpl. rewrite !xorb_false_r. reflexivity.
Qed.

Lemma mag2flux_uncertainty_witness :
  mag2flux Demo.env (PFloat (F64.of_Z 10)) Demo.bandpass_J Demo.flam
  = Ok (mkQuantity (S754_finite false 4958098410142663 (-97)) Demo.flam,
        mkQuantity F64.nan Demo.flam)
  /\ (forall s : bool,
         mag2flux Demo.env (PTuple [PFloat (F64.of_Z 10); PFloat (S754_zero s)])
                  Demo.bandpass_J Demo.flam
         = Ok (mkQuantity (S754_finite false 4958098410142663 (-97)) Demo.flam,
               mkQuantity (S754_zero s) Demo.flam)).
Proof.
  apply (mag2flux_uncertainty
           Demo.env Demo.bandpass_J Demo.flam (F64.of_Z 10) Demo.flam
           (mkQuantity (ZeroPoint Demo.filter_J) Demo.flam)
           (S754_finite false 4958098410142663 (-97))).
  - reflexivity.
  - reflexivity.
  - vm_compute. reflexivity.
Defined.

(** C4 as stated fails twice: a bare integer gets no flux at all, and a
    NaN magnitude with uncertainty 0.0 gets uncertainty NaN. *)
Lemma mag2flux_zero_uncertainty_not_zero :
  mag2flux Demo.env (PInt 10) Demo.bandpass_J Demo.flam = Raise TypeError
  /\ mag2flux Demo.env (PTuple [PFloat F64.nan; PFloat F64.zero])
              Demo.bandpass_J Demo.flam
     = Ok (mkQuantity F64.nan Demo.flam, mkQuantity F64.nan Demo.flam).
Proof. split; vm_compute; reflexivity. Qed.

(** C5 as stated fails in binary64: the magnitudes 0.0 and 5e-324 are
    different, both quotients by -2.5 are -0.0, and both fluxes are the
    zero point itself. *)
Lemma mag2flux_not_strictly_antitone :
  F64.ltb F64.zero Demo.tiny = true
  /\ flux_of (mag2flux Demo.env (PFloat F64.zero) Demo.bandpass_J Demo.flam)
     = Some (ZeroPoint Demo.filter_J)
  /\ flux_of (mag2flux Demo.env (PFloat Demo.tiny) Demo.bandpass_J Demo.flam)
     = Some (ZeroPoint Demo.filter_J)
  /\ F64.ltb (ZeroPoint Demo.filter_J) (ZeroPoint Demo.filter_J) = false.
Proof. repeat split; vm_compute; reflexivity. Qed.

(** ** Rounding is monotone *)

(** The quotient by -2.5 and the product with a positive finite double are
    computed exactly and rounded once, to the nearest double, ties to even.
    The lemmas below follow [binary_round_aux] through its shifts and show
    that the rounded result, read as a multiple of [2^-1074], is monotone
    in the exact value; [SFcompare] on doubles in canonical form is the
    order of these multiples. *)

Lemma pow2_pos (k : Z) : 0 <= k -> 0 < 2 ^ k.
Proof. intros H. apply Z.pow_pos_nonneg; lia. Qed.

Lemma pow2_add (a b : Z) : 0 <= a -> 0 <= b -> 2 ^ (a + b) = 2 ^ a * 2 ^ b.
Proof. intros Ha Hb. apply Z.pow_add_r; assumption. Qed.

Lemma pow2_le (a b : Z) : 0 <= a <= b -> 2 ^ a <= 2 ^ b.
Proof. intros H. apply Z.pow_le_mono_r; lia. Qed.

Lemma pow2_lt (a b : Z) : 0 <= a < b -> 2 ^ a < 2 ^ b.
Proof. intros H. apply Z.pow_lt_mono_r; lia. Qed.

Lemma digits2_pos_bounds (p : positive) :
  2 ^ (Zpos (digits2_pos p) - 1) <= Zpos p < 2 ^ (Zpos (digits2_pos p)).
Proof.
  induction p as [ p IH | p IH | ]; simpl digits2_pos.
  - rewrite Pos2Z.inj_succ.
    replace (Z.succ (Zpos (digits2_pos p)) - 1) with (Z.succ (Zpos (digits2_pos p) - 1)) by lia.
    rewrite !Z.pow_succ_r by lia. lia.
  - rewrite Pos2Z.inj_succ.
    replace (Z.succ (Zpos (digits2_pos p)) - 1) with (Z.succ (Zpos (digits2_pos p) - 1)) by lia.
    rewrite !Z.pow_succ_r by lia. lia.
  - simpl. lia.
Qed.

Lemma Zdigits2_bounds (m : Z) :
  0 < m -> 0 < Zdigits2 m /\ 2 ^ (Zdigits2 m - 1) <= m < 2 ^ (Zdigits2 m).
Proof.
  destruct m as [ | p | p ]; try lia. intros _. simpl.
  split; [ lia | apply digits2_pos_bounds ].
Qed.

Lemma Zdigits2_unique (m d : Z) :
  0 < m -> 2 ^ (d - 1) <= m < 2 ^ d -> Zdigits2 m = d.
Proof.
  intros Hm [ Hlo Hhi ].
  destruct (Zdigits2_bounds m Hm) as [ Hd [ Hlo' Hhi' ] ].
  assert (0 < d).
  { destruct (Z_lt_le_dec 0 d) as [ H | H ]; [ exact H | ].
    assert (2 ^ d <= 2 ^ 0) by (destruct (Z_lt_le_dec d 0);
      [ rewrite Z.pow_neg_r by lia; simpl; lia | apply pow2_le; lia ]).
    simpl in *. lia. }
  destruct (Z_lt_le_dec (Zdigits2 m) d) as [ Hlt | Hge ].
  - assert (2 ^ (Zdigits2 m) <= 2 ^ (d - 1)) by (apply pow2_le; lia). lia.
  - destruct (Z_lt_le_dec d (Zdigits2 m)) as [ Hlt | Hle ]; [ | lia ].
    assert (2 ^ d <= 2 ^ (Zdigits2 m - 1)) by (apply pow2_le; lia). lia.
Qed.

Lemma rne_bounds (N D : Z) :
  0 < D -> 2 * (D * rne N D) - D <= 2 * N <= 2 * (D * rne N D) + D.
Proof.
  intros HD. unfold rne.
  pose proof (Z.div_mod N D ltac:(lia)) as Hdm.
  pose proof (Z.mod_pos_bound N D HD) as Hb.
  destruct (Z.compare_spec (2 * (N mod D)) D) as [ H | H | H ].
  - destruct (Z.even (N / D)); nia.
  - nia.
  - nia.
Qed.

Lemma rne_exact (q D : Z) : 0 < D -> rne (q * D) D = q.
Proof.
  intros HD. unfold rne.
  rewrite Z.mod_mul, Z.div_mul by lia.
  destruct (Z.compare_spec (2 * 0) D); lia.
Qed.

Lemma rne_scale (N D c : Z) : 0 < D -> 0 < c -> rne (N * c) (D * c) = rne N D.
Proof.
  intros HD Hc. unfold rne.
  rewrite Z.div_mul_cancel_r by lia.
  rewrite Zmult_mod_distr_r.
  replace (2 * (N mod D * c)) with ((2 * (N mod D)) * c) by ring.
  rewrite <- (Zmult_compare_compat_r (2 * (N mod D)) D c) by lia.
  reflexivity.
Qed.

Lemma rne_mono (N N' D : Z) : 0 < D -> N <= N' -> rne N D <= rne N' D.
Proof.
  intros HD Hle.
  destruct (Z.eq_dec (N / D) (N' / D)) as [ Heq | Hne ].
  - unfold rne. rewrite <- Heq.
    pose proof (Z.div_mod N D ltac:(lia)) as Hdm.
    pose proof (Z.div_mod N' D ltac:(lia)) as Hdm'.
    rewrite <- Heq in Hdm'.
    assert (N mod D <= N' mod D) by lia.
    destruct (Z.compare_spec (2 * (N mod D)) D),
             (Z.compare_spec (2 * (N' mod D)) D),
             (Z.even (N / D)); lia.
  - assert (Hq : N / D <= N' / D) by (apply Z.div_le_mono; lia).
    assert (Hlt : N / D + 1 <= N' / D) by lia.
    assert (H1 : rne N D <= N / D + 1).
    { unfold rne. destruct (Z.compare_spec (2 * (N mod D)) D),
                           (Z.even (N / D)); lia. }
    assert (H2 : N' / D <= rne N' D).
    { unfold rne. destruct (Z.compare_spec (2 * (N' mod D)) D),
                           (Z.even (N' / D)); lia. }
    lia.
Qed.

Lemma rne_le (N D N' D' : Z) :
  0 < D -> 0 < D' -> N * D' <= N' * D -> rne N D <= rne N' D'.
Proof.
  intros HD HD' Hle.
  rewrite <- (rne_scale N D D') by lia.
  rewrite <- (rne_scale N' D' D) by lia.
  replace (D' * D) with (D * D') by ring.
  apply rne_mono; nia.
Qed.

Lemma rne_nonneg (N D : Z) : 0 < D -> 0 <= N -> 0 <= rne N D.
Proof.
  intros HD HN.
  rewrite <- (rne_exact 0 D HD). apply rne_mono; lia.
Qed.

Lemma Represents_facts (mrs : shr_record) (N D : Z) :
  Represents mrs N D ->
  shr_m mrs = N / D
  /\ 2 * (N mod D) = D * Z.b2z (shr_r mrs) + (2 * N) mod D.
Proof.
  intros (HD & HN & Hm & Hs).
  pose proof (Z.div_mod (2 * N) D ltac:(lia)) as Hdm.
  pose proof (Z.mod_pos_bound (2 * N) D HD) as Hb.
  assert (Hq : shr_m mrs = N / D).
  { apply (Z.div_unique N D (shr_m mrs) (N - D * shr_m mrs)); [ | lia ].
    left. rewrite <- Hm in Hdm. destruct (shr_r mrs); cbn [Z.b2z] in *; nia. }
  split; [ exact Hq | ].
  pose proof (Z.div_mod N D ltac:(lia)) as Hdm'.
  rewrite <- Hq in Hdm'. rewrite <- Hm in Hdm. nia.
Qed.

Lemma Represents_round (mrs : shr_record) (N D : Z) :
  Represents mrs N D ->
  round_nearest_even (shr_m mrs) (loc_of_shr_record mrs) = rne N D.
Proof.
  intros HR. destruct (Represents_facts mrs N D HR) as [ Hq Hrem ].
  destruct HR as (HD & HN & Hm & Hs).
  pose proof (Z.mod_pos_bound (2 * N) D HD) as Hb.
  unfold rne. rewrite <- Hq.
  destruct mrs as [ m r s ]; cbn [shr_m shr_r shr_s] in *.
  destruct r, s; cbn [Z.b2z loc_of_shr_record round_nearest_even negb] in *;
    destruct (Z.eqb_spec ((2 * N) mod D) 0); try discriminate Hs;
    destruct (Z.compare_spec (2 * (N mod D)) D); try lia; reflexivity.
Qed.

Lemma Represents_shr_1 (mrs : shr_record) (N D : Z) :
  Represents mrs N D -> Represents (shr_1 mrs) N (2 * D).
Proof.
  intros HR. destruct (Represents_facts mrs N D HR) as [ Hq Hrem ].
  destruct HR as (HD & HN & Hm & Hs).
  pose proof (Z.mod_pos_bound (2 * N) D HD) as Hb.
  assert (Hm0 : 0 <= shr_m mrs).
  { rewrite Hq. apply Z.div_pos; lia. }
  assert (Hdiv : (2 * N) / (2 * D) = shr_m mrs).
  { rewrite Z.div_mul_cancel_l by lia. symmetry. exact Hq. }
  assert (Hmod : (2 * N) mod (2 * D) = 2 * (N mod D)).
  { rewrite Zmult_mod_distr_l. reflexivity. }
  unfold Represents. rewrite Hdiv, Hmod.
  split; [ lia | split; [ exact HN | ] ].
  destruct mrs as [ m r s ]; cbn [shr_m shr_r shr_s] in *.
  destruct m as [ | [ p | p | ] | p ]; try lia;
    cbn [shr_1 shr_m shr_r shr_s Z.b2z];
    (split; [ lia | ]);
    destruct r, s; cbn [Z.b2z orb negb] in *;
    destruct (Z.eqb_spec ((2 * N) mod D) 0); try discriminate Hs;
    destruct (Z.eqb_spec (2 * (N mod D)) 0); try reflexivity; lia.
Qed.

Lemma Represents_iter (p : positive) :
  forall (mrs : shr_record) (N D : Z),
    Represents mrs N D -> Represents (iter_pos shr_1 p mrs) N (D * 2 ^ Zpos p).
Proof.
  induction p as [ p IH | p IH | ]; intros mrs N D HR; simpl iter_pos.
  - apply Represents_shr_1 in HR. apply IH in HR. apply IH in HR.
    replace (D * 2 ^ Zpos p~1) with (2 * D * 2 ^ Zpos p * 2 ^ Zpos p);
      [ exact HR | ].
    replace (Zpos p~1) with (Zpos p + Zpos p + 1) by lia.
    rewrite !Z.pow_add_r by lia. change (2 ^ 1) with 2. ring.
  - apply IH in HR. apply IH in HR.
    replace (D * 2 ^ Zpos p~0) with (D * 2 ^ Zpos p * 2 ^ Zpos p);
      [ exact HR | ].
    replace (Zpos p~0) with (Zpos p + Zpos p) by lia.
    rewrite !Z.pow_add_r by lia. ring.
  - apply Represents_shr_1 in HR.
    replace (D * 2 ^ 1) with (2 * D) by (change (2 ^ 1) with 2; ring).
    exact HR.
Qed.

Lemma Represents_shr (mrs : shr_record) (e n N D : Z) :
  Represents mrs N D -> 0 <= n ->
  Represents (fst (shr mrs e n)) N (D * 2 ^ n) /\ snd (shr mrs e n) = e + n.
Proof.
  intros HR Hn. destruct n as [ | p | p ]; try lia; simpl.
  - rewrite Z.mul_1_r, Z.add_0_r. split; [ exact HR | reflexivity ].
  - split; [ apply Represents_iter; exact HR | reflexivity ].
Qed.

Lemma Represents_exact (m : Z) : 0 <= m -> Represents (shr_record_of_loc m loc_Exact) m 1.
Proof.
  intros Hm. unfold Represents; simpl.
  rewrite Z.div_1_r, Z.mod_1_r. simpl. repeat split; lia.
Qed.

Lemma fexp64 (e : Z) : fexp 53 1024 e = Z.max (e - 53) (-1074).
Proof. reflexivity. Qed.

Lemma rank_inf_pos : 0 < rank_inf.
Proof. unfold rank_inf. apply pow2_pos. lia. Qed.

Lemma RoundsTo_lower (N D E M e1 E' : Z) :
  RoundsTo N D E M e1 -> E' <= E -> RoundsTo (N * 2 ^ (E - E')) D E' M e1.
Proof.
  intros (HD & HN & He & HE & HM & Hhi & Hlo) HE'.
  assert (Hc : 0 < 2 ^ (E - E')) by (apply pow2_pos; lia).
  assert (H1 : 2 ^ (e1 - E') = 2 ^ (e1 - E) * 2 ^ (E - E')).
  { rewrite <- pow2_add by lia. f_equal. lia. }
  assert (H2 : 2 ^ (53 + e1 - E') = 2 ^ (53 + e1 - E) * 2 ^ (E - E')).
  { rewrite <- pow2_add by lia. f_equal. lia. }
  unfold RoundsTo.
  split; [ exact HD | ]. split; [ nia | ]. split; [ exact He | ].
  split; [ lia | ]. split; [ | split ].
  - rewrite H1, Z.mul_assoc, rne_scale; [ exact HM | | exact Hc ].
    apply Z.mul_pos_pos; [ exact HD | apply pow2_pos; lia ].
  - rewrite H2. nia.
  - destruct Hlo as [ Hlo | Hlo ]; [ left; exact Hlo | right ].
    assert (H3 : 2 ^ (53 + e1 - E' - 1)
                 = 2 ^ (53 + e1 - E - 1) * 2 ^ (E - E')).
    { rewrite <- pow2_add by lia. f_equal. lia. }
    rewrite H3. nia.
Qed.

Lemma RoundsTo_bounds (N D E M e1 : Z) :
  RoundsTo N D E M e1 ->
  0 <= M <= 2 ^ 53 /\ (e1 = -1074 \/ 2 ^ 52 <= M).
Proof.
  intros (HD & HN & He & HE & HM & Hhi & Hlo).
  assert (Hp : 0 < 2 ^ (e1 - E)) by (apply pow2_pos; lia).
  assert (HD' : 0 < D * 2 ^ (e1 - E)) by (apply Z.mul_pos_pos; assumption).
  assert (H53 : 2 ^ (53 + e1 - E) = 2 ^ 53 * 2 ^ (e1 - E)).
  { rewrite <- pow2_add by lia. f_equal. lia. }
  split; [ split | ].
  - subst M. apply rne_nonneg; assumption.
  - subst M. rewrite <- (rne_exact (2 ^ 53) (D * 2 ^ (e1 - E)) HD').
    apply rne_mono; [ exact HD' | ]. rewrite H53 in Hhi. nia.
  - destruct Hlo as [ Hlo | Hlo ]; [ left; exact Hlo | right ].
    assert (H52 : 2 ^ (53 + e1 - E - 1) = 2 ^ 52 * 2 ^ (e1 - E)).
    { rewrite <- pow2_add by lia. f_equal. lia. }
    subst M. rewrite <- (rne_exact (2 ^ 52) (D * 2 ^ (e1 - E)) HD').
    apply rne_mono; [ exact HD' | ]. rewrite H52 in Hlo. nia.
Qed.

Lemma RoundsTo_mono (N D E M e1 N' D' M' e1' : Z) :
  RoundsTo N D E M e1 -> RoundsTo N' D' E M' e1' ->
  N * D' <= N' * D ->
  M * 2 ^ (e1 + 1074) <= M' * 2 ^ (e1' + 1074).
Proof.
  intros HR HR' Hle.
  destruct (RoundsTo_bounds _ _ _ _ _ HR) as [ [ HM0 HM1 ] HMlo ].
  destruct (RoundsTo_bounds _ _ _ _ _ HR') as [ [ HM0' HM1' ] HMlo' ].
  destruct HR as (HD & HN & He & HE & HM & Hhi & Hlo).
  destruct HR' as (HD' & HN' & He' & HE' & HM' & Hhi' & Hlo').
  destruct (Z_lt_le_dec e1' e1) as [ Hgt | Hle1 ].
  - (* impossible *)
    exfalso.
    destruct Hlo as [ Hlo | Hlo ]; [ lia | ].
    assert (2 ^ (53 + e1' - E) <= 2 ^ (53 + e1 - E - 1)) by (apply pow2_le; lia).
    assert (0 < 2 ^ (53 + e1' - E)) by (apply pow2_pos; lia).
    nia.
  - destruct (Z.eq_dec e1 e1') as [ Heq | Hne ].
    + subst e1'.
      assert (Hp : 0 < 2 ^ (e1 - E)) by (apply pow2_pos; lia).
      assert (M <= M').
      { subst M M'. apply rne_le; try (apply Z.mul_pos_pos; assumption).
        nia. }
      assert (0 < 2 ^ (e1 + 1074)) by (apply pow2_pos; lia).
      nia.
    + destruct HMlo' as [ Hc | HMlo' ]; [ lia | ].
      assert (H1 : 2 ^ (e1' + 1074) = 2 ^ (e1' - e1 - 1) * (2 * 2 ^ (e1 + 1074))).
      { replace (2 * 2 ^ (e1 + 1074)) with (2 ^ (1 + (e1 + 1074)))
          by (rewrite pow2_add by lia; reflexivity).
        rewrite <- pow2_add by lia. f_equal. lia. }
      assert (0 < 2 ^ (e1' - e1 - 1)) by (apply pow2_pos; lia).
      assert (0 < 2 ^ (e1 + 1074)) by (apply pow2_pos; lia).
      rewrite H1.
      assert (H53 : 2 ^ 53 = 2 * 2 ^ 52) by reflexivity.
      nia.
Qed.

Lemma shr_nonpos (mrs : shr_record) (e n : Z) : n <= 0 -> shr mrs e n = (mrs, e).
Proof. destruct n; try reflexivity. lia. Qed.

Lemma Zdigits2_le53 (M : Z) : 0 < M < 2 ^ 53 -> 0 < Zdigits2 M <= 53.
Proof.
  intros [ H0 H1 ].
  destruct (Zdigits2_bounds M H0) as [ Hd [ Hlo Hhi ] ].
  split; [ exact Hd | ].
  destruct (Z_lt_le_dec 53 (Zdigits2 M)) as [ Hgt | Hle ]; [ | exact Hle ].
  assert (2 ^ 53 <= 2 ^ (Zdigits2 M - 1)) by (apply pow2_le; lia). lia.
Qed.

Lemma encode_spec (sx : bool) (M e : Z) :
  0 <= M <= 2 ^ 53 -> -1074 <= e -> (e = -1074 \/ 2 ^ 52 <= M) ->
  regular (encode sx M e)
  /\ F64.signbit (encode sx M e) = sx
  /\ rank (encode sx M e) = Z.min (M * 2 ^ (e + 1074)) rank_inf.
Proof.
  intros [ HM0 HM1 ] He Hlo.
  assert (Hpe : 0 < 2 ^ (e + 1074)) by (apply pow2_pos; lia).
  destruct (Z.eq_dec M 0) as [ -> | Hnz ].
  { unfold encode, shr_fexp. cbn [Zdigits2].
    rewrite shr_nonpos by (rewrite fexp64; lia).
    cbn. pose proof rank_inf_pos. repeat split; lia. }
  destruct (Z.eq_dec M (2 ^ 53)) as [ -> | Hne ].
  { unfold encode, shr_fexp.
    change (Zdigits2 (2 ^ 53)) with 54.
    replace (fexp 53 1024 (54 + e) - e) with 1 by (rewrite fexp64; lia).
    cbn [shr shr_record_of_loc iter_pos].
    change (shr_1 {| shr_m := 2 ^ 53; shr_r := false; shr_s := false |})
      with {| shr_m := 2 ^ 52; shr_r := false; shr_s := false |}.
    cbn [shr_m]. change (2 ^ 52) with (Zpos (2 ^ 52)).
    change (1024 - 53) with 971.
    assert (Hpe1 : 2 ^ (e + 1 + 1074) = 2 * 2 ^ (e + 1074)).
    { replace (e + 1 + 1074) with (1 + (e + 1074)) by lia.
      rewrite pow2_add by lia. reflexivity. }
    destruct (Z.leb_spec (e + 1) 971) as [ Hfin | Hinf ];
      cbn [regular F64.signbit rank].
    - split; [ | split; [ reflexivity | ] ].
      + unfold canon. split; [ lia | ]. split; [ reflexivity | right; lia ].
      + rewrite Hpe1.
        assert (2 ^ (e + 1074) <= 2 ^ 2044) by (apply pow2_le; lia).
        assert (HOV : rank_inf = 2 ^ 54 * 2 ^ 2044) by reflexivity.
        change (Zpos (2 ^ 52)) with (2 ^ 52).
        change (2 ^ 53) with (2 * 2 ^ 52).
        rewrite Z.min_l; [ ring | ]. rewrite HOV.
        change (2 ^ 54) with (4 * 2 ^ 52). nia.
    - split; [ exact I | split; [ reflexivity | ] ].
      assert (2 ^ 2045 <= 2 ^ (e + 1074)) by (apply pow2_le; lia).
      assert (HOV : rank_inf = 2 ^ 53 * 2 ^ 2045) by reflexivity.
      rewrite Z.min_r; [ reflexivity | ]. rewrite HOV. nia. }
  destruct (Zdigits2_le53 M ltac:(lia)) as [ Hd0 Hd1 ].
  unfold encode, shr_fexp.
  rewrite shr_nonpos by (rewrite fexp64; lia).
  cbn [shr_record_of_loc shr_m].
  destruct M as [ | m | m ]; try lia.
  change (1024 - 53) with 971.
  destruct (Z.leb_spec e 971) as [ Hfin | Hinf ]; cbn [regular F64.signbit rank].
  - split; [ | split; [ reflexivity | ] ].
    + unfold canon. repeat split; lia.
    + assert (2 ^ (e + 1074) <= 2 ^ 2045) by (apply pow2_le; lia).
      assert (HOV : rank_inf = 2 ^ 53 * 2 ^ 2045) by reflexivity.
      rewrite Z.min_l; [ reflexivity | ]. rewrite HOV. nia.
  - split; [ exact I | split; [ reflexivity | ] ].
    destruct Hlo as [ Hlo | Hlo ]; [ lia | ].
    assert (2 ^ 2046 <= 2 ^ (e + 1074)) by (apply pow2_le; lia).
    assert (HOV : rank_inf = 2 ^ 52 * 2 ^ 2046) by reflexivity.
    rewrite Z.min_r; [ reflexivity | ]. rewrite HOV. nia.
Qed.

Lemma shr_m_of_loc (m : Z) (l : location) : shr_m (shr_record_of_loc m l) = m.
Proof. destruct l as [ | [ | | ] ]; reflexivity. Qed.

Lemma bra_spec (sx : bool) (mx ex : Z) (lx : location) (N0 D0 : Z) :
  Represents (shr_record_of_loc mx lx) N0 D0 ->
  ex <= fexp 53 1024 (Zdigits2 mx + ex) ->
  exists M : Z,
    RoundsTo N0 D0 ex M (fexp 53 1024 (Zdigits2 mx + ex))
    /\ binary_round_aux 53 1024 sx mx ex lx
       = encode sx M (fexp 53 1024 (Zdigits2 mx + ex)).
Proof.
  intros HR Hn.
  set (e1 := fexp 53 1024 (Zdigits2 mx + ex)) in *.
  destruct (Represents_facts _ _ _ HR) as [ Hq _ ]. rewrite shr_m_of_loc in Hq.
  destruct (Represents_shr _ ex (e1 - ex) _ _ HR ltac:(lia)) as [ HR' He' ].
  exists (rne N0 (D0 * 2 ^ (e1 - ex))).
  split.
  - destruct HR as (HD & HN & _).
    assert (Hmx : 0 <= mx) by (rewrite Hq; apply Z.div_pos; lia).
    pose proof (Z.div_mod N0 D0 ltac:(lia)) as Hdm.
    pose proof (Z.mod_pos_bound N0 D0 HD) as Hb.
    rewrite <- Hq in Hdm.
    assert (He1 : e1 = Z.max (Zdigits2 mx + ex - 53) (-1074)) by reflexivity.
    unfold RoundsTo.
    split; [ exact HD | ]. split; [ exact HN | ]. split; [ lia | ].
    split; [ exact Hn | ]. split; [ reflexivity | ].
    destruct (Z.eq_dec mx 0) as [ Hz | Hnz ].
    + rewrite Hz in He1, Hdm. cbn [Zdigits2] in He1.
      assert (0 < 2 ^ (53 + e1 - ex)) by (apply pow2_pos; lia).
      split; [ nia | left; lia ].
    + destruct (Zdigits2_bounds mx ltac:(lia)) as [ Hd [ Hlo Hhi ] ].
      split.
      * assert (2 ^ Zdigits2 mx <= 2 ^ (53 + e1 - ex)) by (apply pow2_le; lia).
        nia.
      * destruct (Z.eq_dec e1 (-1074)) as [ H | H ]; [ left; exact H | right ].
        replace (53 + e1 - ex - 1) with (Zdigits2 mx - 1) by lia. nia.
  - unfold binary_round_aux, shr_fexp at 1. fold e1.
    destruct (shr (shr_record_of_loc mx lx) ex (e1 - ex)) as [ mrs' e' ].
    cbn [fst snd] in HR', He'.
    rewrite (Represents_round _ _ _ HR').
    replace e' with e1 by lia.
    reflexivity.
Qed.

Lemma valid_regular (x : spec_float) :
  valid_binary 53 1024 x = true -> x <> S754_nan -> regular x.
Proof.
  destruct x as [ s | s | | s m e ]; intros Hv Hn; try exact I.
  - congruence.
  - cbn [valid_binary] in Hv. unfold bounded, canonical_mantissa in Hv.
    apply andb_prop in Hv. destruct Hv as [ Hc Hb ].
    apply Z.eqb_eq in Hc. apply Z.leb_le in Hb.
    rewrite fexp64 in Hc. change (1024 - 53) with 971 in Hb.
    pose proof (digits2_pos_bounds m) as [ Hlo Hhi ].
    cbn [regular]. unfold canon.
    assert (Hd : Zpos (digits2_pos m) <= 53) by lia.
    assert (2 ^ Zpos (digits2_pos m) <= 2 ^ 53) by (apply pow2_le; lia).
    split; [ lia | ]. split; [ lia | ].
    destruct (Z.eq_dec e (-1074)) as [ H1 | H1 ]; [ left; exact H1 | right ].
    replace (Zpos (digits2_pos m)) with 53 in Hlo by lia. exact Hlo.
Qed.

Lemma canon_rank (s : bool) (m : positive) (e : Z) :
  canon m e -> 0 < rank (S754_finite s m e) < rank_inf.
Proof.
  intros (He & Hm & _). cbn [rank].
  assert (0 < 2 ^ (e + 1074)) by (apply pow2_pos; lia).
  assert (2 ^ (e + 1074) <= 2 ^ 2045) by (apply pow2_le; lia).
  assert (HOV : rank_inf = 2 ^ 53 * 2 ^ 2045) by reflexivity.
  rewrite HOV. nia.
Qed.

Lemma regular_rank (x : spec_float) : regular x -> 0 <= rank x <= rank_inf.
Proof.
  pose proof rank_inf_pos.
  destruct x as [ s | s | | s m e ]; cbn [regular]; intros Hg; cbn [rank];
    try lia.
  pose proof (canon_rank s m e Hg) as Hr. cbn [rank] in Hr. lia.
Qed.

Lemma canon_rank_exp (m1 m2 : positive) (e1 e2 : Z) :
  canon m1 e1 -> canon m2 e2 -> e1 < e2 ->
  Zpos m1 * 2 ^ (e1 + 1074) < Zpos m2 * 2 ^ (e2 + 1074).
Proof.
  intros (He1 & Hm1 & _) (He2 & _ & Hlo2) Hlt.
  destruct Hlo2 as [ Hc | Hlo2 ]; [ lia | ].
  assert (H1 : 2 ^ (e2 + 1074) = 2 ^ (e2 - e1 - 1) * (2 * 2 ^ (e1 + 1074))).
  { replace (2 * 2 ^ (e1 + 1074)) with (2 ^ (1 + (e1 + 1074)))
      by (rewrite pow2_add by lia; reflexivity).
    rewrite <- pow2_add by lia. f_equal. lia. }
  assert (0 < 2 ^ (e2 - e1 - 1)) by (apply pow2_pos; lia).
  assert (0 < 2 ^ (e1 + 1074)) by (apply pow2_pos; lia).
  rewrite H1.
  assert (H53 : 2 ^ 53 = 2 * 2 ^ 52) by reflexivity.
  nia.
Qed.

Lemma canon_compare (m1 m2 : positive) (e1 e2 : Z) :
  canon m1 e1 -> canon m2 e2 ->
  match e1 ?= e2 with
  | Lt => Lt
  | Gt => Gt
  | Eq => Pos.compare_cont Eq m1 m2
  end
  = (Zpos m1 * 2 ^ (e1 + 1074) ?= Zpos m2 * 2 ^ (e2 + 1074)).
Proof.
  intros H1 H2. symmetry.
  destruct (Z.compare_spec e1 e2) as [ Heq | Hlt | Hgt ].
  - subst e2.
    assert (0 < 2 ^ (e1 + 1074)) by (destruct H1; apply pow2_pos; lia).
    change (Pos.compare_cont Eq m1 m2) with (Zpos m1 ?= Zpos m2).
    destruct (Z.compare_spec (Zpos m1) (Zpos m2)) as [ Hm | Hm | Hm ].
    + rewrite Hm. apply Z.compare_refl.
    + apply Z.compare_lt_iff. nia.
    + apply Z.compare_gt_iff. nia.
  - apply Z.compare_lt_iff. apply canon_rank_exp; assumption.
  - apply Z.compare_gt_iff. apply canon_rank_exp; assumption.
Qed.

Lemma compare_srank (x y : spec_float) :
  regular x -> regular y -> SFcompare x y = Some (srank x ?= srank y).
Proof.
  pose proof rank_inf_pos as HOV.
  destruct x as [ sx | sx | | sx mx ex ]; cbn [regular]; intros Hx;
    try contradiction;
    destruct y as [ sy | sy | | sy my ey ]; cbn [regular]; intros Hy;
    try contradiction;
    try pose proof (canon_rank sx mx ex Hx) as Hrx;
    try pose proof (canon_rank sy my ey Hy) as Hry;
    unfold srank; cbn [SFcompare F64.signbit] in *; f_equal; symmetry.
  1-8: cbn [rank] in *; destruct sx, sy;
    first [ apply Z.compare_eq_iff; lia
          | apply Z.compare_lt_iff; lia | apply Z.compare_gt_iff; lia ].
  - cbn [rank] in *. destruct sx, sy.
    + rewrite Z.compare_opp, (Z.compare_antisym (Zpos mx * _)).
      rewrite <- (canon_compare _ _ _ _ Hx Hy).
      destruct (ex ?= ey); reflexivity.
    + apply Z.compare_lt_iff; lia.
    + apply Z.compare_gt_iff; lia.
    + rewrite <- (canon_compare _ _ _ _ Hx Hy). reflexivity.
Qed.

Lemma srank_lift (f : spec_float -> spec_float) (flip : bool) :
  (forall x, regular x -> regular (f x) /\ F64.signbit (f x) = xorb flip (F64.signbit x)) ->
  (forall x, regular x -> rank x = 0 -> rank (f x) = 0) ->
  (forall x y, regular x -> regular y -> rank x <= rank y -> rank (f x) <= rank (f y)) ->
  forall x y, regular x -> regular y -> srank x <= srank y ->
    if flip then srank (f y) <= srank (f x) else srank (f x) <= srank (f y).
Proof.
  intros Hprops Hzero Hmono x y Hx Hy Hle.
  destruct (Hprops x Hx) as [ Hgx Hsx ].
  destruct (Hprops y Hy) as [ Hgy Hsy ].
  pose proof (regular_rank x Hx) as Hrx.
  pose proof (regular_rank y Hy) as Hry.
  pose proof (regular_rank _ Hgx) as Hrfx.
  pose proof (regular_rank _ Hgy) as Hrfy.
  pose proof (Hmono x y Hx Hy) as Hxy.
  pose proof (Hmono y x Hy Hx) as Hyx.
  pose proof (Hzero x Hx) as Hzx.
  pose proof (Hzero y Hy) as Hzy.
  unfold srank in *. rewrite Hsx, Hsy.
  destruct flip, (F64.signbit x), (F64.signbit y); cbn [xorb]; lia.
Qed.

Lemma mul_finite (mz : positive) (ez : Z) (sx : bool) (mx : positive) (ex : Z) :
  canon mz ez -> canon mx ex ->
  exists M e1 : Z,
    RoundsTo (Zpos mz * (Zpos mx * 2 ^ (ex + 1074))) 1 (ez - 1074) M e1
    /\ SFmul 53 1024 (S754_finite false mz ez) (S754_finite sx mx ex)
       = encode sx M e1.
Proof.
  intros Hz Hx.
  assert (Hn : ez + ex
               <= fexp 53 1024 (Zdigits2 (Zpos (mz * mx)) + (ez + ex))).
  { rewrite fexp64.
    destruct Hz as (Hez & Hmz & Hlz), Hx as (Hex & Hmx & Hlx).
    destruct (Zdigits2_bounds (Zpos (mz * mx)) ltac:(lia)) as [ Hd [ Hlo Hhi ] ].
    pose proof (Pos2Z.inj_mul mz mx) as Hprod.
    assert (H52 : 0 < 2 ^ 52) by reflexivity.
    assert (Hmx1 : Zpos mx <= Zpos mz * Zpos mx) by nia.
    assert (Hmz1 : Zpos mz <= Zpos mz * Zpos mx) by nia.
    destruct (Z_lt_le_dec 52 (Zdigits2 (Zpos (mz * mx)))) as [ Hbig | Hsmall ].
    - lia.
    - assert (2 ^ Zdigits2 (Zpos (mz * mx)) <= 2 ^ 52) by (apply pow2_le; lia).
      destruct Hlz as [ Hlz | Hlz ], Hlx as [ Hlx | Hlx ]; lia. }
  destruct (bra_spec sx (Zpos (mz * mx)) (ez + ex) loc_Exact
                     (Zpos (mz * mx)) 1
                     (Represents_exact (Zpos (mz * mx)) (Pos2Z.is_nonneg _)) Hn) as [ M [ HRT Heq ] ].
  exists M, (fexp 53 1024 (Zdigits2 (Zpos (mz * mx)) + (ez + ex))).
  split.
  - destruct Hx as (Hex & _).
    apply (RoundsTo_lower _ _ _ _ _ (ez - 1074)) in HRT; [ | lia ].
    replace (ez + ex - (ez - 1074)) with (ex + 1074) in HRT by lia.
    rewrite Pos2Z.inj_mul, <- Z.mul_assoc in HRT. exact HRT.
  - cbn [SFmul xorb]. exact Heq.
Qed.

Lemma mul_props (mz : positive) (ez : Z) (x : spec_float) :
  canon mz ez -> regular x ->
  regular (SFmul 53 1024 (S754_finite false mz ez) x)
  /\ F64.signbit (SFmul 53 1024 (S754_finite false mz ez) x) = F64.signbit x.
Proof.
  intros Hz Hx.
  destruct x as [ sx | sx | | sx mx ex ]; cbn [regular] in Hx;
    try contradiction; try (cbn; split; [ exact I | reflexivity ]).
  destruct (mul_finite mz ez sx mx ex Hz Hx) as (M & e1 & HRT & ->).
  destruct (RoundsTo_bounds _ _ _ _ _ HRT) as [ HM Hlo ].
  destruct HRT as (_ & _ & He1 & _).
  destruct (encode_spec sx M e1 HM He1 Hlo) as (Hg & Hs & _).
  split; assumption.
Qed.

Lemma mul_rank_finite (mz : positive) (ez : Z) (sx : bool) (mx : positive)
      (ex : Z) (sy : bool) (my : positive) (ey : Z) :
  canon mz ez -> canon mx ex -> canon my ey ->
  rank (S754_finite sx mx ex) <= rank (S754_finite sy my ey) ->
  rank (SFmul 53 1024 (S754_finite false mz ez) (S754_finite sx mx ex))
  <= rank (SFmul 53 1024 (S754_finite false mz ez) (S754_finite sy my ey)).
Proof.
  intros Hz Hx Hy Hle. cbn [rank] in Hle.
  destruct (mul_finite mz ez sx mx ex Hz Hx) as (M & e1 & HRT & ->).
  destruct (mul_finite mz ez sy my ey Hz Hy) as (M' & e1' & HRT' & ->).
  pose proof (RoundsTo_mono _ _ _ _ _ _ _ _ _ HRT HRT' ltac:(nia)) as Hmono.
  destruct (RoundsTo_bounds _ _ _ _ _ HRT) as [ HM Hlo ].
  destruct (RoundsTo_bounds _ _ _ _ _ HRT') as [ HM' Hlo' ].
  destruct HRT as (_ & _ & He1 & _), HRT' as (_ & _ & He1' & _).
  destruct (encode_spec sx M e1 HM He1 Hlo) as (_ & _ & ->).
  destruct (encode_spec sy M' e1' HM' He1' Hlo') as (_ & _ & ->).
  lia.
Qed.

Lemma mul_rank_mono (mz : positive) (ez : Z) (x y : spec_float) :
  canon mz ez -> regular x -> regular y -> rank x <= rank y ->
  rank (SFmul 53 1024 (S754_finite false mz ez) x)
  <= rank (SFmul 53 1024 (S754_finite false mz ez) y).
Proof.
  intros Hz Hx Hy Hle.
  pose proof (regular_rank _ (proj1 (mul_props mz ez x Hz Hx))) as Hfx.
  pose proof (regular_rank _ (proj1 (mul_props mz ez y Hz Hy))) as Hfy.
  destruct x as [ sx | sx | | sx mx ex ]; cbn [regular] in Hx; try contradiction;
    destruct y as [ sy | sy | | sy my ey ]; cbn [regular] in Hy;
    try contradiction;
    try pose proof (canon_rank sx mx ex Hx) as Hrx;
    try pose proof (canon_rank sy my ey Hy) as Hry;
    pose proof rank_inf_pos;
    try (cbn [rank] in Hle; lia);
    try (cbn [SFmul rank] in *; lia).
  apply mul_rank_finite; assumption.
Qed.

Lemma mul_monotone (z x y : spec_float) :
  regular z -> F64.signbit z = false -> 0 < rank z < rank_inf ->
  regular x -> regular y -> srank x <= srank y ->
  srank (SFmul 53 1024 z x) <= srank (SFmul 53 1024 z y).
Proof.
  intros Hz Hs Hr Hx Hy Hle.
  destruct z as [ sz | sz | | sz mz ez ]; cbn [regular rank F64.signbit] in *;
    try lia.
  subst sz.
  apply (srank_lift (SFmul 53 1024 (S754_finite false mz ez)) false);
    try assumption.
  - intros x0 Hx0. cbn [xorb]. apply mul_props; assumption.
  - intros x0 Hx0 H0.
    destruct x0 as [ s0 | s0 | | s0 m0 e0 ]; cbn [regular] in Hx0;
      try contradiction; try reflexivity.
    + cbn [rank] in H0. pose proof rank_inf_pos. lia.
    + pose proof (canon_rank s0 m0 e0 Hx0). lia.
  - intros x0 y0 Hx0 Hy0. apply mul_rank_mono; assumption.
Qed.

Lemma div_eucl_eq (a b : Z) : Z.div_eucl a b = (a / b, a mod b).
Proof. unfold Z.div, Z.modulo. destruct (Z.div_eucl a b); reflexivity. Qed.

Lemma new_location_rep (N D : Z) :
  0 < D -> Z.even D = true -> 0 <= N ->
  Represents (shr_record_of_loc (N / D) (new_location D (N mod D))) N D.
Proof.
  intros HD Heven HN.
  pose proof (Z.div_mod N D ltac:(lia)) as Hdm.
  pose proof (Z.mod_pos_bound N D HD) as Hb.
  unfold new_location. rewrite Heven. unfold new_location_even.
  assert (Hsplit : forall q r, 0 <= r < D -> 2 * N = D * q + r ->
                               (2 * N) / D = q /\ (2 * N) mod D = r).
  { intros q r Hr Heq. split; symmetry.
    - apply (Z.div_unique (2 * N) D q r); [ left; exact Hr | exact Heq ].
    - apply (Z.mod_unique (2 * N) D q r); [ left; exact Hr | exact Heq ]. }
  unfold Represents. split; [ exact HD | ]. split; [ exact HN | ].
  destruct (Z.eqb_spec (N mod D) 0) as [ Hz | Hnz ].
  - destruct (Hsplit (2 * (N / D)) 0 ltac:(lia) ltac:(lia)) as [ -> -> ].
    cbn. split; [ lia | reflexivity ].
  - destruct (Z.compare_spec (2 * (N mod D)) D) as [ Hc | Hc | Hc ].
    + destruct (Hsplit (2 * (N / D) + 1) 0 ltac:(lia) ltac:(lia)) as [ -> -> ].
      cbn [shr_record_of_loc shr_m shr_r shr_s Z.b2z].
      split; [ lia | reflexivity ].
    + destruct (Hsplit (2 * (N / D)) (2 * (N mod D)) ltac:(lia) ltac:(lia))
        as [ -> -> ].
      cbn [shr_record_of_loc shr_m shr_r shr_s Z.b2z].
      split; [ lia | ].
      destruct (Z.eqb_spec (2 * (N mod D)) 0); [ lia | reflexivity ].
    + destruct (Hsplit (2 * (N / D) + 1) (2 * (N mod D) - D)
                       ltac:(lia) ltac:(lia)) as [ -> -> ].
      cbn [shr_record_of_loc shr_m shr_r shr_s Z.b2z].
      split; [ lia | ].
      destruct (Z.eqb_spec (2 * (N mod D) - D) 0); [ lia | reflexivity ].
Qed.

Lemma div_finite (sx : bool) (mx : positive) (ex : Z) :
  canon mx ex ->
  exists M e1 : Z,
    RoundsTo (Zpos mx * 2 ^ (ex + 1074) * 2 ^ 51) (Zpos mant_2_5) (-1074) M e1
    /\ SFdiv 53 1024 (S754_finite sx mx ex) (S754_finite true mant_2_5 (-51))
       = encode (negb sx) M e1.
Proof.
  intros (Hex & Hmx & Hlx).
  destruct (Zdigits2_le53 (Zpos mx) ltac:(lia)) as [ Hd0 Hd1 ].
  destruct (Zdigits2_bounds (Zpos mx) ltac:(lia)) as [ _ [ Hdlo Hdhi ] ].
  set (d1 := Zdigits2 (Zpos mx)) in *.
  set (e' := Z.max (d1 + ex - 55) (-1074)).
  set (s := ex + 51 - e').
  assert (Hs : 51 <= s) by (unfold s, e'; lia).
  assert (Hcore : SFdiv_core_binary 53 1024 (Zpos mx) ex (Zpos mant_2_5) (-51)
                  = ((Zpos mx * 2 ^ s) / Zpos mant_2_5, e',
                     new_location (Zpos mant_2_5) ((Zpos mx * 2 ^ s) mod Zpos mant_2_5))).
  { unfold SFdiv_core_binary. fold d1.
    change (Zdigits2 (Zpos mant_2_5)) with 53.
    rewrite fexp64.
    replace (Z.min (Z.max (d1 + ex - (53 + -51) - 53) (-1074)) (ex - -51))
      with e' by (unfold e'; lia).
    replace (ex - -51 - e') with s by (unfold s; lia).
    destruct s as [ | ps | ps ] eqn:Hps; try lia.
    rewrite Z.shiftl_mul_pow2 by lia.
    rewrite div_eucl_eq. reflexivity. }
  set (m' := Zpos mx * 2 ^ s) in *.
  assert (Hp : 0 < 2 ^ s) by (apply pow2_pos; lia).
  assert (Hm' : 0 <= m') by (unfold m'; nia).
  pose proof (new_location_rep m' (Zpos mant_2_5) ltac:(lia) eq_refl Hm') as HR.
  assert (Hn : e' <= fexp 53 1024 (Zdigits2 (m' / Zpos mant_2_5) + e')).
  { rewrite fexp64.
    destruct (Z.eq_dec e' (-1074)) as [ He | He ]; [ lia | ].
    assert (He' : e' = d1 + ex - 55) by (unfold e' in *; lia).
    assert (Hs' : s = 106 - d1) by (unfold s; lia).
    assert (H105 : 2 ^ 105 <= m').
    { unfold m'. rewrite Hs'.
      replace 105 with ((d1 - 1) + (106 - d1)) by lia.
      rewrite pow2_add by lia.
      assert (0 < 2 ^ (106 - d1)) by (apply pow2_pos; lia). nia. }
    assert (Hq : 2 ^ 52 <= m' / Zpos mant_2_5).
    { apply Z.div_le_lower_bound; [ lia | ].
      assert (Zpos mant_2_5 * 2 ^ 52 <= 2 ^ 105) by (vm_compute; discriminate).
      lia. }
    destruct (Zdigits2_bounds (m' / Zpos mant_2_5)
                ltac:(assert (0 < 2 ^ 52) by reflexivity; lia))
      as [ _ [ _ Hqhi ] ].
    destruct (Z_lt_le_dec 52 (Zdigits2 (m' / Zpos mant_2_5))) as [ Hbig | Hsmall ];
      [ lia | ].
    assert (2 ^ Zdigits2 (m' / Zpos mant_2_5) <= 2 ^ 52).
    { assert (0 <= Zdigits2 (m' / Zpos mant_2_5)).
      { destruct (m' / Zpos mant_2_5); cbn; lia. }
      apply pow2_le; lia. }
    lia. }
  destruct (bra_spec (negb sx) (m' / Zpos mant_2_5) e'
                     (new_location (Zpos mant_2_5) (m' mod Zpos mant_2_5))
                     m' (Zpos mant_2_5) HR Hn) as [ M [ HRT Heq ] ].
  exists M, (fexp 53 1024 (Zdigits2 (m' / Zpos mant_2_5) + e')).
  split.
  - apply (RoundsTo_lower _ _ _ _ _ (-1074)) in HRT; [ | unfold e'; lia ].
    replace (m' * 2 ^ (e' - -1074))
      with (Zpos mx * 2 ^ (ex + 1074) * 2 ^ 51) in HRT; [ exact HRT | ].
    unfold m'. rewrite <- !Z.mul_assoc. f_equal.
    rewrite <- !pow2_add by (unfold e'; lia). f_equal. unfold s. lia.
  - cbn [SFdiv]. rewrite Hcore.
    replace (xorb sx true) with (negb sx) by (destruct sx; reflexivity).
    exact Heq.
Qed.

Lemma div_props (x : spec_float) :
  regular x ->
  regular (SFdiv 53 1024 x F64.cm2_5)
  /\ F64.signbit (SFdiv 53 1024 x F64.cm2_5) = xorb true (F64.signbit x).
Proof.
  intros Hx. change F64.cm2_5 with (S754_finite true mant_2_5 (-51)).
  destruct x as [ sx | sx | | sx mx ex ]; cbn [regular] in Hx;
    try contradiction;
    try (cbn; split; [ exact I | destruct sx; reflexivity ]).
  destruct (div_finite sx mx ex Hx) as (M & e1 & HRT & ->).
  destruct (RoundsTo_bounds _ _ _ _ _ HRT) as [ HM Hlo ].
  destruct HRT as (_ & _ & He1 & _).
  destruct (encode_spec (negb sx) M e1 HM He1 Hlo) as (Hg & Hs & _).
  split; [ exact Hg | exact Hs ].
Qed.

Lemma div_rank_finite (sx : bool) (mx : positive) (ex : Z)
      (sy : bool) (my : positive) (ey : Z) :
  canon mx ex -> canon my ey ->
  rank (S754_finite sx mx ex) <= rank (S754_finite sy my ey) ->
  rank (SFdiv 53 1024 (S754_finite sx mx ex) F64.cm2_5)
  <= rank (SFdiv 53 1024 (S754_finite sy my ey) F64.cm2_5).
Proof.
  intros Hx Hy Hle. cbn [rank] in Hle.
  change F64.cm2_5 with (S754_finite true mant_2_5 (-51)).
  destruct (div_finite sx mx ex Hx) as (M & e1 & HRT & ->).
  destruct (div_finite sy my ey Hy) as (M' & e1' & HRT' & ->).
  assert (H51 : 0 < 2 ^ 51) by reflexivity.
  pose proof (RoundsTo_mono _ _ _ _ _ _ _ _ _ HRT HRT' ltac:(nia)) as Hmono.
  destruct (RoundsTo_bounds _ _ _ _ _ HRT) as [ HM Hlo ].
  destruct (RoundsTo_bounds _ _ _ _ _ HRT') as [ HM' Hlo' ].
  destruct HRT as (_ & _ & He1 & _), HRT' as (_ & _ & He1' & _).
  destruct (encode_spec (negb sx) M e1 HM He1 Hlo) as (_ & _ & ->).
  destruct (encode_spec (negb sy) M' e1' HM' He1' Hlo') as (_ & _ & ->).
  lia.
Qed.

Lemma div_rank_mono (x y : spec_float) :
  regular x -> regular y -> rank x <= rank y ->
  rank (SFdiv 53 1024 x F64.cm2_5) <= rank (SFdiv 53 1024 y F64.cm2_5).
Proof.
  intros Hx Hy Hle.
  pose proof (regular_rank _ (proj1 (div_props x Hx))) as Hfx.
  pose proof (regular_rank _ (proj1 (div_props y Hy))) as Hfy.
  change F64.cm2_5 with (S754_finite true mant_2_5 (-51)) in *.
  destruct x as [ sx | sx | | sx mx ex ]; cbn [regular] in Hx; try contradiction;
    destruct y as [ sy | sy | | sy my ey ]; cbn [regular] in Hy;
    try contradiction;
    try pose proof (canon_rank sx mx ex Hx) as Hrx;
    try pose proof (canon_rank sy my ey Hy) as Hry;
    pose proof rank_inf_pos;
    try (cbn [rank] in Hle; lia);
    try (cbn [SFdiv rank] in *; lia).
  apply (div_rank_finite sx mx ex sy my ey); assumption.
Qed.

Lemma div_antitone (x y : spec_float) :
  regular x -> regular y -> srank x <= srank y ->
  srank (SFdiv 53 1024 y F64.cm2_5) <= srank (SFdiv 53 1024 x F64.cm2_5).
Proof.
  intros Hx Hy Hle.
  apply (srank_lift (fun v => SFdiv 53 1024 v F64.cm2_5) true); try assumption.
  - intros x0 Hx0. apply div_props; assumption.
  - intros x0 Hx0 H0.
    destruct x0 as [ s0 | s0 | | s0 m0 e0 ]; cbn [regular] in Hx0;
      try contradiction; try reflexivity.
    + cbn [rank] in H0. pose proof rank_inf_pos. lia.
    + pose proof (canon_rank s0 m0 e0 Hx0). lia.
  - intros x0 y0 Hx0 Hy0. apply div_rank_mono; assumption.
Qed.

Lemma SFltb_srank (x y : spec_float) :
  regular x -> regular y -> SFltb x y = true -> srank x < srank y.
Proof.
  intros Hx Hy. unfold SFltb. rewrite (compare_srank x y Hx Hy).
  destruct (Z.compare_spec (srank x) (srank y)); try discriminate. lia.
Qed.

Lemma SFleb_srank (x y : spec_float) :
  regular x -> regular y -> (SFleb x y = true <-> srank x <= srank y).
Proof.
  intros Hx Hy. unfold SFleb. rewrite (compare_srank x y Hx Hy).
  destruct (Z.compare_spec (srank x) (srank y)); split;
    try discriminate; try reflexivity; lia.
Qed.

Lemma SFcompare_not_nan (x y : spec_float) (c : comparison) :
  SFcompare x y = Some c -> x <> S754_nan /\ y <> S754_nan.
Proof.
  destruct x, y; cbn; intros H; try discriminate H; split; discriminate.
Qed.

(** ** mag2flux does not increase with the magnitude *)

(** The flux that [mag2flux] returns for a bare float. *)
Lemma mag2flux_float_flux
      (env : Env) (bp : Bandpass) (units zu : unit_t) (zp : Quantity)
      (m p : F64.float) :
  parse_unit env (ZeroPointUnit (svo bp)) = Ok zu ->
  quantity_to env (mkQuantity (ZeroPoint (svo bp)) zu) units = Ok zp ->
  py_pow10 env (F64.div m F64.cm2_5) = Ok p ->
  exists sig_f : Quantity,
    mag2flux env (PFloat m) bp units
    = Ok (mkQuantity (F64.mul (q_value zp) p) units, sig_f).
Proof.
  intros Hunit Hzp Hp.
  pose proof (quantity_to_unit _ _ _ _ Hzp) as Hu.
  unfold mag2flux. rewrite Hunit. cbn [rbind]. rewrite Hzp. cbn [rbind].
  cbn [getitem list_getitem nth_error as_float rbind].
  unfold flux_value. cbn [Float64 a_pow10 a_div a_m2_5 a_mul].
  rewrite Hp. cbn [rbind]. rewrite Hu, quantity_to_same. cbn [rbind].
  unfold q_div, q_mul. cbn [q_value q_unit].
  rewrite quantity_to_same. cbn [rbind].
  eexists. reflexivity.
Qed.

(** C5, as the code has it.  Let the zero point, converted to the target
    unit, be a positive finite double, let [m1 < m2] be doubles, and let
    Python's power return [p1] for the exponent [m1/-2.5] and [p2] for
    [m2/-2.5].  The quotient by -2.5 does not increase from [m1] to [m2];
    if the C library's power does not increase from the first exponent to
    the second, [mag2flux] returns a flux for both magnitudes and the flux
    for [m2] is not greater than the flux for [m1]. *)
Theorem mag2flux_antitone
        (env : Env) (bp : Bandpass) (units zu : unit_t) (zp : Quantity)
        (m1 m2 p1 p2 : F64.float)
        (Hunit : parse_unit env (ZeroPointUnit (svo bp)) = Ok zu)
        (Hzp : quantity_to env (mkQuantity (ZeroPoint (svo bp)) zu) units
               = Ok zp)
        (Hzvalid : F64.valid (q_value zp) = true)
        (Hzfinite : F64.is_finite (q_value zp) = true)
        (Hzpos : F64.ltb F64.zero (q_value zp) = true)
        (Hm1 : F64.valid m1 = true)
        (Hm2 : F64.valid m2 = true)
        (Hlt : F64.ltb m1 m2 = true)
        (Hp1 : py_pow10 env (F64.div m1 F64.cm2_5) = Ok p1)
        (Hp2 : py_pow10 env (F64.div m2 F64.cm2_5) = Ok p2)
        (Hp1valid : F64.valid p1 = true)
        (Hp2valid : F64.valid p2 = true)
        (Hpow : F64.leb (F64.div m2 F64.cm2_5) (F64.div m1 F64.cm2_5) = true ->
                F64.leb p2 p1 = true) :
  F64.leb (F64.div m2 F64.cm2_5) (F64.div m1 F64.cm2_5) = true
  /\ exists f1 sig_f1 f2 sig_f2 : Quantity,
      mag2flux env (PFloat m1) bp units = Ok (f1, sig_f1)
      /\ mag2flux env (PFloat m2) bp units = Ok (f2, sig_f2)
      /\ q_value f1 = F64.mul (q_value zp) p1
      /\ q_value f2 = F64.mul (q_value zp) p2
      /\ F64.leb (q_value f2) (q_value f1) = true.
Proof.
  unfold F64.leb, F64.ltb, F64.valid, F64.div, F64.mul in *.
  change F64.prec with 53 in *. change F64.emax with 1024 in *.
  assert (Hm : regular m1 /\ regular m2).
  { unfold SFltb in Hlt.
    destruct (SFcompare m1 m2) as [ c | ] eqn:Hc; [ | discriminate Hlt ].
    destruct (SFcompare_not_nan _ _ _ Hc) as [ Hn1 Hn2 ].
    split; apply valid_regular; assumption. }
  destruct Hm as [ Hr1 Hr2 ].
  pose proof (SFltb_srank m1 m2 Hr1 Hr2 Hlt) as Hrank.
  pose proof (div_antitone m1 m2 Hr1 Hr2 ltac:(lia)) as Hdiv.
  unfold F64.div in Hdiv.
  change F64.prec with 53 in Hdiv. change F64.emax with 1024 in Hdiv.
  assert (Hq : SFleb (SFdiv 53 1024 m2 F64.cm2_5) (SFdiv 53 1024 m1 F64.cm2_5)
               = true).
  { apply SFleb_srank; [ apply div_props | apply div_props | ]; assumption. }
  split; [ exact Hq | ].
  specialize (Hpow Hq).
  assert (Hp : regular p2 /\ regular p1).
  { unfold SFleb in Hpow.
    destruct (SFcompare p2 p1) as [ c | ] eqn:Hc; [ | discriminate Hpow ].
    destruct (SFcompare_not_nan _ _ _ Hc) as [ Hn2 Hn1 ].
    split; apply valid_regular; assumption. }
  destruct Hp as [ Hrp2 Hrp1 ].
  destruct (mag2flux_float_flux env bp units zu zp m1 p1 Hunit Hzp Hp1)
    as [ sig_f1 Hf1 ].
  destruct (mag2flux_float_flux env bp units zu zp m2 p2 Hunit Hzp Hp2)
    as [ sig_f2 Hf2 ].
  exists (mkQuantity (F64.mul (q_value zp) p1) units), sig_f1,
         (mkQuantity (F64.mul (q_value zp) p2) units), sig_f2.
  split; [ exact Hf1 | ]. split; [ exact Hf2 | ].
  split; [ reflexivity | ]. split; [ reflexivity | ].
  cbn [q_value]. unfold F64.mul.
  change F64.prec with 53. change F64.emax with 1024.
  destruct (q_value zp) as [ sz | sz | | sz mz ez ] eqn:Hz;
    try discriminate Hzfinite; try discriminate Hzpos.
  assert (Hrz : regular (S754_finite sz mz ez))
    by (apply valid_regular; [ exact Hzvalid | discriminate ]).
  assert (Hsz : sz = false) by (destruct sz; [ discriminate Hzpos | reflexivity ]).
  subst sz.
  pose proof (mul_props mz ez p1 Hrz Hrp1) as [ Hg1 _ ].
  pose proof (mul_props mz ez p2 Hrz Hrp2) as [ Hg2 _ ].
  apply SFleb_srank; [ exact Hg2 | exact Hg1 | ].
  apply mul_monotone; try assumption.
  - reflexivity.
  - apply (canon_rank false mz ez Hrz).
  - apply SFleb_srank; assumption.
Qed.

Lemma mag2flux_antitone_witness :
  F64.leb (F64.div (F64.of_Z 15) F64.cm2_5) (F64.div (F64.of_Z 10) F64.cm2_5)
  = true
  /\ exists f1 sig_f1 f2 sig_f2 : Quantity,
      mag2flux Demo.env (PFloat (F64.of_Z 10)) Demo.bandpass_J Demo.flam
      = Ok (f1, sig_f1)
      /\ mag2flux Demo.env (PFloat (F64.of_Z 15)) Demo.bandpass_J Demo.flam
         = Ok (f2, sig_f2)
      /\ q_value f1
         = F64.mul (q_value (mkQuantity (ZeroPoint Demo.filter_J) Demo.flam))
                   (Demo.pow10_Z (-4))
      /\ q_value f2
         = F64.mul (q_value (mkQuantity (ZeroPoint Demo.filter_J) Demo.flam))
                   (Demo.pow10_Z (-6))
      /\ F64.leb (q_value f2) (q_value f1) = true.
Proof.
  apply (mag2flux_antitone
           Demo.env Demo.bandpass_J Demo.flam Demo.flam
           (mkQuantity (ZeroPoint Demo.filter_J) Demo.flam)
           (F64.of_Z 10) (F64.of_Z 15)
           (Demo.pow10_Z (-4)) (Demo.pow10_Z (-6)));
    vm_compute; reflexivity.
Defined.

(** For the magnitudes 10 and 15 and the zero point 3.129e-10 the fluxes
    are 3.129e-14 and 3.129e-16, up to rounding. *)
Example mag2flux_antitone_example :
  flux_of (mag2flux Demo.env (PFloat (F64.of_Z 10)) Demo.bandpass_J Demo.flam)
  = Some (F64.mul (ZeroPoint Demo.filter_J) (Demo.pow10_Z (-4)))
  /\ flux_of (mag2flux Demo.env (PFloat (F64.of_Z 15)) Demo.bandpass_J
                       Demo.flam)
     = Some (F64.mul (ZeroPoint Demo.filter_J) (Demo.pow10_Z (-6)))
  /\ F64.ltb (F64.mul (ZeroPoint Demo.filter_J) (Demo.pow10_Z (-6)))
             (F64.mul (ZeroPoint Demo.filter_J) (Demo.pow10_Z (-4))) = true.
Proof. repeat split; vm_compute; reflexivity. Qed.


(** ** mag_table *)

Lemma Bandpass_call_two (env : Env) (filt inst : pyobj) :
  Bandpass_call env [filt; inst] = Raise TypeError.
Proof. reflexivity. Qed.

(** An element that does not unpack into two values stops the resolution of
    the bandpasses at once. *)
Lemma make_bandpasses_unpack_error
      (env : Env) (x : pyobj) (rest : list pyobj) (e : exn) :
  unpack2 x = Raise e -> make_bandpasses env (x :: rest) = Raise e.
Proof.
  intros Hx. unfold make_bandpasses. simpl. rewrite Hx. reflexivity.
Qed.

(** No bandpass is ever built from a list: an element that unpacks is
    passed on as two arguments to a constructor that takes one. *)
Lemma make_bandpasses_ok_nil
      (env : Env) (items : list pyobj) (bps : list Bandpass) :
  make_bandpasses env items = Ok bps -> items = [] /\ bps = [].
Proof.
  destruct items as [ | x rest ].
  - intros H; inversion H; split; reflexivity.
  - unfold make_bandpasses; simpl.
    destruct (unpack2 x) as [ [ a b ] | e ]; simpl; discriminate.
Qed.

Lemma save_or_return_none (env : Env) (tb : Table.t) (w : world) :
  save_or_return env None tb w = (w, Raise TypeError).
Proof. reflexivity. Qed.

(** With a path whose directory exists and which contains a dot, the table
    is written under a name ending in [.csv] and nothing is returned, unless
    the write raises. *)
Lemma save_or_return_persists
      (env : Env) (path : string) (tb : Table.t) (w : world) :
  path_exists env (OsPath.dirname path) = true ->
  Str.contains_char Str.dot path = true ->
  exists path',
    save_or_return env (Some path) tb w
    = match write_error env path' with
      | Some e => (w, Raise e)
      | None =>
          (mkWorld (stdout w)
                   ((path', tb)
                      :: filter (fun f => negb (String.eqb (fst f) path'))
                                (files w)),
           Ok None)
      end.
Proof.
  intros Hdir Hdot.
  unfold save_or_return. rewrite Hdir, Hdot. simpl.
  exists (if Str.endswith path ".csv" then path
          else hd "" (Str.split Str.dot path) ++ ".csv")%string.
  unfold bind, write_file.
  destruct (write_error env _); reflexivity.
Qed.

(** Otherwise a path makes the call return the table and write nothing. *)
Lemma save_or_return_returns
      (env : Env) (path : string) (tb : Table.t) (w : world) :
  path_exists env (OsPath.dirname path) && Str.contains_char Str.dot path
  = false ->
  save_or_return env (Some path) tb w = (w, Ok (Some tb)).
Proof.
  intros H. unfold save_or_return. rewrite H. reflexivity.
Qed.

(** What follows the resolution of the bandpasses, for a list or tuple. *)
Lemma mag_table_sequence
      (env : Env) (spectra : option (list triple)) (bandpasses : pyobj)
      (items : list pyobj) (models : string) (jmag : pynum)
      (save : option string) (w : world) (jband : Spectrum)
      (grid : list triple) :
  ObsBandpass env "j" = Ok jband ->
  resolve_spectra spectra = Ok grid ->
  discover env bandpasses = Ok (PList items)
  \/ discover env bandpasses = Ok (PTuple items) ->
  mag_table env spectra bandpasses models jmag save w
  = (bps <- lift (make_bandpasses env items) ;;
     print OutCalculating ;;;
     tables <- spectra_loop env models jmag jband bps grid [] ;;
     table <- lift (Table.vstack tables) ;;
     save_or_return env save table)%M w.
Proof.
  intros Hj Hg Hd.
  unfold mag_table.
  rewrite Hj, bind_lift_ok, Hg, bind_lift_ok.
  destruct Hd as [ Hd | Hd ]; rewrite Hd, bind_lift_ok; reflexivity.
Qed.

(** C1, as the code has it.  When every point of the grid fails
    normalization, a call with a list of bandpasses raises: either while
    the bandpasses are built or, after one diagnostic per point, at the
    stacking step, where no table is left and stacking nothing is
    refused.  No empty table is returned. *)
Theorem mag_table_all_failed_raises
        (env : Env) (spectra : option (list triple)) (items : list pyobj)
        (models : string) (jmag : pynum) (save : option string) (w : world)
        (jband : Spectrum) (grid : list triple)
        (Hj : ObsBandpass env "j" = Ok jband)
        (Hg : resolve_spectra spectra = Ok grid)
        (Hfail : forallb (renorm_fails env models jmag jband) grid = true) :
  mag_table env spectra (PList items) models jmag save w
  = match make_bandpasses env items with
    | Raise e => (w, Raise e)
    | Ok _ =>
        (mkWorld (stdout w ++ OutCalculating :: map OutError grid) (files w),
         Raise ValueError)
    end.
Proof.
  rewrite (mag_table_sequence env spectra (PList items) items models jmag save
             w jband grid Hj Hg (or_introl eq_refl)).
  destruct (make_bandpasses env items) as [ bps | e ]; [ | reflexivity ].
  rewrite bind_lift_ok, bind_print.
  unfold bind at 1.
  rewrite (spectra_loop_all_failed env models jmag jband bps grid Hfail).
  simpl. rewrite <- app_assoc. reflexivity.
Qed.

Lemma mag_table_all_failed_raises_witness :
  forallb (renorm_fails Demo.env "phoenix" (NInt 10) Demo.jband)
          [Demo.point_1000] = true
  /\ mag_table Demo.env (Some [Demo.point_1000]) (PList []) "phoenix"
               (NInt 10) (Some "mags.txt") Demo.w0
     = (mkWorld [OutCalculating; OutError Demo.point_1000] [], Raise ValueError).
Proof.
  split; [ reflexivity | ].
  apply (mag_table_all_failed_raises
           Demo.env (Some [Demo.point_1000]) [] "phoenix" (NInt 10)
           (Some "mags.txt") Demo.w0 Demo.jband [Demo.point_1000]);
    reflexivity.
Defined.

(** The same holds for a tuple of bandpasses. *)
Lemma mag_table_all_failed_tuple
      (env : Env) (spectra : option (list triple)) (items : list pyobj)
      (models : string) (jmag : pynum) (save : option string) (w : world)
      (jband : Spectrum) (grid : list triple) :
  ObsBandpass env "j" = Ok jband ->
  resolve_spectra spectra = Ok grid ->
  forallb (renorm_fails env models jmag jband) grid = true ->
  is_raise (snd (mag_table env spectra (PTuple items) models jmag save w))
  = true.
Proof.
  intros Hj Hg Hfail.
  rewrite (mag_table_sequence env spectra (PTuple items) items models jmag save
             w jband grid Hj Hg (or_intror eq_refl)).
  destruct (make_bandpasses env items) as [ bps | e ]; [ | reflexivity ].
  rewrite bind_lift_ok, bind_print.
  unfold bind at 1.
  rewrite (spectra_loop_all_failed env models jmag jband bps grid Hfail).
  reflexivity.
Qed.

(** C2, as the code has it.  Without a [save] argument no table is ever
    returned, whatever the other arguments: the last statement takes the
    directory name of [None].  Nothing is written either. *)
Theorem mag_table_without_save_returns_no_table
        (env : Env) (spectra : option (list triple)) (bandpasses : pyobj)
        (models : string) (jmag : pynum) (w : world) :
  returns_table (snd (mag_table env spectra bandpasses models jmag None w))
  = false
  /\ files (fst (mag_table env spectra bandpasses models jmag None w))
     = files w.
Proof.
  assert (Hseq : forall jband grid items,
             let r := (bps <- lift (make_bandpasses env items) ;;
                       print OutCalculating ;;;
                       tables <- spectra_loop env models jmag jband bps grid [] ;;
                       table <- lift (Table.vstack tables) ;;
                       save_or_return env None table)%M w in
             returns_table (snd r) = false /\ files (fst r) = files w).
  { intros jband grid items; cbv zeta.
    destruct (make_bandpasses env items) as [ bps | e ];
      [ | split; reflexivity ].
    rewrite bind_lift_ok, bind_print.
    pose proof (spectra_loop_files env models jmag jband bps grid []
                  (mkWorld (stdout w ++ [OutCalculating]) (files w))) as Hfiles.
    unfold bind.
    destruct (spectra_loop env models jmag jband bps grid []
                (mkWorld (stdout w ++ [OutCalculating]) (files w)))
      as [ w' [ out | e ] ]; simpl in Hfiles.
    - unfold lift.
      destruct (Table.vstack out) as [ tb | e ].
      + rewrite save_or_return_none. split; [ reflexivity | exact Hfiles ].
      + split; [ reflexivity | exact Hfiles ].
    - split; [ reflexivity | exact Hfiles ]. }
  unfold mag_table.
  destruct (ObsBandpass env "j") as [ jband | e ]; [ | split; reflexivity ].
  rewrite bind_lift_ok.
  destruct (resolve_spectra spectra) as [ grid | e ]; [ | split; reflexivity ].
  rewrite bind_lift_ok.
  destruct (discover env bandpasses) as [ b | e ]; [ | split; reflexivity ].
  rewrite bind_lift_ok.
  destruct b; try (split; reflexivity); apply Hseq.
Qed.

(** The failing call of C2: one point that normalizes, no bandpass, no
    [save]. *)
Lemma mag_table_without_save_example :
  mag_table Demo.env (Some [Demo.point_2000]) (PList []) "phoenix" (NInt 10)
            None Demo.w0
  = (mkWorld [OutCalculating; OutParams Demo.point_2000] [], Raise TypeError).
Proof. reflexivity. Qed.

(** C3 as stated fails: with the grid [(2000, 0.0, 5.0)] and the bandpasses
    ['J'] the call raises [ValueError] before anything is printed. *)
Lemma mag_table_single_J_raises :
  mag_table Demo.env (Some [Demo.point_2000]) (PList [PStr "J"]) "phoenix"
            (NInt 10) None Demo.w0
  = (Demo.w0, Raise ValueError)
  /\ returns_table
       (snd (mag_table Demo.env (Some [Demo.point_2000]) (PList [PStr "J"])
                       "phoenix" (NInt 10) None Demo.w0)) = false.
Proof. split; reflexivity. Qed.

(** C3, as the code has it.  The elements of a bandpass list are unpacked
    as (filter, instrument) pairs.  When the first element does not unpack
    into two values, as the bare name 'J', the call raises before any grid
    point is processed; nothing is printed, written or returned. *)
Theorem mag_table_rejects_bare_names
        (env : Env) (spectra : option (list triple)) (x : pyobj)
        (rest : list pyobj) (models : string) (jmag : pynum)
        (save : option string) (w : world) (e0 : exn)
        (Hx : unpack2 x = Raise e0) :
  exists e : exn,
    mag_table env spectra (PList (x :: rest)) models jmag save w
    = (w, Raise e).
Proof.
  unfold mag_table.
  destruct (ObsBandpass env "j") as [ jband | e ]; [ | exists e; reflexivity ].
  rewrite bind_lift_ok.
  destruct (resolve_spectra spectra) as [ grid | e ];
    [ | exists e; reflexivity ].
  rewrite bind_lift_ok.
  simpl discover. rewrite bind_lift_ok.
  rewrite (make_bandpasses_unpack_error env x rest e0 Hx).
  exists e0. reflexivity.
Qed.

Lemma mag_table_rejects_bare_names_witness :
  unpack2 (PStr "J") = Raise ValueError
  /\ exists e : exn,
      mag_table Demo.env (Some [Demo.point_2000]) (PList [PStr "J"]) "phoenix"
                (NInt 10) None Demo.w0
      = (Demo.w0, Raise e).
Proof.
  split; [ reflexivity | ].
  apply (mag_table_rejects_bare_names
           Demo.env (Some [Demo.point_2000]) (PStr "J") [] "phoenix" (NInt 10)
           None Demo.w0 ValueError).
  reflexivity.
Defined.

(** Proper pairs fare no better: the constructor is called with two
    arguments and takes one. *)
Lemma mag_table_pairs_example :
  mag_table Demo.env (Some [Demo.point_2000])
            (PList [PTuple [PStr "J"; PStr "2MASS"]]) "phoenix" (NInt 10)
            (Some "mags.txt") Demo.w0
  = (Demo.w0, Raise TypeError).
Proof. reflexivity. Qed.

(** * Further properties of the module *)

(** ** mag2flux: units, sequences, special magnitudes *)

Lemma rbind_ok_inv {A B : Type} (r : result A) (k : A -> result B) (b : B) :
  rbind r k = Ok b -> exists a, r = Ok a /\ k a = Ok b.
Proof.
  destruct r as [ a | e ]; simpl; intros H; [ | discriminate H ].
  exists a. split; [ reflexivity | exact H ].
Qed.

Lemma quantity_to_again (env : Env) (x y : Quantity) (u : unit_t)
      (k : F64.float) :
  quantity_to env x u = Ok y ->
  quantity_to env (mkQuantity k (q_unit y)) u = Ok (mkQuantity k u).
Proof.
  intros H. rewrite (quantity_to_unit env x y u H). apply quantity_to_same.
Qed.

(** X1. Whatever [mag2flux] returns is expressed in the requested unit:
    both the flux and its uncertainty carry [units]. *)
Theorem mag2flux_result_units
        (env : Env) (mag : pyobj) (bp : Bandpass) (units : unit_t)
        (f sig_f : Quantity)
        (Hret : mag2flux env mag bp units = Ok (f, sig_f)) :
  q_unit f = units /\ q_unit sig_f = units.
Proof.
  unfold mag2flux in Hret.
  repeat match type of Hret with
         | rbind _ _ = Ok _ =>
             let a := fresh "a" in
             let Ha := fresh "Ha" in
             apply rbind_ok_inv in Hret; destruct Hret as [ a [ Ha Hret ] ]
         end.
  inversion Hret; subst.
  split; eapply quantity_to_unit; eassumption.
Qed.

Lemma mag2flux_result_units_witness :
  q_unit (mkQuantity (S754_finite false 4958098410142663 (-97)) Demo.flam)
  = Demo.flam
  /\ q_unit (mkQuantity F64.nan Demo.flam) = Demo.flam.
Proof.
  apply (mag2flux_result_units
           Demo.env (PFloat (F64.of_Z 10)) Demo.bandpass_J Demo.flam).
  vm_compute. reflexivity.
Defined.

(** X2. The flux does not depend on the uncertainty: a pair (m, u) of floats
    gives the same flux as the bare float m, and raises exactly when the
    bare float does. *)
Theorem mag2flux_flux_independent_of_uncertainty
        (env : Env) (bp : Bandpass) (units : unit_t) (m u : F64.float) :
  flux_of (mag2flux env (PTuple [PFloat m; PFloat u]) bp units)
  = flux_of (mag2flux env (PFloat m) bp units).
Proof.
  unfold mag2flux.
  destruct (parse_unit env (ZeroPointUnit (svo bp))) as [ zu | ];
    [ simpl | reflexivity ].
  destruct (quantity_to env _ units) as [ zp | ]; [ simpl | reflexivity ].
  destruct (flux_value (Float64 env) (q_value zp) m) as [ fv | ];
    [ simpl | reflexivity ].
  destruct (quantity_to env {| q_value := fv; q_unit := q_unit zp |} units)
    as [ f | ] eqn:Hf; [ simpl | reflexivity ].
  unfold q_div, q_mul; simpl.
  rewrite !(quantity_to_again env _ f units _ Hf).
  reflexivity.
Qed.

(** Inside a pair, integers are accepted: a pair of integers that fit
    in a double is treated as the pair of the corresponding floats
    (whereas a bare integer gets no result). *)
Theorem mag2flux_integer_pair
        (env : Env) (bp : Bandpass) (units : unit_t) (a b : Z)
        (Ha : F64.is_inf (F64.of_Z a) = false)
        (Hb : F64.is_inf (F64.of_Z b) = false) :
  mag2flux env (PTuple [PInt a; PInt b]) bp units
  = mag2flux env (PTuple [PFloat (F64.of_Z a); PFloat (F64.of_Z b)]) bp units.
Proof.
  unfold mag2flux; simpl.
  rewrite Ha, Hb. reflexivity.
Qed.

Lemma mag2flux_integer_pair_witness :
  mag2flux Demo.env (PTuple [PInt 10; PInt 0]) Demo.bandpass_J Demo.flam
  = mag2flux Demo.env (PTuple [PFloat (F64.of_Z 10); PFloat (F64.of_Z 0)])
             Demo.bandpass_J Demo.flam.
Proof.
  apply (mag2flux_integer_pair Demo.env Demo.bandpass_J Demo.flam 10 0);
    reflexivity.
Defined.

(** X3. A sequence with fewer than two entries never yields a result: the
    subscript [mag[0]] or [mag[1]] is out of range. *)
Theorem mag2flux_short_sequence
        (env : Env) (bp : Bandpass) (units : unit_t) (items : list pyobj)
        (Hshort : (List.length items < 2)%nat) :
  is_raise (mag2flux env (PTuple items) bp units) = true
  /\ is_raise (mag2flux env (PList items) bp units) = true.
Proof.
  destruct items as [ | x [ | y rest ] ]; [ | | simpl in Hshort; lia ];
    split; unfold mag2flux;
    (destruct (parse_unit env (ZeroPointUnit (svo bp))) as [ zu | ];
     [ simpl | reflexivity ]);
    (destruct (quantity_to env _ units) as [ zp | ]; [ simpl | reflexivity ]);
    try reflexivity;
    (destruct (as_float x) as [ xf | ]; [ simpl | reflexivity ]);
    (destruct (flux_value (Float64 env) (q_value zp) xf) as [ fv | ];
     [ simpl | reflexivity ]);
    (destruct (quantity_to env _ units); reflexivity).
Qed.

Lemma mag2flux_short_sequence_witness :
  mag2flux Demo.env (PTuple [PFloat (F64.of_Z 10)]) Demo.bandpass_J Demo.flam
  = Raise IndexError
  /\ is_raise (mag2flux Demo.env (PTuple [PFloat (F64.of_Z 10)])
                        Demo.bandpass_J Demo.flam) = true.
Proof.
  split; [ vm_compute; reflexivity | ].
  apply (mag2flux_short_sequence
           Demo.env Demo.bandpass_J Demo.flam [PFloat (F64.of_Z 10)]).
  simpl. lia.
Defined.

Lemma mul_nan_l (x : F64.float) : F64.mul F64.nan x = F64.nan.
Proof. reflexivity. Qed.

(** X4. Magnitudes that are not finite.  Once the zero point converts, a
    magnitude of plus infinity gives a zero flux for a finite zero point
    (and NaN otherwise), and a NaN magnitude gives a NaN flux; the
    uncertainty of a bare magnitude stays NaN. *)
Theorem mag2flux_non_finite_magnitude
        (env : Env) (bp : Bandpass) (units : unit_t) (zu : unit_t)
        (zp : Quantity)
        (Hparse : parse_unit env (ZeroPointUnit (svo bp)) = Ok zu)
        (Hzp : quantity_to env (mkQuantity (ZeroPoint (svo bp)) zu) units
               = Ok zp) :
  mag2flux env (PFloat F64.inf) bp units
  = Ok (mkQuantity (if F64.is_finite (q_value zp)
                    then S754_zero (F64.signbit (q_value zp))
                    else F64.nan) units,
        mkQuantity F64.nan units)
  /\ mag2flux env (PFloat F64.nan) bp units
     = Ok (mkQuantity F64.nan units, mkQuantity F64.nan units).
Proof.
  pose proof (quantity_to_unit _ _ _ _ Hzp) as Hunit.
  split; unfold mag2flux; rewrite Hparse; simpl; rewrite Hzp; simpl;
    unfold flux_value; simpl; rewrite Hunit, quantity_to_same; simpl;
    unfold q_div, q_mul; simpl; rewrite quantity_to_same.
  - rewrite mul_nan_r.
    change (S754_zero false) with F64.zero.
    unfold F64.zero. rewrite mul_zero_r, xorb_false_r. reflexivity.
  - rewrite !mul_nan_r. reflexivity.
Qed.

Lemma mag2flux_non_finite_magnitude_witness :
  mag2flux Demo.env (PFloat F64.inf) Demo.bandpass_J Demo.flam
  = Ok (mkQuantity F64.zero Demo.flam, mkQuantity F64.nan Demo.flam)
  /\ mag2flux Demo.env (PFloat F64.nan) Demo.bandpass_J Demo.flam
     = Ok (mkQuantity F64.nan Demo.flam, mkQuantity F64.nan Demo.flam).
Proof.
  apply (mag2flux_non_finite_magnitude
           Demo.env Demo.bandpass_J Demo.flam Demo.flam
           (mkQuantity (ZeroPoint Demo.filter_J) Demo.flam));
    reflexivity.
Defined.

(** ** class Bandpass: construction and the unit invariant *)

(** X5. A bandpass that [Bandpass(name)] builds from the registry's
    filter has the name it was asked for; its wavelengths are the
    registry's, each multiplied by 10000 and rounded in the element type of
    the registry's array; its throughput is the registry's; the filter it
    keeps is the registry's with the wavelengths rescaled in the same way;
    its effective wavelength is the pivot of its own arrays, in angstroms,
    its current unit. *)
Theorem Bandpass_init_establishes
        (env : Env) (name : pyobj) (bp : Bandpass)
        (Hinit : Bandpass_init env name = Ok bp) :
  exists filt : SvoFilter,
    name = PStr (bp_name bp)
    /\ svo_Filter env (bp_name bp) = Ok filt
    /\ wave bp
       = map (fun w => dtype_mul (rsr_dtype filt) w F64.c10000) (rsr_wave filt)
    /\ throughput bp = rsr_thru filt
    /\ svo bp
       = {| rsr_dtype := rsr_dtype filt;
            rsr_wave := wave bp;
            rsr_thru := rsr_thru filt;
            ZeroPoint := ZeroPoint filt;
            ZeroPointUnit := ZeroPointUnit filt |}
    /\ eff bp = mkQuantity (pivot env (wave bp) (throughput bp)) AA
    /\ get_wave_units bp = AA
    /\ waveunits bp = "Angstrom"
    /\ eff_in_current_unit bp.
Proof.
  destruct name; try discriminate Hinit.
  simpl in Hinit.
  destruct (svo_Filter env s) as [ filt | ] eqn:Hfilt; [ | discriminate Hinit ].
  simpl in Hinit. inversion Hinit; subst; simpl.
  exists filt. repeat split; try reflexivity. exact Hfilt.
Qed.

Lemma Bandpass_init_establishes_witness :
  exists filt : SvoFilter,
    PStr "J" = PStr (bp_name Demo.bandpass_J)
    /\ svo_Filter Demo.env (bp_name Demo.bandpass_J) = Ok filt
    /\ wave Demo.bandpass_J
       = map (fun w => dtype_mul (rsr_dtype filt) w F64.c10000) (rsr_wave filt)
    /\ throughput Demo.bandpass_J = rsr_thru filt
    /\ svo Demo.bandpass_J
       = {| rsr_dtype := rsr_dtype filt;
            rsr_wave := wave Demo.bandpass_J;
            rsr_thru := rsr_thru filt;
            ZeroPoint := ZeroPoint filt;
            ZeroPointUnit := ZeroPointUnit filt |}
    /\ eff Demo.bandpass_J
       = mkQuantity (pivot Demo.env (wave Demo.bandpass_J)
                           (throughput Demo.bandpass_J)) AA
    /\ get_wave_units Demo.bandpass_J = AA
    /\ waveunits Demo.bandpass_J = "Angstrom"
    /\ eff_in_current_unit Demo.bandpass_J.
Proof.
  apply (Bandpass_init_establishes Demo.env (PStr "J") Demo.bandpass_J).
  reflexivity.
Defined.

(** The wavelengths 1.125, 1.25 and 1.375 micrometers of the registry
    become 11250, 12500 and 13750 angstroms, in the bandpass and in the
    filter it keeps. *)
Example Bandpass_init_rescales :
  wave Demo.bandpass_J
  = [F64.of_Z 11250; F64.of_Z 12500; F64.of_Z 13750]
  /\ rsr_wave (svo Demo.bandpass_J) = wave Demo.bandpass_J
  /\ rsr_wave Demo.filter_J <> rsr_wave (svo Demo.bandpass_J).
Proof.
  split; [ | split ].
  - vm_compute. reflexivity.
  - reflexivity.
  - vm_compute. discriminate.
Qed.

(** X6. A successful assignment to [wave_units] records the new unit,
    leaves the effective wavelength expressed in it, names it as the unit
    of the wavelength array, and keeps name, throughput and filter.  The
    unit is of an accepted class and converts to micrometers. *)
Theorem set_wave_units_success
        (env : Env) (self self' : Bandpass) (v : pyobj)
        (Hset : set_wave_units env self v = (self', Ok tt)) :
  exists u : unit_t,
    v = PUnit u
    /\ accepted_unit_class (u_class u) = true
    /\ is_raise (unit_to env u um) = false
    /\ get_wave_units self' = u
    /\ q_unit (eff self') = u
    /\ waveunits self' = u_str u
    /\ convert_wave env (wave self) (waveunits self) (u_str u)
       = Ok (wave self')
    /\ bp_name self' = bp_name self
    /\ throughput self' = throughput self
    /\ svo self' = svo self.
Proof.
  unfold set_wave_units in Hset.
  destruct v; try discriminate Hset.
  destruct (accepted_unit_class (u_class u)) eqn:Hclass; [ | discriminate Hset ].
  destruct (unit_to env u um) eqn:Hto; [ | discriminate Hset ].
  unfold convert in Hset.
  destruct (convert_wave env (wave self) (waveunits self) (u_str u))
    as [ w | ] eqn:Hconv; simpl in Hset; [ | discriminate Hset ].
  destruct (quantity_to env (eff self) u) as [ eff' | ] eqn:Heff;
    [ | discriminate Hset ].
  inversion Hset; subst; simpl.
  exists u. repeat split; try reflexivity; try assumption.
  - rewrite Hto. reflexivity.
  - eapply quantity_to_unit; eassumption.
Qed.

Lemma set_wave_units_success_witness :
  exists u : unit_t,
    PUnit um = PUnit u
    /\ accepted_unit_class (u_class u) = true
    /\ is_raise (unit_to Demo.env u um) = false
    /\ get_wave_units (fst (set_wave_units Demo.env Demo.bandpass_J (PUnit um)))
       = u
    /\ q_unit (eff (fst (set_wave_units Demo.env Demo.bandpass_J (PUnit um))))
       = u
    /\ waveunits (fst (set_wave_units Demo.env Demo.bandpass_J (PUnit um)))
       = u_str u
    /\ convert_wave Demo.env (wave Demo.bandpass_J)
                    (waveunits Demo.bandpass_J) (u_str u)
       = Ok (wave (fst (set_wave_units Demo.env Demo.bandpass_J (PUnit um))))
    /\ bp_name (fst (set_wave_units Demo.env Demo.bandpass_J (PUnit um)))
       = bp_name Demo.bandpass_J
    /\ throughput (fst (set_wave_units Demo.env Demo.bandpass_J (PUnit um)))
       = throughput Demo.bandpass_J
    /\ svo (fst (set_wave_units Demo.env Demo.bandpass_J (PUnit um)))
       = svo Demo.bandpass_J.
Proof.
  apply (set_wave_units_success Demo.env Demo.bandpass_J).
  vm_compute. reflexivity.
Defined.

(** X7. An assignment that raises never changes the recorded unit, the
    effective wavelength, the name, the throughput or the filter; and when
    it raises [TypeError] the instance is left exactly as it was. *)
Theorem set_wave_units_failure
        (env : Env) (self : Bandpass) (v : pyobj) (e : exn)
        (Hset : snd (set_wave_units env self v) = Raise e) :
  get_wave_units (fst (set_wave_units env self v)) = get_wave_units self
  /\ eff (fst (set_wave_units env self v)) = eff self
  /\ bp_name (fst (set_wave_units env self v)) = bp_name self
  /\ throughput (fst (set_wave_units env self v)) = throughput self
  /\ svo (fst (set_wave_units env self v)) = svo self
  /\ (fst (set_wave_units env self v) = self \/ e = UnitConversionError).
Proof.
  revert Hset. unfold set_wave_units.
  destruct v; simpl; try (intros _; repeat split; auto; fail).
  destruct (accepted_unit_class (u_class u)); simpl;
    [ | intros _; repeat split; auto ].
  destruct (unit_to env u um); simpl; [ | intros _; repeat split; auto ].
  unfold convert.
  destruct (convert_wave env (wave self) (waveunits self) (u_str u))
    as [ w | ]; simpl; [ | intros _; repeat split; auto ].
  unfold quantity_to.
  destruct (unit_eqb (q_unit (eff self)) u); simpl; [ discriminate | ].
  destruct (unit_scale env (q_unit (eff self)) u); simpl; [ discriminate | ].
  intros H; inversion H; subst. repeat split; auto.
Qed.

Lemma set_wave_units_failure_witness :
  get_wave_units (fst (set_wave_units Demo.env Demo.bandpass_J (PUnit Demo.Jy)))
  = get_wave_units Demo.bandpass_J
  /\ eff (fst (set_wave_units Demo.env Demo.bandpass_J (PUnit Demo.Jy)))
     = eff Demo.bandpass_J
  /\ bp_name (fst (set_wave_units Demo.env Demo.bandpass_J (PUnit Demo.Jy)))
     = bp_name Demo.bandpass_J
  /\ throughput (fst (set_wave_units Demo.env Demo.bandpass_J (PUnit Demo.Jy)))
     = throughput Demo.bandpass_J
  /\ svo (fst (set_wave_units Demo.env Demo.bandpass_J (PUnit Demo.Jy)))
     = svo Demo.bandpass_J
  /\ (fst (set_wave_units Demo.env Demo.bandpass_J (PUnit Demo.Jy))
      = Demo.bandpass_J \/ TypeError = UnitConversionError).
Proof.
  apply (set_wave_units_failure Demo.env Demo.bandpass_J (PUnit Demo.Jy)
                                TypeError).
  reflexivity.
Defined.

(** X8. The invariant of the class: if the effective wavelength is in the
    current unit before an assignment to [wave_units], it is so afterwards,
    whether the assignment succeeds or raises. *)
Theorem set_wave_units_keeps_invariant
        (env : Env) (self : Bandpass) (v : pyobj)
        (Hinv : eff_in_current_unit self) :
  eff_in_current_unit (fst (set_wave_units env self v)).
Proof.
  unfold eff_in_current_unit in *. unfold set_wave_units.
  destruct v; simpl; try exact Hinv.
  destruct (accepted_unit_class (u_class u)); simpl; [ | exact Hinv ].
  destruct (unit_to env u um); simpl; [ | exact Hinv ].
  unfold convert.
  destruct (convert_wave env (wave self) (waveunits self) (u_str u))
    as [ w | ]; simpl; [ | exact Hinv ].
  destruct (quantity_to env (eff self) u) as [ eff' | ] eqn:Heff; simpl.
  - eapply quantity_to_unit; eassumption.
  - exact Hinv.
Qed.

Lemma set_wave_units_keeps_invariant_witness :
  eff_in_current_unit Demo.bandpass_J
  /\ eff_in_current_unit
       (fst (set_wave_units Demo.env Demo.bandpass_J (PUnit um))).
Proof.
  split; [ reflexivity | ].
  apply (set_wave_units_keeps_invariant Demo.env Demo.bandpass_J (PUnit um)).
  reflexivity.
Defined.

(** A unit of the class of irreducible units, such as the meter or the
    second, is refused with [TypeError] even when it is a length: the class
    test comes first and does not list that class. *)
Theorem set_wave_units_rejects_irreducible
        (env : Env) (self : Bandpass) (u : unit_t)
        (Hclass : u_class u = C_IrreducibleUnit) :
  set_wave_units env self (PUnit u) = (self, Raise TypeError).
Proof.
  unfold set_wave_units. rewrite Hclass. reflexivity.
Qed.

Lemma set_wave_units_rejects_irreducible_witness :
  unit_to Demo.env Demo.meter um = Ok (Demo.pow10_Z 6)
  /\ set_wave_units Demo.env Demo.bandpass_J (PUnit Demo.meter)
     = (Demo.bandpass_J, Raise TypeError).
Proof.
  split; [ reflexivity | ].
  apply (set_wave_units_rejects_irreducible
           Demo.env Demo.bandpass_J Demo.meter).
  reflexivity.
Defined.

(** ** Strings: splitting and suffixes *)

Lemma append_nil_r (s : string) : s ++ "" = s.
Proof. induction s as [ | c s IH ]; simpl; [ | rewrite IH ]; reflexivity. Qed.

Lemma append_assoc (a b c : string) : (a ++ b) ++ c = a ++ (b ++ c).
Proof. induction a as [ | d a IH ]; simpl; [ | rewrite IH ]; reflexivity. Qed.

Lemma rev_aux_append (s acc : string) :
  Str.rev_aux s acc = Str.rev_aux s "" ++ acc.
Proof.
  revert acc. induction s as [ | c s IH ]; intros acc; simpl.
  - reflexivity.
  - rewrite (IH (String c acc)), (IH (String c "")), append_assoc.
    reflexivity.
Qed.

Lemma rev_append (s t : string) : Str.rev (s ++ t) = Str.rev t ++ Str.rev s.
Proof.
  unfold Str.rev.
  induction s as [ | c s IH ]; simpl.
  - rewrite append_nil_r. reflexivity.
  - rewrite (rev_aux_append (s ++ t) (String c "")), IH,
      (rev_aux_append s (String c "")), append_assoc.
    reflexivity.
Qed.

Lemma prefix_append (a b : string) : String.prefix a (a ++ b) = true.
Proof.
  induction a as [ | c a IH ]; simpl.
  - destruct b; reflexivity.
  - destruct (ascii_dec c c) as [ _ | Hneq ]; [ exact IH | congruence ].
Qed.

Lemma endswith_append (s suffix : string) :
  Str.endswith (s ++ suffix) suffix = true.
Proof.
  unfold Str.endswith. rewrite rev_append. apply prefix_append.
Qed.

Lemma split_not_nil (c : ascii) (s : string) : Str.split c s <> [].
Proof.
  destruct s as [ | d s ]; simpl; [ discriminate | ].
  destruct (Ascii.eqb c d); [ discriminate | ].
  destruct (Str.split c s); discriminate.
Qed.

(** The first piece of a split holds no separator, and the string starts
    with it. *)
Lemma split_head (c : ascii) (s : string) :
  Str.contains_char c (hd "" (Str.split c s)) = false
  /\ (Str.contains_char c s = true ->
      exists rest, s = hd "" (Str.split c s) ++ String c rest).
Proof.
  induction s as [ | d s [ IHno IHdec ] ]; simpl.
  - split; [ reflexivity | discriminate ].
  - destruct (Ascii.eqb c d) eqn:Hcd; simpl.
    + split; [ reflexivity | ].
      intros _. apply Ascii.eqb_eq in Hcd. subst d. exists s. reflexivity.
    + pose proof (split_not_nil c s) as Hne.
      destruct (Str.split c s) as [ | piece rest ]; [ congruence | ].
      simpl in *. rewrite Hcd. simpl.
      split; [ exact IHno | ].
      intros Hin. destruct (IHdec Hin) as [ tail Htail ].
      exists tail. rewrite Htail at 1. reflexivity.
Qed.

Lemma split_no_separator (c : ascii) (s : string) :
  Str.contains_char c s = false -> Str.split c s = [s].
Proof.
  induction s as [ | d s IH ]; simpl; intros H.
  - reflexivity.
  - apply orb_false_iff in H. destruct H as [ Hcd Hs ].
    rewrite Hcd, (IH Hs). reflexivity.
Qed.

(** [(a + c + b).split(c) == a.split(c) + b.split(c)]. *)
Lemma split_append (c : ascii) (a b : string) :
  Str.split c (a ++ String c b) = (Str.split c a ++ Str.split c b)%list.
Proof.
  induction a as [ | d a IH ]; simpl.
  - rewrite Ascii.eqb_refl. reflexivity.
  - destruct (Ascii.eqb c d).
    + rewrite IH. reflexivity.
    + rewrite IH.
      pose proof (split_not_nil c a) as Hne.
      destruct (Str.split c a) as [ | piece rest ]; [ congruence | ].
      reflexivity.
Qed.

(** ** mag_table: the last statement *)

(** X9. The last statement of [mag_table] does exactly one of four
    things.  It returns the table and writes nothing; or it writes the table
    to one file whose name ends in [.csv], replacing any file of that name,
    and returns nothing; or the write to that name raises, and the
    exception leaves the call with nothing written; or, when [save] is
    [None], it raises [TypeError] and writes nothing.  It never prints. *)
Theorem save_or_return_outcomes
        (env : Env) (save : option string) (tb : Table.t) (w : world) :
  stdout (fst (save_or_return env save tb w)) = stdout w
  /\ match snd (save_or_return env save tb w) with
     | Ok (Some tb') => tb' = tb /\ fst (save_or_return env save tb w) = w
     | Ok None =>
         exists path',
           Str.endswith path' ".csv" = true
           /\ write_error env path' = None
           /\ files (fst (save_or_return env save tb w))
              = (path', tb)
                  :: filter (fun f => negb (String.eqb (fst f) path'))
                            (files w)
     | Raise e =>
         fst (save_or_return env save tb w) = w
         /\ ((save = None /\ e = TypeError)
             \/ exists path',
                  Str.endswith path' ".csv" = true
                  /\ write_error env path' = Some e)
     end.
Proof.
  unfold save_or_return.
  destruct save as [ path | ]; [ | simpl; auto ].
  destruct (path_exists env (OsPath.dirname path)
            && Str.contains_char Str.dot path); [ | simpl; auto ].
  set (path' := if Str.endswith path ".csv" then path
                else (hd "" (Str.split Str.dot path) ++ ".csv")%string).
  assert (Hcsv : Str.endswith path' ".csv" = true).
  { unfold path'. destruct (Str.endswith path ".csv") eqn:H;
      [ exact H | apply endswith_append ]. }
  unfold bind, write_file.
  destruct (write_error env path') as [ e | ] eqn:Herr; simpl.
  - split; [ reflexivity | split; [ reflexivity | right ] ].
    exists path'. split; [ exact Hcsv | exact Herr ].
  - split; [ reflexivity | ].
    exists path'. split; [ exact Hcsv | split; [ exact Herr | reflexivity ] ].
Qed.

(** X10. When the table is saved under a path that does not end in
    [.csv], the file name is the text before the first dot of the whole
    path, followed by [.csv]: whatever follows that dot is dropped, also
    when the dot belongs to a directory name.  The table is written under
    that name, unless the write raises. *)
Theorem save_or_return_coerced_name
        (env : Env) (path : string) (tb : Table.t) (w : world)
        (Hdir : path_exists env (OsPath.dirname path) = true)
        (Hdot : Str.contains_char Str.dot path = true)
        (Hcsv : Str.endswith path ".csv" = false) :
  exists stem rest : string,
    path = stem ++ String Str.dot rest
    /\ Str.contains_char Str.dot stem = false
    /\ save_or_return env (Some path) tb w
       = match write_error env (stem ++ ".csv") with
         | Some e => (w, Raise e)
         | None =>
             (mkWorld (stdout w)
                      ((stem ++ ".csv", tb)
                         :: filter (fun f =>
                                      negb (String.eqb (fst f)
                                                       (stem ++ ".csv")))
                                   (files w)),
              Ok None)
         end.
Proof.
  destruct (split_head Str.dot path) as [ Hno Hdec ].
  destruct (Hdec Hdot) as [ rest Hrest ].
  exists (hd "" (Str.split Str.dot path)), rest.
  split; [ exact Hrest | split; [ exact Hno | ] ].
  unfold save_or_return. rewrite Hdir, Hdot, Hcsv.
  unfold bind, write_file.
  destruct (write_error env _); reflexivity.
Qed.

Lemma save_or_return_coerced_name_witness :
  exists stem rest : string,
    "/tmp/v1.2/mags.txt" = stem ++ String Str.dot rest
    /\ Str.contains_char Str.dot stem = false
    /\ save_or_return Demo2.env_tmp
         (Some "/tmp/v1.2/mags.txt") (grid_table [Demo.point_2000]) Demo.w0
       = match write_error Demo2.env_tmp (stem ++ ".csv") with
         | Some e => (Demo.w0, Raise e)
         | None =>
             (mkWorld (stdout Demo.w0)
                      ((stem ++ ".csv", grid_table [Demo.point_2000])
                         :: filter (fun f =>
                                      negb (String.eqb (fst f)
                                                       (stem ++ ".csv")))
                                   (files Demo.w0)),
              Ok None)
         end.
Proof.
  apply (save_or_return_coerced_name
           Demo2.env_tmp
           "/tmp/v1.2/mags.txt" (grid_table [Demo.point_2000]) Demo.w0);
    reflexivity.
Defined.

(** The table of the witness is written as [/tmp/v1.csv].  Saved as
    [/tmp/x.csv/mags.txt], with [/tmp/x.csv] a directory, it is to be
    written over that directory: the write raises and nothing is written. *)
Example save_or_return_write_examples :
  save_or_return Demo2.env_tmp (Some "/tmp/v1.2/mags.txt")
                 (grid_table [Demo.point_2000]) Demo.w0
  = (mkWorld [] [("/tmp/v1.csv", grid_table [Demo.point_2000])], Ok None)
  /\ save_or_return Demo2.env_tmp (Some "/tmp/x.csv/mags.txt")
                    (grid_table [Demo.point_2000]) Demo.w0
     = (Demo.w0, Raise Demo2.IsADirectoryError).
Proof. split; reflexivity. Qed.

(** The path of the witness loses its directory: it is written as
    [/tmp/v1.csv]. *)
Example save_or_return_coerced_example :
  hd "" (Str.split Str.dot "/tmp/v1.2/mags.txt") ++ ".csv" = "/tmp/v1.csv".
Proof. reflexivity. Qed.

(** ** mag_table: the bandpasses *)

Lemma mapM_length {A B : Type} (f : A -> result B) (l : list A) (out : list B) :
  mapM f l = Ok out -> List.length out = List.length l.
Proof.
  revert out. induction l as [ | a l IH ]; simpl; intros out H.
  - inversion H. reflexivity.
  - destruct (f a) as [ b | ]; [ simpl in H | discriminate H ].
    destruct (mapM f l) as [ bs | ]; [ simpl in H | discriminate H ].
    inversion H. simpl. rewrite (IH bs eq_refl). reflexivity.
Qed.

Lemma make_bandpasses_cons_raises
      (env : Env) (x : pyobj) (rest : list pyobj) :
  exists e, make_bandpasses env (x :: rest) = Raise e.
Proof.
  destruct (make_bandpasses env (x :: rest)) as [ bps | e ] eqn:H.
  - apply make_bandpasses_ok_nil in H. destruct H as [ H _ ]. discriminate H.
  - exists e. reflexivity.
Qed.

(** X11. A call with a non-empty list or tuple of bandpasses always
    raises, before anything is printed or written: each element is either
    not a pair, or is passed on as two arguments to [Bandpass], whose
    constructor takes one. *)
Theorem mag_table_nonempty_bandpasses_raise
        (env : Env) (spectra : option (list triple)) (x : pyobj)
        (rest : list pyobj) (models : string) (jmag : pynum)
        (save : option string) (w : world) :
  (exists e,
      mag_table env spectra (PList (x :: rest)) models jmag save w
      = (w, Raise e))
  /\ (exists e,
         mag_table env spectra (PTuple (x :: rest)) models jmag save w
         = (w, Raise e)).
Proof.
  destruct (make_bandpasses_cons_raises env x rest) as [ e0 He0 ].
  split; unfold mag_table;
    (destruct (ObsBandpass env "j") as [ jband | e ];
     [ | exists e; reflexivity ]);
    rewrite bind_lift_ok;
    (destruct (resolve_spectra spectra) as [ grid | e ];
     [ | exists e; reflexivity ]);
    rewrite bind_lift_ok; simpl discover; rewrite bind_lift_ok, He0;
    exists e0; reflexivity.
Qed.

(** X12. A bandpass argument that is neither a list, a tuple nor the name
    of an existing directory makes the call print its request for a list
    of (filter, instrument) tuples and return nothing; no grid point is
    processed and no file is written. *)
Theorem mag_table_rejects_other_bandpasses
        (env : Env) (spectra : option (list triple)) (bandpasses : pyobj)
        (models : string) (jmag : pynum) (save : option string) (w : world)
        (jband : Spectrum) (grid : list triple)
        (Hj : ObsBandpass env "j" = Ok jband)
        (Hg : resolve_spectra spectra = Ok grid)
        (Hseq : is_sequence bandpasses = false)
        (Hdir : match bandpasses with
                | PStr dir => path_exists env dir
                | _ => false
                end = false) :
  mag_table env spectra bandpasses models jmag save w
  = (mkWorld (stdout w ++ [OutPleaseProvide]) (files w), Ok None).
Proof.
  unfold mag_table. rewrite Hj, bind_lift_ok, Hg, bind_lift_ok.
  destruct bandpasses; try discriminate Hseq; simpl discover;
    try (rewrite bind_lift_ok; reflexivity).
  rewrite Hdir, bind_lift_ok. reflexivity.
Qed.

Lemma mag_table_rejects_other_bandpasses_witness :
  mag_table Demo.env (Some [Demo.point_2000]) (PStr "J") "phoenix" (NInt 10)
            (Some "/tmp/mags.csv") Demo.w0
  = (mkWorld [OutPleaseProvide] [], Ok None).
Proof.
  apply (mag_table_rejects_other_bandpasses
           Demo.env (Some [Demo.point_2000]) (PStr "J") "phoenix" (NInt 10)
           (Some "/tmp/mags.csv") Demo.w0 Demo.jband [Demo.point_2000]);
    reflexivity.
Defined.

Lemma split_last_piece (c : ascii) (x y : string) :
  Str.contains_char c y = false ->
  exists before lastp,
    Str.split c (x ++ y) = (before ++ [(lastp ++ y)%string])%list.
Proof.
  intros Hy.
  induction x as [ | d x [ before [ lastp IH ] ] ]; simpl.
  - exists [], "". simpl. apply split_no_separator. exact Hy.
  - destruct (Ascii.eqb c d).
    + exists ("" :: before), lastp. rewrite IH. reflexivity.
    + rewrite IH. destruct before as [ | b0 bs ]; simpl.
      * exists [], (String d lastp). reflexivity.
      * exists (String d b0 :: bs), lastp. reflexivity.
Qed.

Lemma list_getitem_neg_app {A : Type} (l r : list A) (k : nat) :
  (1 <= k <= List.length r)%nat ->
  list_getitem_neg (l ++ r) k = list_getitem_neg r k.
Proof.
  intros [ H1 Hk ].
  unfold list_getitem_neg, list_getitem.
  rewrite length_app.
  replace (Nat.leb 1 k) with true by (symmetry; apply Nat.leb_le; exact H1).
  replace (Nat.leb k (List.length l + List.length r)) with true
    by (symmetry; apply Nat.leb_le; lia).
  replace (Nat.leb k (List.length r)) with true
    by (symmetry; apply Nat.leb_le; exact Hk).
  simpl.
  rewrite nth_error_app2 by lia.
  replace (List.length l + List.length r - k - List.length l)%nat
    with (List.length r - k)%nat by lia.
  reflexivity.
Qed.

Lemma mapM_map_ok {A B C : Type} (P : A -> Prop) (f : B -> result C)
      (g : A -> B) (h : A -> C) (l : list A) :
  (forall a, P a -> f (g a) = Ok (h a)) ->
  Forall P l ->
  mapM f (map g l) = Ok (map h l).
Proof.
  intros Hf Hl. induction Hl as [ | a l Ha _ IH ]; simpl.
  - reflexivity.
  - rewrite (Hf a Ha), IH. reflexivity.
Qed.

(** The dot-separated pieces of a file name that follows the convention. *)
Lemma filter_file_pieces (f : filter_file) :
  filter_file_ok f = true ->
  exists before lastp,
    Str.split Str.dot (filter_file_path f)
    = (before
         ++ [(lastp ++ String Str.underscore (ff_instrument f))%string;
             ff_filter f; ff_a f; ff_b f])%list.
Proof.
  unfold filter_file_ok, filter_file_path.
  intros Hok.
  apply andb_prop in Hok. destruct Hok as [ Hok Hb ].
  apply andb_prop in Hok. destruct Hok as [ Hok Ha ].
  apply andb_prop in Hok. destruct Hok as [ Hok Hf ].
  apply andb_prop in Hok. destruct Hok as [ Hid Hiu ].
  apply negb_true_iff in Hb, Ha, Hf, Hid, Hiu.
  assert (Hy : Str.contains_char Str.dot
                 (String Str.underscore (ff_instrument f)) = false).
  { simpl. exact Hid. }
  destruct (split_last_piece Str.dot (ff_prefix f) _ Hy)
    as [ before [ lastp Hsplit ] ].
  exists before, lastp.
  replace (ff_prefix f ++
           String Str.underscore
             (ff_instrument f ++
              String Str.dot
                (ff_filter f ++ String Str.dot (ff_a f ++ String Str.dot (ff_b f)))))
    with ((ff_prefix f ++ String Str.underscore (ff_instrument f)) ++
          String Str.dot
            (ff_filter f ++ String Str.dot (ff_a f ++ String Str.dot (ff_b f)))).
  - rewrite !split_append, Hsplit.
    rewrite (split_no_separator _ _ Hf), (split_no_separator _ _ Ha),
      (split_no_separator _ _ Hb).
    rewrite <- app_assoc. reflexivity.
  - rewrite append_assoc. reflexivity.
Qed.

(** X13. Directory discovery decodes the naming convention: for a
    directory whose files are all named
    [<prefix>_<instrument>.<filter>.<a>.<b>], with no dot inside the
    instrument, the filter, [a] and [b] and no underscore inside the
    instrument, the bandpasses become the list of (filter, instrument)
    tuples, in the order of the files. *)
Theorem discover_decodes_file_names
        (env : Env) (dir : string) (fs : list filter_file)
        (Hdir : path_exists env dir = true)
        (Hglob : glob env (OsPath.join dir "*") = map filter_file_path fs)
        (Hok : forallb filter_file_ok fs = true) :
  discover env (PStr dir)
  = Ok (PList (map (fun f => PTuple [PStr (ff_filter f);
                                     PStr (ff_instrument f)]) fs)).
Proof.
  unfold discover. rewrite Hdir, Hglob.
  erewrite (mapM_map_ok (fun f => filter_file_ok f = true)).
  - reflexivity.
  - intros f Hf.
    destruct (filter_file_pieces f Hf) as [ before [ lastp Hpieces ] ].
    rewrite Hpieces.
    rewrite (list_getitem_neg_app before _ 3) by (simpl; lia).
    rewrite (list_getitem_neg_app before _ 4) by (simpl; lia).
    simpl.
    apply andb_prop in Hf. destruct Hf as [ Hf _ ].
    apply andb_prop in Hf. destruct Hf as [ Hf _ ].
    apply andb_prop in Hf. destruct Hf as [ Hf _ ].
    apply andb_prop in Hf. destruct Hf as [ _ Hiu ].
    apply negb_true_iff in Hiu.
    rewrite split_append, (split_no_separator _ _ Hiu).
    rewrite (list_getitem_neg_app _ [ff_instrument f] 1) by (simpl; lia).
    reflexivity.
  - apply Forall_forall. intros f Hin.
    rewrite forallb_forall in Hok. apply Hok. exact Hin.
Qed.

Lemma discover_decodes_file_names_witness :
  discover Demo2.env_dir (PStr "filters")
  = Ok (PList [PTuple [PStr "J"; PStr "2MASS"]]).
Proof.
  apply (discover_decodes_file_names
           Demo2.env_dir "filters" [Demo2.file_J]);
    reflexivity.
Defined.

Lemma list_getitem_neg_error {A : Type} (l : list A) (k : nat) (e : exn) :
  list_getitem_neg l k = Raise e -> e = IndexError.
Proof.
  unfold list_getitem_neg, list_getitem.
  destruct (Nat.leb 1 k && Nat.leb k (List.length l))%bool.
  - destruct (nth_error l (List.length l - k)); intros H; inversion H;
      reflexivity.
  - intros H; inversion H; reflexivity.
Qed.

Lemma list_getitem_neg_short {A : Type} (l : list A) (k : nat) :
  (List.length l < k)%nat -> list_getitem_neg l k = Raise IndexError.
Proof.
  intros H. unfold list_getitem_neg.
  replace (Nat.leb k (List.length l)) with false
    by (symmetry; apply Nat.leb_gt; exact H).
  rewrite andb_false_r. reflexivity.
Qed.

Lemma mapM_first_error {A B : Type} (f : A -> result B) (l : list A)
      (e0 : exn) :
  (forall a e, f a = Raise e -> e = e0) ->
  existsb (fun a => is_raise (f a)) l = true ->
  mapM f l = Raise e0.
Proof.
  intros Hf. induction l as [ | a l IH ]; simpl; intros Hex.
  - discriminate Hex.
  - destruct (f a) as [ b | e ] eqn:Hfa; simpl in *.
    + rewrite (IH Hex). reflexivity.
    + rewrite (Hf a e Hfa). reflexivity.
Qed.

(** X14. Directory discovery needs three dots in every path: when some
    file of an existing directory splits into fewer than four
    dot-separated pieces, the resolution of the bandpasses raises
    [IndexError]. *)
Theorem discover_short_file_name
        (env : Env) (dir : string)
        (Hdir : path_exists env dir = true)
        (Hshort : existsb (fun p => Nat.ltb (List.length (Str.split Str.dot p)) 4)
                          (glob env (OsPath.join dir "*")) = true) :
  discover env (PStr dir) = Raise IndexError.
Proof.
  unfold discover. rewrite Hdir.
  match goal with
  | |- context [ mapM ?g _ ] => set (parse := g)
  end.
  rewrite (mapM_first_error parse _ IndexError); [ reflexivity | | ].
  - intros p e. unfold parse.
    destruct (list_getitem_neg (Str.split Str.dot p) 3) as [ a | e1 ] eqn:H3;
      simpl; [ | intros H; inversion H; subst;
                 eapply list_getitem_neg_error; eassumption ].
    destruct (list_getitem_neg (Str.split Str.dot p) 4) as [ b | e1 ] eqn:H4;
      simpl; [ | intros H; inversion H; subst;
                 eapply list_getitem_neg_error; eassumption ].
    destruct (list_getitem_neg (Str.split Str.underscore b) 1)
      as [ c | e1 ] eqn:H1;
      simpl; [ discriminate | intros H; inversion H; subst;
                              eapply list_getitem_neg_error; eassumption ].
  - induction (glob env (OsPath.join dir "*")) as [ | p ps IH ];
      [ discriminate Hshort | ].
    simpl in Hshort |- *.
    apply orb_true_iff in Hshort. apply orb_true_iff.
    destruct Hshort as [ Hp | Hps ]; [ left | right; exact (IH Hps) ].
    apply Nat.ltb_lt in Hp. unfold parse.
    destruct (list_getitem_neg (Str.split Str.dot p) 3) as [ a | e1 ];
      simpl; [ | reflexivity ].
    rewrite (list_getitem_neg_short _ 4 Hp). reflexivity.
Qed.

Lemma discover_short_file_name_witness :
  discover
    Demo2.env_short
    (PStr "filters")
  = Raise IndexError.
Proof.
  apply (discover_short_file_name
           Demo2.env_short "filters");
    reflexivity.
Defined.

(** X15. A call on a directory that holds at least one file always
    raises, before anything is printed or written: either a file name does
    not split into enough pieces, or the tuples made from the names are
    passed on to [Bandpass] as two arguments. *)
Theorem mag_table_directory_with_files_raises
        (env : Env) (spectra : option (list triple)) (dir : string)
        (models : string) (jmag : pynum) (save : option string) (w : world)
        (Hdir : path_exists env dir = true)
        (Hfiles : glob env (OsPath.join dir "*") <> []) :
  exists e,
    mag_table env spectra (PStr dir) models jmag save w = (w, Raise e).
Proof.
  unfold mag_table.
  destruct (ObsBandpass env "j") as [ jband | e ]; [ | exists e; reflexivity ].
  rewrite bind_lift_ok.
  destruct (resolve_spectra spectra) as [ grid | e ];
    [ | exists e; reflexivity ].
  rewrite bind_lift_ok.
  unfold discover. rewrite Hdir.
  match goal with
  | |- context [ mapM ?g ?l ] => destruct (mapM g l) as [ tuples | e ] eqn:Hmap
  end.
  - apply mapM_length in Hmap.
    destruct tuples as [ | x rest ].
    + destruct (glob env (OsPath.join dir "*")); [ congruence | discriminate Hmap ].
    + simpl rbind. rewrite bind_lift_ok.
      destruct (make_bandpasses_cons_raises env x rest) as [ e0 He0 ].
      rewrite He0. exists e0. reflexivity.
  - exists e. reflexivity.
Qed.

Lemma mag_table_directory_with_files_raises_witness :
  exists e,
    mag_table Demo2.env_dir (Some [Demo.point_2000]) (PStr "filters") "phoenix"
              (NInt 10) (Some "/tmp/mags.csv") Demo.w0
    = (Demo.w0, Raise e).
Proof.
  apply (mag_table_directory_with_files_raises
           Demo2.env_dir (Some [Demo.point_2000]) "filters" "phoenix" (NInt 10)
           (Some "/tmp/mags.csv") Demo.w0).
  - reflexivity.
  - discriminate.
Defined.

(** ** mag_table: the loops and the table that comes out *)

Lemma promote_single (c : Table.cell) : Table.promote [c] = [c].
Proof. destruct c as [ [ z | f ] | ]; reflexivity. Qed.

Lemma params_table_grid_table (t : triple) : params_table t = grid_table [t].
Proof.
  destruct t as [ [ teff feh ] logg ].
  unfold grid_table. simpl map. rewrite !promote_single. reflexivity.
Qed.

(** Without bandpasses the outer loop, when it completes, has printed one
    line per grid point and added the rows of the points it kept. *)
Lemma spectra_loop_no_bandpasses
      (env : Env) (models : string) (jmag : pynum) (jband : Spectrum)
      (spectra : list triple) :
  forall tables w w' out,
    spectra_loop env models jmag jband [] spectra tables w = (w', Ok out) ->
    out = (tables
             ++ map params_table (kept_points env models jmag jband spectra))%list
    /\ stdout w'
       = (stdout w ++ map (grid_line env models jmag jband) spectra)%list
    /\ files w' = files w.
Proof.
  induction spectra as [ | t rest IH ]; intros tables w w' out Hrun.
  - simpl in Hrun. inversion Hrun; subst. simpl.
    rewrite !app_nil_r. auto.
  - simpl in Hrun. unfold bind at 1, lift at 1 in Hrun.
    destruct (Icat env models t) as [ sp | e ] eqn:HIcat;
      [ | discriminate Hrun ].
    destruct (renorm env sp jmag jband) as [ sp' | e ] eqn:Hrenorm.
    + assert (Hfails : renorm_fails env models jmag jband t = false).
      { unfold renorm_fails. rewrite HIcat, Hrenorm. reflexivity. }
      rewrite bind_print in Hrun. simpl bandpass_loop in Hrun.
      rewrite bind_lift_ok in Hrun.
      apply IH in Hrun. destruct Hrun as [ Hout [ Hstd Hfiles ] ].
      unfold kept_points, grid_line in *. simpl filter. simpl map.
      rewrite Hfails. simpl in *.
      rewrite Hout, Hstd, <- !app_assoc.
      repeat split; try reflexivity. exact Hfiles.
    + assert (Hfails : renorm_fails env models jmag jband t = true).
      { unfold renorm_fails. rewrite HIcat, Hrenorm. reflexivity. }
      rewrite bind_print in Hrun.
      apply IH in Hrun. destruct Hrun as [ Hout [ Hstd Hfiles ] ].
      unfold kept_points, grid_line in *. simpl filter. simpl map.
      rewrite Hfails. simpl in *.
      rewrite Hout, Hstd, <- !app_assoc.
      repeat split; try reflexivity. exact Hfiles.
Qed.

Lemma dedup_all_seen (seen names : list string) :
  (forall n, In n names -> existsb (String.eqb n) seen = true) ->
  Table.dedup seen names = [].
Proof.
  induction names as [ | n names IH ]; intros Hall; simpl.
  - reflexivity.
  - rewrite (Hall n (or_introl eq_refl)).
    apply IH. intros m Hm. apply Hall. right. exact Hm.
Qed.

Lemma colnames_params_tables (ts : list triple) :
  forall n,
    In n (flat_map Table.colnames (map params_table ts)) ->
    existsb (String.eqb n) ["logg"; "feh"; "teff"] = true.
Proof.
  induction ts as [ | [ [ teff feh ] logg ] ts IH ]; intros n Hn.
  - destruct Hn.
  - simpl in Hn.
    destruct Hn as [ <- | [ <- | [ <- | Hn ] ] ]; try reflexivity.
    apply IH. exact Hn.
Qed.

Lemma stacked_columns_params_tables (ts : list triple) :
  Table.stacked_column "teff" (map params_table ts)
  = Table.promote (map (fun t : triple => Some (fst (fst t))) ts)
  /\ Table.stacked_column "feh" (map params_table ts)
     = Table.promote (map (fun t : triple => Some (snd (fst t))) ts)
  /\ Table.stacked_column "logg" (map params_table ts)
     = Table.promote (map (fun t : triple => Some (snd t)) ts).
Proof.
  unfold Table.stacked_column.
  repeat split; f_equal;
    induction ts as [ | [ [ teff feh ] logg ] ts IH ];
    try reflexivity; simpl; rewrite IH; reflexivity.
Qed.

(** Stacking the one-row tables of some grid points gives the table of
    those points. *)
Lemma vstack_params_tables (ts : list triple) :
  ts <> [] ->
  Table.vstack (map params_table ts) = Ok (grid_table ts).
Proof.
  destruct ts as [ | t1 [ | t2 ts ] ]; intros Hne.
  - congruence.
  - simpl. rewrite params_table_grid_table. reflexivity.
  - destruct (stacked_columns_params_tables (t1 :: t2 :: ts))
      as [ H1 [ H2 H3 ] ].
    change (map params_table (t1 :: t2 :: ts))
      with (params_table t1 :: params_table t2 :: map params_table ts) in *.
    unfold Table.vstack.
    assert (Hnames :
              Table.dedup []
                (flat_map Table.colnames
                   (params_table t1 :: params_table t2 :: map params_table ts))
              = ["teff"; "feh"; "logg"]).
    { destruct t1 as [ [ a1 b1 ] c1 ]. simpl.
      rewrite dedup_all_seen; [ reflexivity | ].
      intros n Hn.
      apply (colnames_params_tables (t2 :: ts)). exact Hn. }
    rewrite Hnames. cbn [map].
    rewrite H1, H2, H3. reflexivity.
Qed.

(** X16. Whenever [mag_table] returns a table, the table has exactly the
    columns teff, feh and logg and one row for each grid point that did
    not fail normalization, in the order of the grid; one line has been
    printed per grid point after the heading, and no file was written.
    No magnitude column is ever present. *)
Theorem mag_table_returned_table
        (env : Env) (spectra : option (list triple)) (bandpasses : pyobj)
        (models : string) (jmag : pynum) (save : option string)
        (w w' : world) (tb : Table.t)
        (Hret : mag_table env spectra bandpasses models jmag save w
                = (w', Ok (Some tb))) :
  exists jband grid,
    ObsBandpass env "j" = Ok jband
    /\ resolve_spectra spectra = Ok grid
    /\ kept_points env models jmag jband grid <> []
    /\ tb = grid_table (kept_points env models jmag jband grid)
    /\ stdout w'
       = (stdout w
            ++ OutCalculating :: map (grid_line env models jmag jband) grid)%list
    /\ files w' = files w.
Proof.
  unfold mag_table in Hret.
  destruct (ObsBandpass env "j") as [ jband | ] eqn:Hj; [ | discriminate Hret ].
  rewrite bind_lift_ok in Hret.
  destruct (resolve_spectra spectra) as [ grid | ] eqn:Hg;
    [ | discriminate Hret ].
  rewrite bind_lift_ok in Hret.
  destruct (discover env bandpasses) as [ b | ]; [ | discriminate Hret ].
  rewrite bind_lift_ok in Hret.
  exists jband, grid.
  assert (Hitems : forall items,
             (bps <- lift (make_bandpasses env items) ;;
              print OutCalculating ;;;
              tables <- spectra_loop env models jmag jband bps grid [] ;;
              table <- lift (Table.vstack tables) ;;
              save_or_return env save table)%M w = (w', Ok (Some tb)) ->
             kept_points env models jmag jband grid <> []
             /\ tb = grid_table (kept_points env models jmag jband grid)
             /\ stdout w'
                = (stdout w
                     ++ OutCalculating
                     :: map (grid_line env models jmag jband) grid)%list
             /\ files w' = files w).
  { clear Hret. intros items Hrun.
    destruct (make_bandpasses env items) as [ bps | ] eqn:Hbps;
      [ | discriminate Hrun ].
    apply make_bandpasses_ok_nil in Hbps. destruct Hbps as [ _ -> ].
    rewrite bind_lift_ok, bind_print in Hrun.
    unfold bind at 1 in Hrun.
    destruct (spectra_loop env models jmag jband [] grid []
                (mkWorld (stdout w ++ [OutCalculating]) (files w)))
      as [ w1 [ out | ] ] eqn:Hloop; [ | discriminate Hrun ].
    apply spectra_loop_no_bandpasses in Hloop.
    destruct Hloop as [ Hout [ Hstd Hfiles ] ]. simpl in Hout, Hstd, Hfiles.
    subst out.
    destruct (kept_points env models jmag jband grid) as [ | k ks ] eqn:Hkept.
    - discriminate Hrun.
    - rewrite (vstack_params_tables (k :: ks)) in Hrun by discriminate.
      rewrite bind_lift_ok in Hrun.
      unfold save_or_return in Hrun.
      destruct save as [ path | ]; [ | discriminate Hrun ].
      destruct (path_exists env (OsPath.dirname path)
                && Str.contains_char Str.dot path).
      { unfold bind, write_file in Hrun.
        destruct (write_error env _); discriminate Hrun. }
      inversion Hrun; subst w1 tb.
      split; [ discriminate | ].
      split; [ reflexivity | ].
      split; [ | exact Hfiles ].
      rewrite Hstd, <- app_assoc. reflexivity. }
  split; [ reflexivity | split; [ reflexivity | ] ].
  destruct b; try (apply (Hitems items); exact Hret);
    unfold bind, print, ret in Hret; simpl in Hret; discriminate Hret.
Qed.

Lemma mag_table_returned_table_witness :
  exists jband grid,
    ObsBandpass Demo.env "j" = Ok jband
    /\ resolve_spectra (Some [Demo.point_1000; Demo.point_2000]) = Ok grid
    /\ kept_points Demo.env "phoenix" (NInt 10) jband grid <> []
    /\ grid_table [Demo.point_2000]
       = grid_table (kept_points Demo.env "phoenix" (NInt 10) jband grid)
    /\ [OutCalculating; OutError Demo.point_1000; OutParams Demo.point_2000]
       = ([] ++ OutCalculating
             :: map (grid_line Demo.env "phoenix" (NInt 10) jband) grid)%list
    /\ @nil (string * Table.t) = files Demo.w0.
Proof.
  apply (mag_table_returned_table
           Demo.env (Some [Demo.point_1000; Demo.point_2000]) (PList [])
           "phoenix" (NInt 10) (Some "mags.txt") Demo.w0
           (mkWorld [OutCalculating; OutError Demo.point_1000;
                     OutParams Demo.point_2000] [])
           (grid_table [Demo.point_2000])).
  reflexivity.
Defined.

(** X17. Whenever [mag_table], called with a list or tuple of bandpasses,
    returns nothing, it has written one file: its name ends in [.csv] and
    its table has the columns teff, feh and logg and one row for each grid
    point that did not fail normalization, in the order of the grid. *)
Theorem mag_table_written_table
        (env : Env) (spectra : option (list triple)) (bandpasses : pyobj)
        (models : string) (jmag : pynum) (save : option string)
        (w w' : world)
        (Hseq : is_sequence bandpasses = true)
        (Hret : mag_table env spectra bandpasses models jmag save w
                = (w', Ok None)) :
  exists jband grid path',
    ObsBandpass env "j" = Ok jband
    /\ resolve_spectra spectra = Ok grid
    /\ kept_points env models jmag jband grid <> []
    /\ Str.endswith path' ".csv" = true
    /\ files w'
       = (path', grid_table (kept_points env models jmag jband grid))
           :: filter (fun f => negb (String.eqb (fst f) path')) (files w).
Proof.
  unfold mag_table in Hret.
  destruct (ObsBandpass env "j") as [ jband | ] eqn:Hj; [ | discriminate Hret ].
  rewrite bind_lift_ok in Hret.
  destruct (resolve_spectra spectra) as [ grid | ] eqn:Hg;
    [ | discriminate Hret ].
  rewrite bind_lift_ok in Hret.
  exists jband, grid.
  assert (Hitems : forall items,
             (bps <- lift (make_bandpasses env items) ;;
              print OutCalculating ;;;
              tables <- spectra_loop env models jmag jband bps grid [] ;;
              table <- lift (Table.vstack tables) ;;
              save_or_return env save table)%M w = (w', Ok None) ->
             exists path',
               kept_points env models jmag jband grid <> []
               /\ Str.endswith path' ".csv" = true
               /\ files w'
                  = (path', grid_table (kept_points env models jmag jband grid))
                      :: filter (fun f => negb (String.eqb (fst f) path'))
                                (files w)).
  { clear Hret. intros items Hrun.
    destruct (make_bandpasses env items) as [ bps | ] eqn:Hbps;
      [ | discriminate Hrun ].
    apply make_bandpasses_ok_nil in Hbps. destruct Hbps as [ _ -> ].
    rewrite bind_lift_ok, bind_print in Hrun.
    unfold bind at 1 in Hrun.
    destruct (spectra_loop env models jmag jband [] grid []
                (mkWorld (stdout w ++ [OutCalculating]) (files w)))
      as [ w1 [ out | ] ] eqn:Hloop; [ | discriminate Hrun ].
    apply spectra_loop_no_bandpasses in Hloop.
    destruct Hloop as [ Hout [ Hstd Hfiles ] ]. simpl in Hout, Hstd, Hfiles.
    subst out.
    destruct (kept_points env models jmag jband grid) as [ | k ks ] eqn:Hkept.
    - discriminate Hrun.
    - rewrite (vstack_params_tables (k :: ks)) in Hrun by discriminate.
      rewrite bind_lift_ok in Hrun.
      unfold save_or_return in Hrun.
      destruct save as [ path | ]; [ | discriminate Hrun ].
      destruct (path_exists env (OsPath.dirname path)
                && Str.contains_char Str.dot path);
        [ | discriminate Hrun ].
      set (path' := if Str.endswith path ".csv" then path
                    else (hd "" (Str.split Str.dot path) ++ ".csv")%string)
        in Hrun.
      assert (Hcsv : Str.endswith path' ".csv" = true).
      { unfold path'. destruct (Str.endswith path ".csv") eqn:H;
          [ exact H | apply endswith_append ]. }
      unfold bind, write_file in Hrun.
      destruct (write_error env path'); [ discriminate Hrun | ].
      simpl in Hrun. inversion Hrun; subst w'. simpl. rewrite Hfiles.
      exists path'. split; [ discriminate | ].
      split; [ exact Hcsv | reflexivity ]. }
  destruct bandpasses; try discriminate Hseq; simpl discover in Hret;
    rewrite bind_lift_ok in Hret;
    destruct (Hitems items Hret) as [ path' [ H1 [ H2 H3 ] ] ];
    exists path'; auto.
Qed.

Lemma mag_table_written_table_witness :
  exists jband grid path',
    ObsBandpass Demo.env "j" = Ok jband
    /\ resolve_spectra (Some [Demo.point_1000; Demo.point_2000]) = Ok grid
    /\ kept_points Demo.env "phoenix" (NInt 10) jband grid <> []
    /\ Str.endswith path' ".csv" = true
    /\ [("/tmp/mags.csv", params_table Demo.point_2000)]
       = (path', grid_table (kept_points Demo.env "phoenix" (NInt 10) jband grid))
           :: filter (fun f => negb (String.eqb (fst f) path')) (files Demo.w0).
Proof.
  apply (mag_table_written_table
           Demo.env (Some [Demo.point_1000; Demo.point_2000]) (PList [])
           "phoenix" (NInt 10) (Some "/tmp/mags.txt") Demo.w0
           (mkWorld [OutCalculating; OutError Demo.point_1000;
                     OutParams Demo.point_2000]
                    [("/tmp/mags.csv", params_table Demo.point_2000)])).
  - reflexivity.
  - reflexivity.
Defined.

(** X18. The catalog lookup is not protected: when [ps.Icat] raises for
    some grid point, the loop raises, and with it the whole call; the rows
    built for the points before are lost. *)
Theorem spectra_loop_catalog_failure_aborts
        (env : Env) (models : string) (jmag : pynum) (jband : Spectrum)
        (bps : list Bandpass) (spectra : list triple)
        (tables : list Table.t) (w : world)
        (Hfail : existsb (fun t => is_raise (Icat env models t)) spectra
                 = true) :
  is_raise (snd (spectra_loop env models jmag jband bps spectra tables w))
  = true.
Proof.
  revert tables w.
  induction spectra as [ | t rest IH ]; intros tables w;
    [ discriminate Hfail | ].
  simpl in Hfail. simpl spectra_loop. unfold bind at 1, lift at 1.
  destruct (Icat env models t) as [ sp | e ]; [ | reflexivity ].
  simpl in Hfail.
  destruct (renorm env sp jmag jband) as [ sp' | e ]; rewrite bind_print.
  - destruct (bandpass_loop sp' bps (params_table t)) as [ row | e ];
      [ | reflexivity ].
    rewrite bind_lift_ok. apply IH. exact Hfail.
  - apply IH. exact Hfail.
Qed.

Lemma spectra_loop_catalog_failure_aborts_witness :
  spectra_loop Demo.env "phoenix" (NInt 10) Demo.jband []
               [Demo.point_2000; Demo2.point_float] [] Demo.w0
  = (mkWorld [OutParams Demo.point_2000] [],
     Raise (OtherError "parameter out of bounds"))
  /\ is_raise
       (snd (spectra_loop Demo.env "phoenix" (NInt 10) Demo.jband []
                          [Demo.point_2000; Demo2.point_float] [] Demo.w0))
     = true.
Proof.
  split; [ reflexivity | ].
  apply (spectra_loop_catalog_failure_aborts
           Demo.env "phoenix" (NInt 10) Demo.jband []
           [Demo.point_2000; Demo2.point_float] [] Demo.w0).
  reflexivity.
Defined.

(** X19. Neither is the integration: when [synthetic_magnitude] raises for
    some bandpass, the inner loop raises, whatever magnitudes were computed
    for the bandpasses before. *)
Theorem bandpass_loop_failure_aborts
        (spectrum : Spectrum) (bps : list Bandpass) (table : Table.t)
        (Hfail : existsb (fun bp => is_raise (synthetic_magnitude spectrum bp))
                         bps = true) :
  is_raise (bandpass_loop spectrum bps table) = true.
Proof.
  revert table.
  induction bps as [ | bp rest IH ]; intros table; [ discriminate Hfail | ].
  cbn [bandpass_loop].
  destruct (synthetic_magnitude spectrum bp) as [ mag | e ] eqn:Hmag;
    [ | reflexivity ].
  cbn [existsb] in Hfail. rewrite Hmag in Hfail.
  simpl in Hfail |- *. apply IH. exact Hfail.
Qed.

Lemma bandpass_loop_failure_aborts_witness :
  is_raise (bandpass_loop Demo.jband [Demo.bandpass_J]
                          (params_table Demo.point_2000)) = true.
Proof.
  apply (bandpass_loop_failure_aborts
           Demo.jband [Demo.bandpass_J] (params_table Demo.point_2000)).
  reflexivity.
Defined.

Lemma lookup_in_colnames (name : string) (cols : list (string * list Table.cell)) :
  (exists col, Table.lookup name cols = Some col) <-> In name (map fst cols).
Proof.
  induction cols as [ | [ n c ] cols IH ]; simpl.
  - split; [ intros [ col H ]; discriminate H | intros [] ].
  - destruct (String.eqb n name) eqn:Hn.
    + apply String.eqb_eq in Hn. subst n.
      split; [ intros _; left; reflexivity | intros _; exists c; reflexivity ].
    + apply String.eqb_neq in Hn.
      rewrite IH. split; [ intros H; right; exact H | ].
      intros [ H | H ]; [ congruence | exact H ].
Qed.

Lemma replace_colnames (name : string) (col : list Table.cell)
      (cols : list (string * list Table.cell)) :
  map fst (Table.replace name col cols) = map fst cols.
Proof.
  induction cols as [ | [ n c ] cols IH ]; simpl; [ reflexivity | ].
  destruct (String.eqb n name); simpl; [ | rewrite IH ]; reflexivity.
Qed.

Lemma replace_single_row (name : string) (col : list Table.cell)
      (cols : list (string * list Table.cell)) :
  List.length col = 1%nat ->
  Forall (fun c => List.length (snd c) = 1%nat) cols ->
  Forall (fun c => List.length (snd c) = 1%nat) (Table.replace name col cols).
Proof.
  intros Hcol Hcols.
  induction Hcols as [ | [ n c ] cols Hc Hcols IH ]; simpl; [ constructor | ].
  destruct (String.eqb n name); constructor; auto.
Qed.

(** What one assignment [table[name] = [mag]] does to a one-row table. *)
Lemma setitem_one_row (tb : Table.t) (name : string) (mag : pynum) :
  single_row tb ->
  single_row (Table.setitem tb name [Some mag])
  /\ (exists more,
         Table.colnames (Table.setitem tb name [Some mag])
         = (Table.colnames tb ++ more)%list)
  /\ In name (Table.colnames (Table.setitem tb name [Some mag])).
Proof.
  intros Hrow. unfold Table.setitem, single_row, Table.colnames in *.
  destruct (Table.lookup name (Table.columns tb)) as [ col | ] eqn:Hlook; simpl.
  - split; [ apply replace_single_row; [ reflexivity | exact Hrow ] | ].
    rewrite replace_colnames.
    split; [ exists []; rewrite app_nil_r; reflexivity | ].
    apply lookup_in_colnames. exists col. exact Hlook.
  - split.
    + apply Forall_app. split; [ exact Hrow | ].
      constructor; [ reflexivity | constructor ].
    + rewrite map_app. simpl.
      split; [ exists [name]; reflexivity | ].
      apply in_or_app. right. left. reflexivity.
Qed.

(** X20. The inner loop returns the table it was given when there is no
    bandpass, and raises [NameError] as soon as there is one: the name
    [synthetic_magnitude] is bound nowhere in the module, and no magnitude
    column is ever added. *)
Theorem bandpass_loop_name_error
        (spectrum : Spectrum) (bps : list Bandpass) (table : Table.t) :
  bandpass_loop spectrum bps table
  = match bps with
    | [] => Ok table
    | _ :: _ => Raise NameError
    end.
Proof. destruct bps as [ | bp rest ]; reflexivity. Qed.

(** ** color_color_plot *)

(** X21. [color_color_plot] never completes: every call raises.  A table
    object, which the docstring allows, is refused with [TypeError] by
    [os.path.isfile] before anything else is looked at; and a call that
    gets through all its table operations fails on the undefined name
    [plt]. *)
Theorem color_color_plot_always_raises
        (penv : PlotEnv) (colorx colory : string) (table : table_arg)
        (kwargs : list (string * pyobj)) :
  is_raise (color_color_plot penv colorx colory table kwargs) = true
  /\ (forall tb,
         color_color_plot penv colorx colory (TTable tb) kwargs
         = Raise TypeError).
Proof.
  split; [ | reflexivity ].
  unfold color_color_plot.
  destruct table as [ path | tb ]; [ | reflexivity ].
  destruct (path_isfile penv path).
  - destruct (asc_read penv path) as [ tb | ]; simpl; [ | reflexivity ].
    repeat match goal with
           | |- is_raise (rbind ?r _) = true =>
               destruct r; simpl; [ | reflexivity ]
           end.
    reflexivity.
  - simpl.
    repeat match goal with
           | |- is_raise (rbind ?r _) = true =>
               destruct r; simpl; [ | reflexivity ]
           end.
    reflexivity.
Qed.

Lemma table_getitem_ok (tb : Table.t) (name : string) :
  In name (Table.colnames tb) -> exists col, table_getitem tb name = Ok col.
Proof.
  intros Hin. unfold table_getitem.
  apply lookup_in_colnames in Hin. destruct Hin as [ col Hcol ].
  exists col. rewrite Hcol. reflexivity.
Qed.

Lemma setitem_keeps_columns (tb : Table.t) (name : string)
      (col : list Table.cell) (n : string) :
  In n (Table.colnames tb) -> In n (Table.colnames (Table.setitem tb name col)).
Proof.
  unfold Table.setitem, Table.colnames.
  destruct (Table.lookup name (Table.columns tb)); simpl; intros Hin.
  - rewrite replace_colnames. exact Hin.
  - rewrite map_app. apply in_or_app. left. exact Hin.
Qed.

Lemma select_rows_colnames (mask : list bool) (tb : Table.t) :
  Table.colnames (select_rows mask tb) = Table.colnames tb.
Proof.
  unfold select_rows, Table.colnames. simpl.
  rewrite map_map. reflexivity.
Qed.

Lemma filter_param_keeps_columns
      (penv : PlotEnv) (kwargs : list (string * pyobj)) (param : string)
      (tb : Table.t) :
  In param (Table.colnames tb) ->
  exists tb',
    filter_param penv kwargs param tb = Ok tb'
    /\ Table.colnames tb' = Table.colnames tb.
Proof.
  intros Hin. unfold filter_param.
  destruct (table_getitem_ok tb param Hin) as [ col Hcol ].
  destruct (kwargs_get kwargs param) as [ [] | ];
    try (exists tb; split; reflexivity);
    rewrite Hcol; simpl; eexists; split; try reflexivity;
    apply select_rows_colnames.
Qed.

(** X22. A call on a readable file whose table has the four bands and the
    columns teff, logg and feh, with two colours that each split at one
    dash, gets through every table operation, whatever the keyword
    filters, and then raises [NameError]: nothing is ever plotted. *)
Theorem color_color_plot_name_error
        (penv : PlotEnv) (colorx colory path : string)
        (kwargs : list (string * pyobj)) (tb : Table.t)
        (x1 x2 y1 y2 : string)
        (Hfile : path_isfile penv path = true)
        (Hread : asc_read penv path = Ok tb)
        (Hx : split_color colorx = Ok (x1, x2))
        (Hy : split_color colory = Ok (y1, y2))
        (Hcols : Forall (fun n => In n (Table.colnames tb))
                        [x1; x2; y1; y2; "teff"; "logg"; "feh"]) :
  color_color_plot penv colorx colory (TPath path) kwargs = Raise NameError.
Proof.
  assert (Hc : forall n, In n [x1; x2; y1; y2; "teff"; "logg"; "feh"] ->
                         In n (Table.colnames tb)).
  { apply Forall_forall. exact Hcols. }
  unfold color_color_plot. rewrite Hfile, Hread. simpl.
  rewrite Hx, Hy. simpl.
  destruct (table_getitem_ok tb x1) as [ c1 -> ]; [ apply Hc; simpl; auto | ].
  destruct (table_getitem_ok tb x2) as [ c2 -> ]; [ apply Hc; simpl; auto | ].
  simpl.
  set (tb1 := Table.setitem tb colorx (zip_with (cell_sub penv) c1 c2)).
  assert (Hc1 : forall n, In n (Table.colnames tb) -> In n (Table.colnames tb1)).
  { intros n Hn. apply setitem_keeps_columns. exact Hn. }
  destruct (table_getitem_ok tb1 y1) as [ d1 -> ];
    [ apply Hc1, Hc; simpl; auto | ].
  destruct (table_getitem_ok tb1 y2) as [ d2 -> ];
    [ apply Hc1, Hc; simpl; auto | ].
  simpl.
  set (tb2 := Table.setitem tb1 colory (zip_with (cell_sub penv) d1 d2)).
  assert (Hc2 : forall n, In n (Table.colnames tb) -> In n (Table.colnames tb2)).
  { intros n Hn. apply setitem_keeps_columns, Hc1. exact Hn. }
  destruct (filter_param_keeps_columns penv kwargs "teff" tb2)
    as [ tb3 [ -> H3 ] ]; [ apply Hc2, Hc; simpl; auto 10 | ].
  simpl.
  destruct (filter_param_keeps_columns penv kwargs "logg" tb3)
    as [ tb4 [ -> H4 ] ]; [ rewrite H3; apply Hc2, Hc; simpl; auto 10 | ].
  simpl.
  destruct (filter_param_keeps_columns penv kwargs "feh" tb4)
    as [ tb5 [ -> H5 ] ]; [ rewrite H4, H3; apply Hc2, Hc; simpl; auto 10 | ].
  simpl.
  destruct (table_getitem_ok tb5 "logg") as [ logg Hlogg ];
    [ rewrite H5, H4, H3; apply Hc2, Hc; simpl; auto 10 | ].
  rewrite Hlogg. simpl.
  unfold plot_groups.
  destruct (np_unique penv logg); [ reflexivity | ].
  rewrite Hlogg. reflexivity.
Qed.

Lemma color_color_plot_name_error_witness :
  color_color_plot Demo2.penv "J-H" "H-J" (TPath "mags.csv")
                   [("teff", PInt 2000); ("feh", PFloat F64.zero)]
  = Raise NameError.
Proof.
  apply (color_color_plot_name_error
           Demo2.penv "J-H" "H-J" "mags.csv"
           [("teff", PInt 2000); ("feh", PFloat F64.zero)]
           Demo2.magnitudes "J" "H" "H" "J").
  - reflexivity.
  - reflexivity.
  - reflexivity.
  - reflexivity.
  - repeat (apply Forall_cons; [ simpl; auto 10 | ]). apply Forall_nil.
Defined.

(** X23. A colour must hold a dash: when the table loads and one of the
    two colour names has no dash, the call raises [ValueError] at the
    unpacking of the split, before any column is looked up. *)
Theorem color_color_plot_needs_dash
        (penv : PlotEnv) (colorx colory path : string)
        (kwargs : list (string * pyobj)) (tb : Table.t)
        (Hfile : path_isfile penv path = true)
        (Hread : asc_read penv path = Ok tb)
        (Hdash : Str.contains_char "-"%char colorx
                 && Str.contains_char "-"%char colory = false) :
  color_color_plot penv colorx colory (TPath path) kwargs = Raise ValueError.
Proof.
  unfold color_color_plot. rewrite Hfile, Hread. simpl.
  unfold split_color.
  destruct (Str.contains_char "-"%char colorx) eqn:Hx.
  - simpl in Hdash.
    rewrite (split_no_separator _ _ Hdash).
    destruct (Str.split "-"%char colorx) as [ | a [ | b [ | c r ] ] ];
      reflexivity.
  - rewrite (split_no_separator _ _ Hx). reflexivity.
Qed.

Lemma color_color_plot_needs_dash_witness :
  color_color_plot Demo2.penv "J-H" "F115W" (TPath "mags.csv") []
  = Raise ValueError.
Proof.
  apply (color_color_plot_needs_dash
           Demo2.penv "J-H" "F115W" "mags.csv" [] Demo2.magnitudes);
    reflexivity.
Defined.
